(** * TodoApp: a verification development for [todo.py]

    [todo.py] is a PyQt6 sticky-note widget that keeps a to-do list in
    [todos.json].  This file embeds the program in Rocq and proves the
    properties its specification states.

    The embedding follows the source:
    - Python values that can live in [self.todos] are the values [json.load]
      produces; they are the inductive type [value];
    - a Python [str] is a list of code points, a file is a list of bytes;
    - a raised exception is the [Raise] case of [result]; none of the
      handlers of [todo.py] catches anything, so an exception ends the
      handler (and, under PyQt6, the process);
    - the library calls that wait for the user ([QInputDialog.getText],
      [QInputDialog.getInt] and [QMenu.exec]) are the nodes of a tree of
      interactions, [ui];
    - [json.dump], [json.load] and the text layer of [open] are embedded from
      CPython 3.11 ([json/encoder.py], [json/decoder.py], [json/scanner.py]).

    Left out: floating point (a parameter, see [Host]); the limits of the
    interpreter (the recursion depth, the number of digits of an integer
    conversion); failures of the file system other than a missing data
    file. *)

From Stdlib Require Import ZArith Lia Ascii String DecimalFacts DecimalPos DecimalN DecimalZ.
From Stdlib.Strings Require Import Byte.
From stdpp Require Import base option list.

Open Scope Z_scope.

(** ** Strings and exceptions *)

(** A Python [str]: a sequence of code points.  Python allows every code
    point of [0 .. 0x10FFFF] in a [str], lone surrogates included. *)
Definition pystr := list Z.

Definition is_codepoint (c : Z) : Prop := 0 <= c <= 0x10FFFF.
Definition is_surrogate (c : Z) : bool := (0xD800 <=? c) && (c <=? 0xDFFF).
Definition is_pystr (s : pystr) : Prop := Forall is_codepoint s.

(** An ASCII literal of the source as a [pystr]. *)
Definition lit (s : string) : pystr :=
  map (fun a => Z.of_N (N_of_ascii a)) (list_ascii_of_string s).

(** The exceptions the modelled code can raise. *)
Inductive exn : Set :=
| IndexError | KeyError | TypeError | AttributeError
| JSONDecodeError | UnicodeDecodeError | UnicodeEncodeError | RecursionError.

Inductive result (A : Type) : Type :=
| Ok (a : A)
| Raise (e : exn).
Arguments Ok {A} a.
Arguments Raise {A} e.

#[global] Instance result_ret : MRet result := fun A a => Ok a.
#[global] Instance result_bind : MBind result := fun A B k r =>
  match r with
  | Ok a => k a
  | Raise e => Raise e
  end.

(** ** What is taken from the Python runtime

    Floating point is not modelled: a [float] is an abstract type with the
    four operations the program (through [json] and [if t["done"]]) applies
    to it.  [linesep_crlf] tells whether [os.linesep] is CR LF. *)
Class Host : Type := {
  pyfloat : Type;
  float_of_literal : pystr -> pyfloat;   (* float(s), s a JSON number literal *)
  float_constant : option bool -> pyfloat; (* None: nan; Some neg: (-)inf *)
  float_repr : pyfloat -> pystr;         (* json's floatstr *)
  float_truth : pyfloat -> bool;         (* bool(f) *)
  linesep_crlf : bool
}.

(** ** Python values

    The values [json.load] builds.  A [dict] keeps insertion order and
    its keys are strings (JSON object keys always are). *)
#[warnings="-register-all"]
Inductive value `{Host} : Type :=
| VNone
| VBool (b : bool)
| VInt (n : Z)
| VFloat (f : pyfloat)
| VStr (s : pystr)
| VList (l : list value)
| VDict (d : list (pystr * value)).

Section Values.
Context `{Host}.

(** [d[k]] for a [dict] and a string key. *)
Fixpoint dict_get (k : pystr) (d : list (pystr * value)) : option value :=
  match d with
  | [] => None
  | (k', v) :: d' => if decide (k' = k) then Some v else dict_get k d'
  end.

(** [d[k] = v]: an existing key keeps its place, a new key goes last. *)
Fixpoint dict_set (k : pystr) (v : value) (d : list (pystr * value))
  : list (pystr * value) :=
  match d with
  | [] => [(k, v)]
  | (k', v') :: d' =>
      if decide (k' = k) then (k', v) :: d' else (k', v') :: dict_set k v d'
  end.

(** [dict(pairs)]. *)
Definition dict_of_pairs (pairs : list (pystr * value)) : list (pystr * value) :=
  fold_left (fun d kv => dict_set (fst kv) (snd kv) d) pairs [].

(** Truth value of an object ([if t["done"]]). *)
Definition truthy (v : value) : bool :=
  match v with
  | VNone => false
  | VBool b => b
  | VInt n => negb (n =? 0)
  | VFloat f => float_truth f
  | VStr s => negb (bool_decide (s = []))
  | VList l => match l with [] => false | _ => true end
  | VDict d => match d with [] => false | _ => true end
  end.

(** Python's index normalisation for sequences: a negative index counts
    from the end; [None] is an [IndexError]. *)
Definition norm_index (len : nat) (i : Z) : option nat :=
  let j := if i <? 0 then i + Z.of_nat len else i in
  if (0 <=? j) && (j <? Z.of_nat len) then Some (Z.to_nat j) else None.

(** [o[i]] for an integer [i]. *)
Definition getitem_int (o : value) (i : Z) : result value :=
  match o with
  | VList l =>
      match norm_index (length l) i with
      | Some n => match l !! n with Some v => Ok v | None => Raise IndexError end
      | None => Raise IndexError
      end
  | VStr s =>
      match norm_index (length s) i with
      | Some n => match s !! n with Some c => Ok (VStr [c]) | None => Raise IndexError end
      | None => Raise IndexError
      end
  | VDict _ => Raise KeyError
  | _ => Raise TypeError
  end.

(** [o[k]] for a string key [k]. *)
Definition getitem_str (o : value) (k : pystr) : result value :=
  match o with
  | VDict d => match dict_get k d with Some v => Ok v | None => Raise KeyError end
  | _ => Raise TypeError
  end.

(** [o[k] = v] for a string key [k]; the result is the object after the
    assignment. *)
Definition setitem_str (o : value) (k : pystr) (v : value) : result value :=
  match o with
  | VDict d => Ok (VDict (dict_set k v d))
  | _ => Raise TypeError
  end.

(** [v ^ True]. *)
Definition xor_true (v : value) : result value :=
  match v with
  | VBool b => Ok (VBool (xorb b true))
  | VInt n => Ok (VInt (Z.lxor n 1))
  | _ => Raise TypeError
  end.

(** [for t in o]: the items the loop visits. *)
Definition py_iter (o : value) : result (list value) :=
  match o with
  | VList l => Ok l
  | VDict d => Ok (map (fun kv => VStr (fst kv)) d)
  | VStr s => Ok (map (fun c => VStr [c]) s)
  | _ => Raise TypeError
  end.

End Values.

(** ** [json.dump(obj, f, ensure_ascii=False, indent=2)]

    [json.dump] always runs the Python encoder [_make_iterencode] and
    writes each chunk it yields with [f.write]. *)
Section JsonEncoder.
Context `{Host}.

Definition hex_digit (d : Z) : Z := if d <? 10 then 48 + d else 87 + d.

(** [ESCAPE_DCT] applied to the characters [ESCAPE] matches: the
    backslash, the double quote and the control characters below 0x20. *)
Definition escape_char (c : Z) : pystr :=
  if c =? 92 then lit "\\"
  else if c =? 34 then [92; 34]
  else if c =? 8 then lit "\b"
  else if c =? 12 then lit "\f"
  else if c =? 10 then lit "\n"
  else if c =? 13 then lit "\r"
  else if c =? 9 then lit "\t"
  else if (0 <=? c) && (c <? 32) then
    lit "\u00" ++ [hex_digit (c / 16); hex_digit (c mod 16)]
  else [c].

(** [encode_basestring]: the encoder chosen by [ensure_ascii=False]. *)
Definition encode_basestring (s : pystr) : pystr :=
  [34] ++ concat (map escape_char s) ++ [34].

Fixpoint uint_chars (u : Decimal.uint) : pystr :=
  match u with
  | Decimal.Nil => []
  | Decimal.D0 u => 48 :: uint_chars u
  | Decimal.D1 u => 49 :: uint_chars u
  | Decimal.D2 u => 50 :: uint_chars u
  | Decimal.D3 u => 51 :: uint_chars u
  | Decimal.D4 u => 52 :: uint_chars u
  | Decimal.D5 u => 53 :: uint_chars u
  | Decimal.D6 u => 54 :: uint_chars u
  | Decimal.D7 u => 55 :: uint_chars u
  | Decimal.D8 u => 56 :: uint_chars u
  | Decimal.D9 u => 57 :: uint_chars u
  end.

(** [int.__repr__]. *)
Definition int_repr (n : Z) : pystr :=
  match Z.to_int n with
  | Decimal.Pos u => uint_chars u
  | Decimal.Neg u => 45 :: uint_chars u
  end.

(** The text of a value the encoder yields in one piece, [None] for a
    list or a dict. *)
Definition atom_text (o : value) : option pystr :=
  match o with
  | VStr s => Some (encode_basestring s)
  | VNone => Some (lit "null")
  | VBool true => Some (lit "true")
  | VBool false => Some (lit "false")
  | VInt n => Some (int_repr n)
  | VFloat f => Some (float_repr f)
  | VList _ | VDict _ => None
  end.

(** ['\n' + _indent * _current_indent_level] with [_indent = ' ' * 2]. *)
Definition newline_indent (level : nat) : pystr :=
  10 :: repeat 32 (2 * level)%nat.

(** The loop of [_iterencode_list]: [buf] is ['[' + newline_indent] before
    the first item and [separator] before the others; [enc] encodes a
    nested list or dict at the inner level. *)
Fixpoint list_chunks (enc : value -> list pystr) (level : nat)
    (first : bool) (l : list value) : list pystr :=
  match l with
  | [] => []
  | v :: l' =>
      let buf := (if first then [91] else [44]) ++ newline_indent level in
      match atom_text v with
      | Some a => [buf ++ a]
      | None => buf :: enc v
      end ++ list_chunks enc level false l'
  end.

(** The loop of [_iterencode_dict]. *)
Fixpoint dict_chunks (enc : value -> list pystr) (level : nat)
    (first : bool) (d : list (pystr * value)) : list pystr :=
  match d with
  | [] => []
  | (k, v) :: d' =>
      (if first then [] else [[44] ++ newline_indent level])
      ++ [encode_basestring k; lit ": "]
      ++ match atom_text v with
         | Some a => [a]
         | None => enc v
         end
      ++ dict_chunks enc level false d'
  end.

(** [_iterencode(o, _current_indent_level)]: the chunks in the order they
    are yielded. *)
Fixpoint iterencode (o : value) (level : nat) {struct o} : list pystr :=
  match o with
  | VList [] => [lit "[]"]
  | VList l =>
      list_chunks (fun v => iterencode v (S level)) (S level) true l
      ++ [newline_indent level; [93]]
  | VDict [] => [lit "{}"]
  | VDict d =>
      [[123]; newline_indent (S level)]
      ++ dict_chunks (fun v => iterencode v (S level)) (S level) true d
      ++ [newline_indent level; [125]]
  | VStr s => [encode_basestring s]
  | VNone => [lit "null"]
  | VBool true => [lit "true"]
  | VBool false => [lit "false"]
  | VInt n => [int_repr n]
  | VFloat f => [float_repr f]
  end.

(** [json.dumps(o, ensure_ascii=False, indent=2)]: the chunks joined. *)
Definition json_dumps (o : value) : pystr := concat (iterencode o 0).

End JsonEncoder.

(** ** [json.load(f)]

    [json.load] is [loads(f.read())]; the scanner is the recursive descent
    of [json/scanner.py] and [json/decoder.py] (strict mode, ASCII digits
    and hexadecimal digits as in the C accelerator CPython runs by
    default).  Every syntax error is a [JSONDecodeError]. *)

(** The result of a scanner on the text that starts at the current
    index: a value and the text after it, an exception, or [Starved] when
    the recursion budget of the model is used up. *)
Inductive scan (A : Type) : Type :=
| Done (a : A) (rest : pystr)
| Error (e : exn)
| Starved.
Arguments Done {A} a rest.
Arguments Error {A} e.
Arguments Starved {A}.

Section JsonDecoder.
Context `{Host}.

(** [WHITESPACE_STR]. *)
Definition is_ws (c : Z) : bool :=
  (c =? 32) || (c =? 9) || (c =? 10) || (c =? 13).

(** [WHITESPACE.match(s, end).end()]. *)
Fixpoint skip_ws (s : pystr) : pystr :=
  match s with
  | c :: s' => if is_ws c then skip_ws s' else s
  | [] => []
  end.

(** [s[idx:idx + len(p)] == p]; the text after [p] when it holds. *)
Fixpoint strip_prefix (p s : pystr) : option pystr :=
  match p, s with
  | [], _ => Some s
  | a :: p', b :: s' => if a =? b then strip_prefix p' s' else None
  | _ :: _, [] => None
  end.

Definition is_digit (c : Z) : bool := (48 <=? c) && (c <=? 57).

Definition hex_val (c : Z) : option Z :=
  if (48 <=? c) && (c <=? 57) then Some (c - 48)
  else if (97 <=? c) && (c <=? 102) then Some (c - 87)
  else if (65 <=? c) && (c <=? 70) then Some (c - 55)
  else None.

(** The four hexadecimal digits of a [\uXXXX] escape. *)
Definition hex4 (a b c d : Z) : option Z :=
  match hex_val a, hex_val b, hex_val c, hex_val d with
  | Some x, Some y, Some z, Some w => Some (((x * 16 + y) * 16 + z) * 16 + w)
  | _, _, _, _ => None
  end.

(** [BACKSLASH]. *)
Definition backslash (esc : Z) : option Z :=
  if esc =? 34 then Some 34
  else if esc =? 92 then Some 92
  else if esc =? 47 then Some 47
  else if esc =? 98 then Some 8
  else if esc =? 102 then Some 12
  else if esc =? 110 then Some 10
  else if esc =? 114 then Some 13
  else if esc =? 116 then Some 9
  else None.

Definition cons_char (c : Z) (r : result (pystr * pystr)) : result (pystr * pystr) :=
  match r with
  | Ok (str, rest) => Ok (c :: str, rest)
  | Raise e => Raise e
  end.

(** [scanstring(s, end, strict=True)], [s] starting after the opening
    quote: the decoded string and the text after the closing quote. *)
Fixpoint scanstring (s : pystr) : result (pystr * pystr) :=
  match s with
  | [] => Raise JSONDecodeError
  | c :: s1 =>
      if c =? 34 then Ok ([], s1)
      else if c =? 92 then
        match s1 with
        | [] => Raise JSONDecodeError
        | esc :: s2 =>
            if esc =? 117 then
              match s2 with
              | h1 :: h2 :: h3 :: h4 :: s3 =>
                  match hex4 h1 h2 h3 h4 with
                  | None => Raise JSONDecodeError
                  | Some uni =>
                      match s3 with
                      | b :: u :: g1 :: g2 :: g3 :: g4 :: s4 =>
                          if (0xD800 <=? uni) && (uni <=? 0xDBFF)
                             && (b =? 92) && (u =? 117) then
                            match hex4 g1 g2 g3 g4 with
                            | None => Raise JSONDecodeError
                            | Some uni2 =>
                                if (0xDC00 <=? uni2) && (uni2 <=? 0xDFFF) then
                                  cons_char
                                    (0x10000 +
                                     Z.lor (Z.shiftl (uni - 0xD800) 10) (uni2 - 0xDC00))
                                    (scanstring s4)
                                else cons_char uni (scanstring s3)
                            end
                          else cons_char uni (scanstring s3)
                      | _ => cons_char uni (scanstring s3)
                      end
                  end
              | _ => Raise JSONDecodeError
              end
            else
              match backslash esc with
              | Some ch => cons_char ch (scanstring s2)
              | None => Raise JSONDecodeError
              end
        end
      else if c <? 32 then Raise JSONDecodeError
      else cons_char c (scanstring s1)
  end.

(** The longest prefix of digits, and the text after it. *)
Fixpoint span_digits (s : pystr) : pystr * pystr :=
  match s with
  | c :: s' =>
      if is_digit c then let '(ds, r) := span_digits s' in (c :: ds, r)
      else ([], s)
  | [] => ([], [])
  end.

(** The three groups of [NUMBER_RE] and the text after the match. *)
Definition match_int_part (s : pystr) : option (pystr * pystr) :=
  match s with
  | c :: s' =>
      if c =? 48 then Some ([48], s')
      else if is_digit c then let '(ds, r) := span_digits s' in Some (c :: ds, r)
      else None
  | [] => None
  end.

Definition match_integer (s : pystr) : option (pystr * pystr) :=
  match s with
  | c :: s' =>
      if c =? 45 then
        match match_int_part s' with
        | Some (ds, r) => Some (45 :: ds, r)
        | None => None
        end
      else match_int_part s
  | [] => None
  end.

Definition match_frac (s : pystr) : pystr * pystr :=
  match s with
  | c :: s' =>
      if c =? 46 then
        match span_digits s' with
        | ([], _) => ([], s)
        | (ds, r) => (46 :: ds, r)
        end
      else ([], s)
  | [] => ([], [])
  end.

Definition match_exp (s : pystr) : pystr * pystr :=
  match s with
  | e :: s' =>
      if (e =? 101) || (e =? 69) then
        match s' with
        | sg :: s'' =>
            if (sg =? 45) || (sg =? 43) then
              match span_digits s'' with
              | ([], _) => ([], s)
              | (ds, r) => (e :: sg :: ds, r)
              end
            else
              match span_digits s' with
              | ([], _) => ([], s)
              | (ds, r) => (e :: ds, r)
              end
        | [] => ([], s)
        end
      else ([], s)
  | [] => ([], [])
  end.

Fixpoint chars_uint (s : pystr) : Decimal.uint :=
  match s with
  | [] => Decimal.Nil
  | c :: s' =>
      let u := chars_uint s' in
      if c =? 48 then Decimal.D0 u else if c =? 49 then Decimal.D1 u
      else if c =? 50 then Decimal.D2 u else if c =? 51 then Decimal.D3 u
      else if c =? 52 then Decimal.D4 u else if c =? 53 then Decimal.D5 u
      else if c =? 54 then Decimal.D6 u else if c =? 55 then Decimal.D7 u
      else if c =? 56 then Decimal.D8 u else Decimal.D9 u
  end.

(** [int(s)] for a match of the first group of [NUMBER_RE]. *)
Definition parse_int (s : pystr) : Z :=
  match s with
  | c :: s' =>
      if c =? 45 then Z.of_int (Decimal.Neg (chars_uint s'))
      else Z.of_int (Decimal.Pos (chars_uint s))
  | [] => 0
  end.

(** [match_number] and the conversion that follows it in [_scan_once]. *)
Definition scan_number (s : pystr) : option (value * pystr) :=
  match match_integer s with
  | Some (integer, r1) =>
      let '(frac, r2) := match_frac r1 in
      let '(exp, r3) := match_exp r2 in
      match frac, exp with
      | [], [] => Some (VInt (parse_int integer), r3)
      | _, _ => Some (VFloat (float_of_literal (integer ++ frac ++ exp)), r3)
      end
  | None => None
  end.

(** The loop of [JSONArray]: [s] starts at the next value. *)
Fixpoint array_loop (scan_once : pystr -> scan value) (n : nat)
    (s : pystr) (values : list value) : scan value :=
  match n with
  | O => Starved
  | S n' =>
      match scan_once s with
      | Done v r =>
          match skip_ws r with
          | c :: r' =>
              if c =? 93 then Done (VList (values ++ [v])) r'
              else if c =? 44 then
                array_loop scan_once n' (skip_ws r') (values ++ [v])
              else Error JSONDecodeError
          | [] => Error JSONDecodeError
          end
      | Error e => Error e
      | Starved => Starved
      end
  end.

(** [JSONArray((s, end), scan_once)], [s] starting after the bracket. *)
Definition JSONArray (scan_once : pystr -> scan value) (n : nat) (s : pystr)
  : scan value :=
  match skip_ws s with
  | c :: r =>
      if c =? 93 then Done (VList []) r
      else array_loop scan_once n (skip_ws s) []
  | [] => array_loop scan_once n [] []
  end.

(** The loop of [JSONObject]: [s] starts after the opening quote of the
    next key. *)
Fixpoint object_loop (scan_once : pystr -> scan value) (n : nat)
    (s : pystr) (pairs : list (pystr * value)) : scan value :=
  match n with
  | O => Starved
  | S n' =>
      match scanstring s with
      | Raise e => Error e
      | Ok (key, r) =>
          match skip_ws r with
          | c :: r1 =>
              if c =? 58 then
                match scan_once (skip_ws r1) with
                | Done v r2 =>
                    match skip_ws r2 with
                    | d :: r3 =>
                        if d =? 125 then
                          Done (VDict (dict_of_pairs (pairs ++ [(key, v)]))) r3
                        else if d =? 44 then
                          match skip_ws r3 with
                          | q :: r4 =>
                              if q =? 34 then
                                object_loop scan_once n' r4 (pairs ++ [(key, v)])
                              else Error JSONDecodeError
                          | [] => Error JSONDecodeError
                          end
                        else Error JSONDecodeError
                    | [] => Error JSONDecodeError
                    end
                | Error e => Error e
                | Starved => Starved
                end
              else Error JSONDecodeError
          | [] => Error JSONDecodeError
          end
      end
  end.

(** [JSONObject((s, end), ...)], [s] starting after the brace. *)
Definition JSONObject (scan_once : pystr -> scan value) (n : nat) (s : pystr)
  : scan value :=
  match skip_ws s with
  | c :: r =>
      if c =? 125 then Done (VDict []) r
      else if c =? 34 then object_loop scan_once n r []
      else Error JSONDecodeError
  | [] => Error JSONDecodeError
  end.

Definition scan_constant (s : pystr) : scan value :=
  match strip_prefix (lit "NaN") s with
  | Some r => Done (VFloat (float_constant None)) r
  | None =>
      match strip_prefix (lit "Infinity") s with
      | Some r => Done (VFloat (float_constant (Some false))) r
      | None =>
          match strip_prefix (lit "-Infinity") s with
          | Some r => Done (VFloat (float_constant (Some true))) r
          | None => Error JSONDecodeError
          end
      end
  end.

(** [_scan_once(string, idx)]; its [StopIteration] becomes the
    [JSONDecodeError] every caller turns it into.  [fuel] bounds the
    nesting depth. *)
Fixpoint scan_once (fuel : nat) (s : pystr) : scan value :=
  match fuel with
  | O => Starved
  | S fuel' =>
      match s with
      | [] => Error JSONDecodeError
      | c :: s1 =>
          if c =? 34 then
            match scanstring s1 with
            | Ok (str, r) => Done (VStr str) r
            | Raise e => Error e
            end
          else if c =? 123 then JSONObject (scan_once fuel') fuel' s1
          else if c =? 91 then JSONArray (scan_once fuel') fuel' s1
          else
            match strip_prefix (lit "null") s with
            | Some r => Done VNone r
            | None =>
            match strip_prefix (lit "true") s with
            | Some r => Done (VBool true) r
            | None =>
            match strip_prefix (lit "false") s with
            | Some r => Done (VBool false) r
            | None =>
            match scan_number s with
            | Some (v, r) => Done v r
            | None => scan_constant s
            end end end end
      end
  end.

(** [json.loads(s)] for a [str]: [JSONDecoder.decode] after the check for
    a byte order mark.  A [RecursionError] stands for [Starved]; with
    the budget given here it cannot occur. *)
Definition json_loads (s : pystr) : result value :=
  match s with
  | c :: _ => if c =? 0xFEFF then Raise JSONDecodeError else Ok tt
  | [] => Ok tt
  end ≫= fun _ =>
  match scan_once (S (length s)) (skip_ws s) with
  | Done v rest =>
      match skip_ws rest with
      | [] => Ok v
      | _ :: _ => Raise JSONDecodeError
      end
  | Error e => Raise e
  | Starved => Raise RecursionError
  end.

End JsonDecoder.

(** ** Text files: [open(DATA_FILE, mode, encoding="utf-8")]

    The file is opened in text mode with the default [newline=None] and
    [errors="strict"].  The codec is written with the arithmetic form of
    its shifts and masks. *)
Section TextIO.
Context `{Host}.

Definition Z_of_byte (b : byte) : Z := Z.of_N (Byte.to_N b).

Definition byte_of_Z (z : Z) : byte :=
  match Byte.of_N (Z.to_N z) with
  | Some b => b
  | None => x00
  end.

(** The UTF-8 form of one code point; surrogates are refused. *)
Definition utf8_encode_char (c : Z) : option (list byte) :=
  if c <? 0 then None
  else if c <? 0x80 then Some [byte_of_Z c]
  else if c <? 0x800 then
    Some [byte_of_Z (0xC0 + c / 64); byte_of_Z (0x80 + c mod 64)]
  else if is_surrogate c then None
  else if c <? 0x10000 then
    Some [byte_of_Z (0xE0 + c / 4096); byte_of_Z (0x80 + (c / 64) mod 64);
          byte_of_Z (0x80 + c mod 64)]
  else if c <=? 0x10FFFF then
    Some [byte_of_Z (0xF0 + c / 262144); byte_of_Z (0x80 + (c / 4096) mod 64);
          byte_of_Z (0x80 + (c / 64) mod 64); byte_of_Z (0x80 + c mod 64)]
  else None.

(** [text.encode("utf-8")]; [None] is a [UnicodeEncodeError]. *)
Fixpoint utf8_encode (s : pystr) : option (list byte) :=
  match s with
  | [] => Some []
  | c :: s' =>
      match utf8_encode_char c, utf8_encode s' with
      | Some bs, Some bs' => Some (bs ++ bs')
      | _, _ => None
      end
  end.

(** A continuation byte [10xxxxxx] and its six bits. *)
Definition cont_bits (b : byte) : option Z :=
  let z := Z_of_byte b in
  if (0x80 <=? z) && (z <? 0xC0) then Some (z - 0x80) else None.

(** [data.decode("utf-8")]; [None] is a [UnicodeDecodeError]: a stray or
    missing continuation byte, an overlong form, a surrogate or a code
    point above 0x10FFFF. *)
Fixpoint utf8_decode (bs : list byte) : option pystr :=
  match bs with
  | [] => Some []
  | b0 :: r0 =>
      let z0 := Z_of_byte b0 in
      if z0 <? 0x80 then cons z0 <$> utf8_decode r0
      else if z0 <? 0xC0 then None
      else if z0 <? 0xE0 then
        match r0 with
        | b1 :: r1 =>
            match cont_bits b1 with
            | Some x1 =>
                let c := (z0 - 0xC0) * 64 + x1 in
                if 0x80 <=? c then cons c <$> utf8_decode r1 else None
            | None => None
            end
        | _ => None
        end
      else if z0 <? 0xF0 then
        match r0 with
        | b1 :: b2 :: r2 =>
            match cont_bits b1, cont_bits b2 with
            | Some x1, Some x2 =>
                let c := ((z0 - 0xE0) * 64 + x1) * 64 + x2 in
                if (0x800 <=? c) && negb (is_surrogate c)
                then cons c <$> utf8_decode r2 else None
            | _, _ => None
            end
        | _ => None
        end
      else if z0 <? 0xF8 then
        match r0 with
        | b1 :: b2 :: b3 :: r3 =>
            match cont_bits b1, cont_bits b2, cont_bits b3 with
            | Some x1, Some x2, Some x3 =>
                let c := (((z0 - 0xF0) * 64 + x1) * 64 + x2) * 64 + x3 in
                if (0x10000 <=? c) && (c <=? 0x10FFFF)
                then cons c <$> utf8_decode r3 else None
            | _, _, _ => None
            end
        | _ => None
        end
      else None
  end.

(** Writing in text mode replaces every ['\n'] by [os.linesep]. *)
Fixpoint write_newlines (s : pystr) : pystr :=
  match s with
  | [] => []
  | c :: s' =>
      if (c =? 10) && linesep_crlf then 13 :: 10 :: write_newlines s'
      else c :: write_newlines s'
  end.

(** Reading in text mode (universal newlines): ['\r\n'] and ['\r']
    become ['\n']. *)
Fixpoint read_newlines (s : pystr) : pystr :=
  match s with
  | [] => []
  | c :: s' =>
      if c =? 13 then
        match s' with
        | d :: s'' => if d =? 10 then 10 :: read_newlines s'' else 10 :: read_newlines s'
        | [] => [10]
        end
      else c :: read_newlines s'
  end.

(** [f.write(chunk)] for each chunk in turn, on a file opened with ["w"]:
    the bytes in the file when it is closed, and whether a write raised.
    A chunk that cannot be encoded raises before any of it is written. *)
Fixpoint write_chunks (chunks : list pystr) (written : list byte)
  : list byte * result unit :=
  match chunks with
  | [] => (written, Ok tt)
  | chunk :: chunks' =>
      match utf8_encode (write_newlines chunk) with
      | Some bs => write_chunks chunks' (written ++ bs)
      | None => (written, Raise UnicodeEncodeError)
      end
  end.

(** [f.read()] on a file opened with ["r"]. *)
Definition read_text (data : list byte) : result pystr :=
  match utf8_decode data with
  | Some s => Ok (read_newlines s)
  | None => Raise UnicodeDecodeError
  end.

End TextIO.

(** ** The widget

    [state] holds the attributes of [TodoWidget] that the handlers read or
    write, the part of the [QListWidget] they depend on, and the data file.
    Window dragging works on the position of the window alone and is
    modelled apart (see [window] below); painting is left out.

    Every dict in [self.todos] is a new object, made by [json.load] or by
    the dict display in [add], and no handler copies a reference from one
    slot of the list to another; two slots never share a dict, so the list
    of the values describes [self.todos] exactly (see [objects] below and
    the lemmas on it). *)

Definition point : Type := Z * Z.

(** A [QListWidgetItem]: its text and its foreground colour. *)
Record row : Type := { label : pystr; foreground : string }.

Record state `{Host} : Type := {
  todos : value;                    (* self.todos *)
  rows : list row;                  (* the items of self.list *)
  current_row : Z;                  (* self.list.currentRow() *)
  list_visible : bool;              (* self.list.isVisible() *)
  collapsed : bool;                 (* self.collapsed *)
  shown : bool;                     (* self.isVisible() *)
  width : Z;                        (* self.width() *)
  height : Z;                       (* self.height() *)
  data_file : option (list byte);   (* DATA_FILE: absent, or its bytes *)
  quit : bool                       (* QApplication.quit() was called *)
}.

(** The user's answer to a modal dialog or menu. *)
Inductive answer : Type :=
| AText (text : pystr) (ok : bool)   (* QInputDialog.getText *)
| AInt (value : Z) (ok : bool)       (* QInputDialog.getInt *)
| APick (choice : option nat).       (* QMenu.exec: an action, or dismissed *)

(** A handler as the tree of its modal calls: it returns, it raises, or it
    waits for the user and goes on with the answer.  A menu holds the
    callbacks given to [addAction], in order. *)
#[warnings="-register-all"]
Inductive ui (A : Type) : Type :=
| Return (a : A)
| Throw (e : exn)
| GetText (title label : string) (text : pystr) (k : pystr * bool -> ui A)
| GetInt (title label : string) (value min max : Z) (k : Z * bool -> ui A)
| ExecMenu (actions : list (string * ui A)) (pos : point) (dismissed : ui A).
Arguments Return {A} a.
Arguments Throw {A} e.
Arguments GetText {A} title label text k.
Arguments GetInt {A} title label value min max k.
Arguments ExecMenu {A} actions pos dismissed.

Definition lift {A} (r : result A) : ui A :=
  match r with
  | Ok a => Return a
  | Raise e => Throw e
  end.

(** Running a handler against the user's answers, in order: the outcome
    and the answers left over; [None] when an answer does not fit the
    dialog that is open (or none is left). *)
Fixpoint run {A} (p : ui A) (answers : list answer)
  : option (result A * list answer) :=
  match p with
  | Return a => Some (Ok a, answers)
  | Throw e => Some (Raise e, answers)
  | GetText _ _ _ k =>
      match answers with
      | AText text ok :: rest => run (k (text, ok)) rest
      | _ => None
      end
  | GetInt _ _ _ _ _ k =>
      match answers with
      | AInt v ok :: rest => run (k (v, ok)) rest
      | _ => None
      end
  | ExecMenu actions _ dismissed =>
      match answers with
      | APick None :: rest => run dismissed rest
      | APick (Some n) :: rest =>
          (fix pick (acts : list (string * ui A)) (n : nat) :=
             match acts, n with
             | (_, act) :: _, O => run act rest
             | _ :: acts', S n' => pick acts' n'
             | [], _ => None
             end) actions n
      | _ => None
      end
  end.

(** The answers respect the bounds of the [getInt] dialogs they are given
    to: the spin box of the dialog yields a confirmed value only within
    [min .. max]. *)
Fixpoint honours {A} (p : ui A) (answers : list answer) : Prop :=
  match p with
  | Return _ | Throw _ => True
  | GetText _ _ _ k =>
      match answers with
      | AText text ok :: rest => honours (k (text, ok)) rest
      | _ => True
      end
  | GetInt _ _ _ lo hi k =>
      match answers with
      | AInt v ok :: rest => (ok = true -> lo <= v <= hi) /\ honours (k (v, ok)) rest
      | _ => True
      end
  | ExecMenu actions _ dismissed =>
      match answers with
      | APick None :: rest => honours dismissed rest
      | APick (Some n) :: rest =>
          (fix pick (acts : list (string * ui A)) (n : nat) :=
             match acts, n with
             | (_, act) :: _, O => honours act rest
             | _ :: acts', S n' => pick acts' n'
             | [], _ => True
             end) actions n
      | _ => True
      end
  end.

Section Widget.
Context `{Host}.

Definition set_list (st : state) (t : value) (rs : list row) (cur : Z) : state :=
  {| todos := t; rows := rs; current_row := cur;
     list_visible := list_visible st; collapsed := collapsed st;
     shown := shown st; width := width st; height := height st;
     data_file := data_file st; quit := quit st |}.

Definition set_todos (st : state) (t : value) : state :=
  set_list st t (rows st) (current_row st).

Definition set_current_row (st : state) (cur : Z) : state :=
  set_list st (todos st) (rows st) cur.

Definition set_collapsed (st : state) (vis col : bool) : state :=
  {| todos := todos st; rows := rows st; current_row := current_row st;
     list_visible := vis; collapsed := col;
     shown := shown st; width := width st; height := height st;
     data_file := data_file st; quit := quit st |}.

Definition set_shown (st : state) (b : bool) : state :=
  {| todos := todos st; rows := rows st; current_row := current_row st;
     list_visible := list_visible st; collapsed := collapsed st;
     shown := b; width := width st; height := height st;
     data_file := data_file st; quit := quit st |}.

(** [self.resize(w, h)]. *)
Definition resize (st : state) (w h : Z) : state :=
  {| todos := todos st; rows := rows st; current_row := current_row st;
     list_visible := list_visible st; collapsed := collapsed st;
     shown := shown st; width := w; height := h;
     data_file := data_file st; quit := quit st |}.

Definition set_data_file (st : state) (data : list byte) : state :=
  {| todos := todos st; rows := rows st; current_row := current_row st;
     list_visible := list_visible st; collapsed := collapsed st;
     shown := shown st; width := width st; height := height st;
     data_file := Some data; quit := quit st |}.

Definition set_quit (st : state) : state :=
  {| todos := todos st; rows := rows st; current_row := current_row st;
     list_visible := list_visible st; collapsed := collapsed st;
     shown := shown st; width := width st; height := height st;
     data_file := data_file st; quit := true |}.

(** *** Data: [load] and [save] *)

(** [TodoWidget.load], given the data file. *)
Definition load (file : option (list byte)) : result value :=
  match file with
  | Some data => text ← read_text data; json_loads text
  | None => Ok (VList [])
  end.

(** [TodoWidget.save]: [open(DATA_FILE, "w")] empties the file, [json.dump]
    writes its chunks, and leaving the [with] block closes the file.  The
    result is the state with the data file as it is then, and whether
    [json.dump] raised. *)
Definition save (st : state) : state * result unit :=
  let '(data, r) := write_chunks (iterencode (todos st) 0) [] in
  (set_data_file st data, r).

(** *** [refresh] *)

(** The [QListWidgetItem] that the body of the loop builds for [t]. *)
Definition make_row (t : value) : result row :=
  done ← getitem_str t (lit "done");
  text ← getitem_str t (lit "text");
  match text with
  | VStr s =>
      Ok {| label := (if truthy done then [0x2714; 32] else [0x25CB; 32]) ++ s;
            foreground := if truthy done then "#777777" else "#000000" |}
  | _ => Raise TypeError
  end.

Fixpoint make_rows (ts : list value) : result (list row) :=
  match ts with
  | [] => Ok []
  | t :: ts' => r ← make_row t; rs ← make_rows ts'; Ok (r :: rs)
  end.

(** [TodoWidget.refresh]: [clear()] leaves no current row. *)
Definition refresh (st : state) : result state :=
  ts ← py_iter (todos st);
  rs ← make_rows ts;
  Ok (set_list st (todos st) rs (-1)).

(** *** The to-do operations *)

(** A to-do item of the data model: the dict [{"text": text, "done": done}]. *)
Definition todo_item (text : pystr) (done : bool) : value :=
  VDict [(lit "text", VStr text); (lit "done", VBool done)].

(** The dict display [{"text": text, "done": False}] of [add]. *)
Definition new_item (text : pystr) : value := todo_item text false.

(** A to-do list of the data model. *)
Definition todo_list (items : list (pystr * bool)) : value :=
  VList (map (fun it => todo_item (fst it) (snd it)) items).

(** [self.todos.append(x)]. *)
Definition append (t x : value) : result value :=
  match t with
  | VList l => Ok (VList (l ++ [x]))
  | _ => Raise AttributeError
  end.

(** [self.todos.pop(i)]. *)
Definition pop (t : value) (i : Z) : result value :=
  match t with
  | VList l =>
      match norm_index (length l) i with
      | Some n => Ok (VList (base.delete n l))
      | None => Raise IndexError
      end
  | VDict _ => Raise KeyError
  | _ => Raise AttributeError
  end.

(** A statement that changes the object [self.todos[i]] in place: [f]
    gives the object after the statement.  Only an item of a list can be
    changed; what indexing another value yields supports none of the
    statements below. *)
Definition update_item (t : value) (i : Z) (f : value -> result value)
  : result value :=
  match t with
  | VList l =>
      match norm_index (length l) i with
      | Some n =>
          match l !! n with
          | Some o => o' ← f o; Ok (VList (<[n:=o']> l))
          | None => Raise IndexError
          end
      | None => Raise IndexError
      end
  | _ => o ← getitem_int t i; _ ← f o; Ok t
  end.

(** The [text=] argument of [getText]: a [str], or [None] for a null
    [QString]. *)
Definition qstring_arg (v : value) : result pystr :=
  match v with
  | VStr s => Ok s
  | VNone => Ok []
  | _ => Raise TypeError
  end.

Definition add (st : state) : ui state :=
  GetText "添加代办" "内容：" [] (fun '(text, ok) =>
    if ok && negb (bool_decide (text = [])) then
      lift (t ← append (todos st) (new_item text);
            refresh (set_todos st t))
    else Return st).

Definition edit (st : state) (i : Z) : ui state :=
  match (o ← getitem_int (todos st) i;
         v ← getitem_str o (lit "text");
         qstring_arg v) with
  | Raise e => Throw e
  | Ok current =>
      GetText "修改代办" "内容：" current (fun '(text, ok) =>
        if ok then
          lift (t ← update_item (todos st) i
                      (fun o => setitem_str o (lit "text") (VStr text));
                refresh (set_todos st t))
        else Return st)
  end.

Definition delete (st : state) (i : Z) : ui state :=
  lift (t ← pop (todos st) i; refresh (set_todos st t)).

Definition toggle (st : state) (i : Z) : ui state :=
  lift (t ← update_item (todos st) i
              (fun o => v ← getitem_str o (lit "done");
                        v' ← xor_true v;
                        setitem_str o (lit "done") v');
        refresh (set_todos st t)).

(** [TodoWidget.exit]. *)
Definition exit (st : state) : ui state :=
  match save st with
  | (st', Ok _) => Return (set_quit st')
  | (_, Raise e) => Throw e
  end.

Definition change_size (st : state) : ui state :=
  GetInt "修改宽度" "输入宽度:" (width st) 200 800 (fun '(w, ok1) =>
    if negb ok1 then Return st else
    GetInt "修改高度" "输入高度:" (height st) 200 800 (fun '(h, ok2) =>
      if negb ok2 then Return st else
      Return (resize st w h))).

(** *** Menus *)

Definition blank_area_menu (st : state) (pos : point) : ui state :=
  ExecMenu [("➕ 添加代办"%string, add st);
            ("🖋 修改宽高"%string, change_size st);
            ("✖ 退出"%string, exit st)] pos (Return st).

(** [item_menu]: it returns at once when the list has no current row. *)
Definition item_menu (st : state) (global_pos : point) : ui state :=
  let idx := current_row st in
  if idx <? 0 then Return st
  else
    ExecMenu [("✔ 完成 / 取消"%string, toggle st idx);
              ("✏ 修改"%string, edit st idx);
              ("🗑 删除"%string, delete st idx)] global_pos (Return st).

Definition mouseDoubleClickEvent (st : state) : state :=
  set_collapsed st (collapsed st) (negb (collapsed st)).

(** [toggle_show]; the source defines it and connects it to nothing. *)
Definition toggle_show (st : state) : state := set_shown st (negb (shown st)).

End Widget.

(** ** Events

    What Qt does between the user and the handlers is written out here:
    a mouse event goes to the widget under the cursor, which is the
    [QListWidget] over its area while it is visible and the [TodoWidget]
    elsewhere; the list accepts the presses it gets, so they do not travel
    on to its parent.  The [BlankAreaFilter] is installed on the
    [TodoWidget] and sees the events sent to the [TodoWidget] only.  A
    press on a row of the list makes that row current, and a right-button
    press on the list emits [customContextMenuRequested], to which
    [item_menu] is connected. *)

Inductive button : Set := LeftButton | RightButton | MiddleButton.

Inductive event_type : Set :=
| MouseButtonPress | MouseButtonRelease | MouseButtonDblClick | MouseMove.

Record mouse_event : Type := {
  ev_type : event_type;     (* event.type() *)
  ev_button : button;       (* event.button() *)
  ev_pos : point;           (* event.position().toPoint() *)
  ev_global : point         (* event.globalPosition().toPoint() *)
}.

(** Where the cursor is: over the window outside the list, or over the
    list, on a row or below the last one. *)
Inductive target : Set :=
| OnWidget
| OnList (r : option nat).

Inductive input : Type :=
| Mouse (tgt : target) (ev : mouse_event)
| TrayActivated (trigger : bool)     (* r == ActivationReason.Trigger *)
| TrayMenu (pos : point).

Section Events.
Context `{Host}.

(** [obj.rect().contains(p)], [obj] being the [TodoWidget]. *)
Definition rect_contains (st : state) (p : point) : bool :=
  (0 <=? fst p) && (fst p <? width st) && (0 <=? snd p) && (snd p <? height st).

(** [BlankAreaFilter.eventFilter(obj, event)] with [callback =
    blank_area_menu]: [Some] of what the callback does when the filter
    returns [True], [None] when it returns [False]. *)
Definition eventFilter (st : state) (ev : mouse_event) : option (ui state) :=
  match ev_type ev with
  | MouseButtonPress =>
      match ev_button ev with
      | RightButton =>
          if rect_contains st (ev_pos ev)
          then Some (blank_area_menu st (ev_global ev))
          else None
      | _ => None
      end
  | _ => None
  end.

(** The widget that receives a mouse event at [tgt]. *)
Definition receiver (st : state) (tgt : target) : target :=
  if list_visible st then tgt else OnWidget.

(** Delivery of a mouse event. *)
Definition deliver (st : state) (tgt : target) (ev : mouse_event) : ui state :=
  match receiver st tgt with
  | OnWidget =>
      match eventFilter st ev with
      | Some handled => handled
      | None =>
          match ev_type ev with
          | MouseButtonDblClick => Return (mouseDoubleClickEvent st)
          | _ => Return st
          end
      end
  | OnList r =>
      match ev_type ev with
      | MouseButtonPress =>
          let st1 :=
            match r with
            | Some n =>
                if (n <? length (rows st))%nat
                then set_current_row st (Z.of_nat n) else st
            | None => st
            end in
          match ev_button ev with
          | RightButton => item_menu st1 (ev_global ev)
          | _ => Return st1
          end
      | _ => Return st
      end
  end.

(** The menu of the tray icon. *)
Definition tray_menu (st : state) (pos : point) : ui state :=
  ExecMenu [("➕ 添加代办"%string, add st);
            ("🖋 修改宽高"%string, change_size st);
            ("✖ 退出"%string, exit st)] pos (Return st).

Definition handle (st : state) (i : input) : ui state :=
  match i with
  | Mouse tgt ev => deliver st tgt ev
  | TrayActivated trigger => Return (if trigger then set_shown st true else st)
  | TrayMenu pos => tray_menu st pos
  end.

(** [TodoWidget.__init__], given the data file found at startup. *)
Definition startup (file : option (list byte)) : result state :=
  t ← load file;
  refresh {| todos := t; rows := []; current_row := -1;
             list_visible := true; collapsed := false; shown := true;
             width := 300; height := 400; data_file := file; quit := false |}.

(** The states the running program can be in: the one [__init__] builds,
    and those a handler returns normally from one of them. *)
Inductive reachable : state -> Prop :=
| reachable_startup file st :
    startup file = Ok st -> reachable st
| reachable_handle st i answers st' rest :
    reachable st ->
    run (handle st i) answers = Some (Ok st', rest) ->
    reachable st'.

End Events.

(** ** [self.todos] as Python holds it

    A Python list holds references to objects, and a statement such as
    [self.todos[i]["text"] = text] changes the object behind the i-th
    reference, for every slot that holds that reference.  [objects] is this
    view of the list: a store of objects and the references in the slots.
    The handlers above work on the list of the values behind the
    references, [deref]; the proofs show that the two agree as long as no two
    slots hold the same reference, which [json.load] and [add] see to, each
    object being new when it enters the list. *)
Record objects `{Host} : Type := { store : list value; refs : list nat }.

Section Objects.
Context `{Host}.

(** The object behind a reference. *)
Definition at_ref (h : objects) (r : nat) : value :=
  match store h !! r with
  | Some o => o
  | None => VNone
  end.

(** The list as the handlers see it. *)
Definition deref (h : objects) : list value := map (at_ref h) (refs h).

(** No two slots hold the same reference, and every reference is to an
    object of the store. *)
Definition separate (h : objects) : Prop :=
  NoDup (refs h) /\ Forall (fun r => (r < length (store h))%nat) (refs h).

(** A new object, appended to the list: [append] of a dict display, and
    each item [json.load] builds. *)
Definition alloc (h : objects) (o : value) : objects :=
  {| store := store h ++ [o]; refs := refs h ++ [length (store h)] |}.

Definition alloc_all (l : list value) : objects :=
  fold_left alloc l {| store := []; refs := [] |}.

(** The object in slot [n] changed in place into [o']. *)
Definition in_place (h : objects) (n : nat) (o' : value) : objects :=
  match refs h !! n with
  | Some r => {| store := <[r:=o']> (store h); refs := refs h |}
  | None => h
  end.

(** [pop(n)]: the slot goes, the objects stay. *)
Definition remove (h : objects) (n : nat) : objects :=
  {| store := store h; refs := base.delete n (refs h) |}.

End Objects.

(** ** Well-formed values

    [plain ok v]: [v] has no float in it, the keys of each of its dicts
    are distinct (as in every Python dict), and every character of its
    strings and keys satisfies [ok]. *)
#[warnings="-register-all"]
Inductive plain `{Host} (ok : Z -> Prop) : value -> Prop :=
| plain_none : plain ok VNone
| plain_bool b : plain ok (VBool b)
| plain_int n : plain ok (VInt n)
| plain_str s : Forall ok s -> plain ok (VStr s)
| plain_list l : Forall (plain ok) l -> plain ok (VList l)
| plain_dict d :
    NoDup (map fst d) ->
    Forall (fun kv => Forall ok (fst kv)) d ->
    Forall (fun kv => plain ok (snd kv)) d ->
    plain ok (VDict d).

(** A code point that UTF-8 can carry: any but the surrogates. *)
Definition is_scalar (c : Z) : Prop := is_codepoint c /\ is_surrogate c = false.

(** ** Notions of the proofs *)
Section Notions.
Context `{Host}.

(** The text of a value at a level: the chunks run together. *)
Definition text (v : value) (level : nat) : pystr := concat (iterencode v level).

(** The items of a list as they stand in the text. *)
Fixpoint items_text (level : nat) (first : bool) (l : list value) : pystr :=
  match l with
  | [] => []
  | v :: l' =>
      (if first then [91] else [44]) ++ newline_indent level
      ++ text v level ++ items_text level false l'
  end.

(** The entries of a dict as they stand in the text. *)
Fixpoint entries_text (level : nat) (first : bool) (d : list (pystr * value)) : pystr :=
  match d with
  | [] => []
  | (k, v) :: d' =>
      (if first then [] else 44 :: newline_indent level)
      ++ encode_basestring k ++ [58; 32]
      ++ text v level ++ entries_text level false d'
  end.

(** What follows a value in the encoder's output: nothing, a comma or a
    line feed. *)
Definition delimited (rest : pystr) : Prop :=
  match rest with
  | [] => True
  | c :: _ => c = 44 \/ c = 10
  end.

(** The first character of a value in the encoder's output: not white
    space, not a closing bracket, not a byte order mark. *)
Definition value_head (s : pystr) : Prop :=
  match s with
  | [] => False
  | c :: _ => is_ws c = false /\ c <> 93 /\ c <> 0xFEFF
  end.

(** The characters of the encoder's output: a line feed or a character
    from the space on, and one UTF-8 can carry. *)
Definition printable (c : Z) : Prop := (c = 10 \/ 32 <= c) /\ is_scalar c.





(** The rows of the view are those [refresh] builds from [self.todos], and
    the current row is one of them or none. *)
Definition in_sync (st : state) : Prop :=
  (exists ts, py_iter (todos st) = Ok ts /\ make_rows ts = Ok (rows st))
  /\ -1 <= current_row st < Z.of_nat (length (rows st)).

(** A handler keeps the view in step with the list whenever it
    returns. *)
Definition keeps_sync (p : ui state) : Prop :=
  forall answers st' rest, run p answers = Some (Ok st', rest) -> in_sync st'.

(** A handler that never ends in an [IndexError]. *)
Definition index_safe (p : ui state) : Prop :=
  forall answers rest, run p answers <> Some (Raise IndexError, rest).

End Notions.

(** ** Dragging the window

    [mousePressEvent] and [mouseMoveEvent] read and write two things only:
    the position of the window on the screen and the attribute
    [self.drag_pos], which [__init__] does not set. *)

Record window : Type := {
  win_pos : point;             (* self.pos() *)
  drag_pos : option point      (* self.drag_pos, once it is set *)
}.

(** [QPoint] addition and subtraction. *)
Definition point_add (p q : point) : point := (fst p + fst q, snd p + snd q).
Definition point_sub (p q : point) : point := (fst p - fst q, snd p - snd q).

(** The value of [Qt.MouseButton.LeftButton] among the flags of
    [e.buttons()]. *)
Definition LeftButtonFlag : Z := 1.

Definition mousePressEvent (w : window) (e : mouse_event) : window :=
  match ev_button e with
  | LeftButton => {| win_pos := win_pos w; drag_pos := Some (ev_global e) |}
  | _ => w
  end.

(** [mouseMoveEvent], given [e.buttons()] and
    [e.globalPosition().toPoint()]. *)
Definition mouseMoveEvent (w : window) (buttons : Z) (global : point)
  : result window :=
  if buttons =? LeftButtonFlag then
    match drag_pos w with
    | Some d =>
        Ok {| win_pos := point_sub (point_add (win_pos w) global) d;
              drag_pos := Some global |}
    | None => Raise AttributeError
    end
  else Ok w.

(** The move events of a gesture, in order. *)
Fixpoint mouse_moves (w : window) (moves : list (Z * point)) : result window :=
  match moves with
  | [] => Ok w
  | (buttons, global) :: moves' =>
      w' ← mouseMoveEvent w buttons global; mouse_moves w' moves'
  end.

(** Where the cursor was at the last move with the left button alone, [g]
    if there was none. *)
Fixpoint last_drag (g : point) (moves : list (Z * point)) : point :=
  match moves with
  | [] => g
  | (buttons, global) :: moves' =>
      last_drag (if buttons =? LeftButtonFlag then global else g) moves'
  end.

(** ** Shapes of [self.todos] *)
Section Shapes.
Context `{Host}.

(** An item [refresh] can display: a dict with a ["done"] entry and a
    ["text"] entry that is a [str]. *)
Definition shown_item (t : value) : bool :=
  match t with
  | VDict d =>
      match dict_get (lit "done") d, dict_get (lit "text") d with
      | Some _, Some (VStr _) => true
      | _, _ => false
      end
  | _ => false
  end.

(** A value [refresh] can display: a list of such items, or a string or a
    dict with nothing in it. *)
Definition displayable (v : value) : bool :=
  match v with
  | VList l => forallb shown_item l
  | VStr [] => true
  | VDict [] => true
  | _ => false
  end.

(** An item every operation works on: its ["done"] entry is a [bool] or an
    [int] as well. *)
Definition tidy_item (t : value) : bool :=
  match t with
  | VDict d =>
      match dict_get (lit "done") d, dict_get (lit "text") d with
      | Some (VBool _ | VInt _), Some (VStr _) => true
      | _, _ => false
      end
  | _ => false
  end.

Definition tidy (st : state) : Prop :=
  exists l, todos st = VList l /\ Forall (fun t => tidy_item t = true) l.

(** A handler that, whatever the user does, returns with the list tidy and
    the view in step with it, or raises the one error [save] can raise. *)
Definition crash_free (p : ui state) : Prop :=
  forall answers r rest,
    run p answers = Some (r, rest) ->
    match r with
    | Ok st' => in_sync st' /\ tidy st'
    | Raise e => e = UnicodeEncodeError
    end.

(** The row [refresh] builds for an item with the given entries. *)
Definition row_of (done : value) (text : pystr) : row :=
  {| label := (if truthy done then [0x2714; 32] else [0x25CB; 32]) ++ text;
     foreground := if truthy done then "#777777" else "#000000" |}.

(** What a handler that returns has done to the state: it has changed the
    list, the rows or the current row; or resized the window, within the
    bounds of the dialogs if the answers keep to them; or written the data
    file and quit; or folded or unfolded the list; or shown the window. *)
Definition effect (st : state) (p : ui state) : Prop :=
  forall answers st' rest,
    run p answers = Some (Ok st', rest) ->
    (exists t rs c, st' = set_list st t rs c)
    \/ (exists w h, st' = resize st w h
                    /\ (honours p answers -> 200 <= w <= 800 /\ 200 <= h <= 800))
    \/ (exists data, st' = set_quit (set_data_file st data)
                     /\ save st = (set_data_file st data, Ok tt))
    \/ st' = mouseDoubleClickEvent st
    \/ st' = set_shown st true.

End Shapes.

(** ** A host for the examples

    Floats are kept as the literal they were read from; no example below
    contains one. *)
Definition example_host (crlf : bool) : Host :=
  {| pyfloat := pystr;
     float_of_literal := fun s => s;
     float_constant := fun c =>
       match c with
       | None => lit "NaN"
       | Some false => lit "Infinity"
       | Some true => lit "-Infinity"
       end;
     float_repr := fun s => s;
     float_truth := fun _ => true;
     linesep_crlf := crlf |}.

(** The scenario of the specification after its first two steps, with a
    second item: "Buy milk" is done, "Call Bob" is not. *)
Definition example_items : list (@value (example_host false)) :=
  [todo_item (lit "Buy milk") true; todo_item (lit "Call Bob") false].

Definition example_rows : list row :=
  [{| label := [0x2714; 32] ++ lit "Buy milk"; foreground := "#777777" |};
   {| label := [0x25CB; 32] ++ lit "Call Bob"; foreground := "#000000" |}].

Definition example_state : @state (example_host false) :=
  {| todos := VList example_items; rows := example_rows; current_row := 1;
     list_visible := true; collapsed := false; shown := true;
     width := 300; height := 400; data_file := None; quit := false |}.

(** Bytes, and a data file, given by their ASCII text, in which an
    apostrophe stands for the double quote. *)
Definition ascii_bytes (s : string) : list byte :=
  map (fun a => if Ascii.eqb a "'" then x22 else byte_of_ascii a)
      (list_ascii_of_string s).

Definition ascii_file (s : string) : option (list byte) := Some (ascii_bytes s).

(** A list whose one item has a lone surrogate as its text, and a state
    that holds it.  [json.load] builds this list from a data file that
    spells the surrogate as an escape. *)
Definition surrogate_items : list (pystr * bool) := [([0xD800], false)].

Definition surrogate_state : @state (example_host false) :=
  set_todos example_state (todo_list surrogate_items).

(** A press of the right button at a position of the window, the window
    being at (100, 100) on the screen. *)
Definition right_press (p : point) : mouse_event :=
  {| ev_type := MouseButtonPress; ev_button := RightButton;
     ev_pos := p; ev_global := (fst p + 100, snd p + 100) |}.

(** A press of the left button at a position of the same window. *)
Definition left_press (p : point) : mouse_event :=
  {| ev_type := MouseButtonPress; ev_button := LeftButton;
     ev_pos := p; ev_global := (fst p + 100, snd p + 100) |}.

(** * Proofs *)

(** ** Lists, dicts and rows *)
Section ListFacts.
Context `{Host}.

Lemma norm_index_valid (len : nat) (i : Z) :
  0 <= i < Z.of_nat len -> norm_index len i = Some (Z.to_nat i).
Proof.
  intros Hi. unfold norm_index.
  destruct (Z.ltb_spec i 0) as [?|_]; [lia|].
  destruct (Z.leb_spec 0 i); [|lia].
  destruct (Z.ltb_spec i (Z.of_nat len)); [reflexivity|lia].
Qed.

Lemma norm_index_lt (len : nat) (i : Z) (n : nat) :
  norm_index len i = Some n -> (n < len)%nat.
Proof.
  unfold norm_index. intros Hn.
  destruct (Z.ltb_spec i 0);
    repeat match type of Hn with
           | context [Z.leb ?a ?b] => destruct (Z.leb_spec a b)
           | context [Z.ltb ?a ?b] => destruct (Z.ltb_spec a b)
           end; simpl in Hn; inversion Hn; lia.
Qed.

Lemma dict_get_set_eq k v (d : list (pystr * value)) :
  dict_get k (dict_set k v d) = Some v.
Proof.
  induction d as [|[k' v'] d IH]; simpl.
  - rewrite decide_True by reflexivity. reflexivity.
  - destruct (decide (k' = k)) as [->|Hne]; simpl.
    + rewrite decide_True by reflexivity. reflexivity.
    + rewrite decide_False by assumption. exact IH.
Qed.

Lemma dict_get_set_ne k k' v (d : list (pystr * value)) :
  k' <> k -> dict_get k' (dict_set k v d) = dict_get k' d.
Proof.
  intros Hne. induction d as [|[k0 v0] d IH]; simpl.
  - rewrite decide_False by congruence. reflexivity.
  - destruct (decide (k0 = k)) as [->|Hk]; simpl.
    + rewrite !decide_False by congruence. reflexivity.
    + destruct (decide (k0 = k')); [reflexivity|exact IH].
Qed.

Lemma dict_set_same k v (d : list (pystr * value)) :
  dict_get k d = Some v -> dict_set k v d = d.
Proof.
  induction d as [|[k' v'] d IH]; simpl; [discriminate|].
  destruct (decide (k' = k)) as [->|Hne].
  - intros [= ->]. reflexivity.
  - intros Hg. rewrite IH by assumption. reflexivity.
Qed.

Lemma dict_set_set k v v' (d : list (pystr * value)) :
  dict_set k v (dict_set k v' d) = dict_set k v d.
Proof.
  induction d as [|[k0 v0] d IH]; simpl.
  - rewrite decide_True by reflexivity. reflexivity.
  - destruct (decide (k0 = k)) as [->|Hk]; simpl.
    + rewrite decide_True by reflexivity. reflexivity.
    + rewrite decide_False by assumption. rewrite IH. reflexivity.
Qed.

Lemma dict_set_keys k v (d : list (pystr * value)) :
  is_Some (dict_get k d) -> map fst (dict_set k v d) = map fst d.
Proof.
  induction d as [|[k0 v0] d IH]; simpl.
  - intros [? [=]].
  - destruct (decide (k0 = k)) as [->|Hk]; simpl; [reflexivity|].
    intros Hs. rewrite IH by assumption. reflexivity.
Qed.

(** [make_rows] builds the rows item by item. *)
Lemma make_rows_Forall2 (ts : list value) (rs : list row) :
  make_rows ts = Ok rs <-> Forall2 (fun t r => make_row t = Ok r) ts rs.
Proof.
  revert rs. induction ts as [|t ts IH]; intros rs; simpl.
  - split.
    + intros [= <-]. constructor.
    + intros Hf. inversion Hf. reflexivity.
  - split.
    + destruct (make_row t) as [r|e] eqn:Hr; simpl; [|discriminate].
      destruct (make_rows ts) as [rs'|e] eqn:Hrs; simpl; [|discriminate].
      intros [= <-]. constructor; [assumption|]. apply IH. reflexivity.
    + intros Hf. inversion Hf as [|t' r ts' rs' Hr Hrs]; subst.
      rewrite Hr. simpl. apply IH in Hrs. rewrite Hrs. reflexivity.
Qed.

(** What [refresh] needs of an item: a dict with a ["done"] entry and a
    string under ["text"]. *)
Lemma make_row_Ok (t : value) (r : row) :
  make_row t = Ok r ->
  exists d done text,
    t = VDict d /\ dict_get (lit "done") d = Some done
    /\ dict_get (lit "text") d = Some (VStr text)
    /\ r = {| label := (if truthy done then [0x2714; 32] else [0x25CB; 32]) ++ text;
              foreground := if truthy done then "#777777" else "#000000" |}.
Proof.
  unfold make_row, getitem_str. destruct t; simpl; try discriminate.
  destruct (dict_get (lit "done") d) as [done|] eqn:Hd; simpl; [|discriminate].
  destruct (dict_get (lit "text") d) as [text|] eqn:Ht; simpl; [|discriminate].
  destruct text; try discriminate. intros [= <-]. eauto 10.
Qed.

Lemma make_row_dict (d : list (pystr * value)) done text :
  dict_get (lit "done") d = Some done ->
  dict_get (lit "text") d = Some (VStr text) ->
  make_row (VDict d)
  = Ok {| label := (if truthy done then [0x2714; 32] else [0x25CB; 32]) ++ text;
          foreground := if truthy done then "#777777" else "#000000" |}.
Proof.
  intros Hd Ht. unfold make_row, getitem_str. rewrite Hd. simpl. rewrite Ht.
  reflexivity.
Qed.

Lemma refresh_list (st : state) (l : list value) (rs : list row) :
  make_rows l = Ok rs ->
  refresh (set_todos st (VList l)) = Ok (set_list st (VList l) rs (-1)).
Proof.
  intros Hrs. unfold refresh. simpl. rewrite Hrs. reflexivity.
Qed.

End ListFacts.

(** ** The to-do operations *)

(** C2.  In a state whose to-do list is [l]: [add] answered with a
    confirmed, non-empty text [t] leaves the list [l] followed by the one
    item [{"text": t, "done": False}] (and the view shows one more row, not
    done); answered with a cancel, or with a confirmed empty text, it
    leaves the state as it was. *)
Theorem add_appends_or_keeps `{Host} (st : state) (l : list value) (rs : list row) :
  todos st = VList l ->
  make_rows l = Ok rs ->
  (forall t, t <> [] ->
     run (add st) [AText t true]
     = Some (Ok (set_list st (VList (l ++ [todo_item t false]))
                   (rs ++ [{| label := [0x25CB; 32] ++ t; foreground := "#000000" |}])
                   (-1)), []))
  /\ (forall t, run (add st) [AText t false] = Some (Ok st, []))
  /\ run (add st) [AText [] true] = Some (Ok st, []).
Proof.
  intros Ht Hrs. split; [|split].
  - intros t Hne. unfold add. simpl.
    rewrite bool_decide_eq_false_2 by assumption. simpl.
    rewrite Ht. simpl.
    assert (Hrows : make_rows (l ++ [todo_item t false])
                    = Ok (rs ++ [{| label := [0x25CB; 32] ++ t;
                                    foreground := "#000000" |}])).
    { apply make_rows_Forall2. apply Forall2_app.
      - apply make_rows_Forall2. assumption.
      - constructor; [|constructor]. reflexivity. }
    unfold new_item.
    rewrite (refresh_list st _ _ Hrows). reflexivity.
  - intros t. reflexivity.
  - reflexivity.
Qed.

Lemma add_appends_or_keeps_witness :
  run (add example_state) [AText (lit "Water plants") true]
  = Some (Ok (set_list example_state
                (VList (example_items ++ [todo_item (lit "Water plants") false]))
                (example_rows
                 ++ [{| label := [0x25CB; 32] ++ lit "Water plants";
                        foreground := "#000000" |}])
                (-1)), []).
Proof.
  refine (proj1 (add_appends_or_keeps example_state example_items example_rows
                   eq_refl eq_refl) (lit "Water plants") _).
  discriminate.
Defined.

Section Operations.
Context `{Host}.

Lemma getitem_int_list (l : list value) (i : Z) (o : value) :
  0 <= i < Z.of_nat (length l) ->
  l !! Z.to_nat i = Some o ->
  getitem_int (VList l) i = Ok o.
Proof.
  intros Hi Ho. simpl. rewrite norm_index_valid by assumption.
  rewrite Ho. reflexivity.
Qed.

Lemma update_item_list (l : list value) (i : Z) (o : value) f :
  0 <= i < Z.of_nat (length l) ->
  l !! Z.to_nat i = Some o ->
  update_item (VList l) i f = (o' ← f o; Ok (VList (<[Z.to_nat i:=o']> l))).
Proof.
  intros Hi Ho. simpl. rewrite norm_index_valid by assumption.
  rewrite Ho. reflexivity.
Qed.

(** An item that [refresh] displays. *)
Lemma displayed_item (l : list value) (rs : list row) (n : nat) (o : value) :
  make_rows l = Ok rs ->
  l !! n = Some o ->
  exists d done text,
    o = VDict d /\ dict_get (lit "done") d = Some done
    /\ dict_get (lit "text") d = Some (VStr text).
Proof.
  intros Hrs Ho. apply make_rows_Forall2 in Hrs.
  destruct (Forall2_lookup_l _ _ _ _ _ Hrs Ho) as (r & _ & Hr).
  apply make_row_Ok in Hr as (d & done & text & -> & Hd & Ht & _). eauto 10.
Qed.

(** Replacing a displayed item by a displayable one keeps the list
    displayable. *)
Lemma make_rows_insert (l : list value) (rs : list row) (n : nat) (o : value) (r : row) :
  make_rows l = Ok rs ->
  make_row o = Ok r ->
  make_rows (<[n:=o]> l) = Ok (<[n:=r]> rs).
Proof.
  intros Hrs Hr. apply make_rows_Forall2. apply Forall2_insert; [|assumption].
  apply make_rows_Forall2. assumption.
Qed.

Lemma make_rows_delete (l : list value) (rs : list row) (n : nat) :
  make_rows l = Ok rs ->
  make_rows (base.delete n l) = Ok (base.delete n rs).
Proof.
  intros Hrs. apply make_rows_Forall2. apply Forall2_delete.
  apply make_rows_Forall2. assumption.
Qed.

End Operations.

(** C3.  In a state whose to-do list is [l], with [i] a valid index and
    [o] the item at [i]: [edit] answered with a confirmed text [t], empty
    or not, puts at [i] an item [o'] whose ["text"] is [t] and whose other
    entries, ["done"] among them, are those of [o], and leaves every other
    position and the length of the list alone; answered with a cancel it
    leaves the state as it was. *)
Theorem edit_changes_text_only `{Host} (st : state) (l : list value)
    (rs : list row) (i : Z) (o : value) :
  todos st = VList l ->
  make_rows l = Ok rs ->
  0 <= i < Z.of_nat (length l) ->
  l !! Z.to_nat i = Some o ->
  (forall t, exists o' rs',
     run (edit st i) [AText t true]
     = Some (Ok (set_list st (VList (<[Z.to_nat i:=o']> l)) rs' (-1)), [])
     /\ getitem_str o' (lit "text") = Ok (VStr t)
     /\ getitem_str o' (lit "done") = getitem_str o (lit "done")
     /\ (forall k, k <> lit "text" -> getitem_str o' k = getitem_str o k)
     /\ length (<[Z.to_nat i:=o']> l) = length l
     /\ (forall j, j <> Z.to_nat i -> <[Z.to_nat i:=o']> l !! j = l !! j))
  /\ (forall t, run (edit st i) [AText t false] = Some (Ok st, [])).
Proof.
  intros Ht Hrs Hi Ho.
  destruct (displayed_item _ _ _ _ Hrs Ho) as (d & done & text & -> & Hd & Htx).
  assert (Hcur : (o ← getitem_int (todos st) i;
                  v ← getitem_str o (lit "text"); qstring_arg v) = Ok text).
  { rewrite Ht, (getitem_int_list _ _ _ Hi Ho). simpl. rewrite Htx. reflexivity. }
  split.
  - intros t. exists (VDict (dict_set (lit "text") (VStr t) d)).
    eexists. split; [|split; [|split; [|split; [|split]]]].
    + unfold edit. rewrite Hcur. simpl. rewrite Ht.
      rewrite (update_item_list _ _ _ _ Hi Ho). simpl.
      erewrite refresh_list; [reflexivity|].
      apply make_rows_insert; [eassumption|].
      apply make_row_dict with (done := done).
      * rewrite dict_get_set_ne by discriminate. assumption.
      * apply dict_get_set_eq.
    + simpl. rewrite dict_get_set_eq. reflexivity.
    + simpl. rewrite dict_get_set_ne by discriminate. reflexivity.
    + intros k Hk. simpl. rewrite dict_get_set_ne by assumption. reflexivity.
    + apply length_insert.
    + intros j Hj. apply list_lookup_insert_ne. congruence.
  - intros t. unfold edit. rewrite Hcur. reflexivity.
Qed.

Lemma edit_changes_text_only_witness :
  (forall t, exists o' rs',
     run (edit example_state 0) [AText t true]
     = Some (Ok (set_list example_state (VList (<[0%nat:=o']> example_items)) rs' (-1)), [])
     /\ getitem_str o' (lit "text") = Ok (VStr t)
     /\ getitem_str o' (lit "done") = getitem_str (todo_item (lit "Buy milk") true) (lit "done")
     /\ (forall k, k <> lit "text" ->
         getitem_str o' k = getitem_str (todo_item (lit "Buy milk") true) k)
     /\ length (<[0%nat:=o']> example_items) = length example_items
     /\ (forall j, j <> 0%nat -> <[0%nat:=o']> example_items !! j = example_items !! j))
  /\ (forall t, run (edit example_state 0) [AText t false] = Some (Ok example_state, [])).
Proof.
  apply (edit_changes_text_only example_state example_items example_rows 0
           (todo_item (lit "Buy milk") true)).
  - reflexivity.
  - reflexivity.
  - simpl. lia.
  - reflexivity.
Defined.

(** C4.  In a state whose to-do list is [l], with [i] a valid index whose
    item has a boolean [b] under ["done"]: [toggle(i)] puts the negation of
    [b] there, and a second [toggle(i)] gives back the list [l], item [i]
    with ["done"] equal to [b] again. *)
Theorem toggle_twice_restores `{Host} (st : state) (l : list value)
    (rs : list row) (i : Z) (o : value) (b : bool) :
  todos st = VList l ->
  make_rows l = Ok rs ->
  0 <= i < Z.of_nat (length l) ->
  l !! Z.to_nat i = Some o ->
  getitem_str o (lit "done") = Ok (VBool b) ->
  exists st1 st2 o1,
    run (toggle st i) [] = Some (Ok st1, [])
    /\ todos st1 = VList (<[Z.to_nat i:=o1]> l)
    /\ getitem_str o1 (lit "done") = Ok (VBool (negb b))
    /\ run (toggle st1 i) [] = Some (Ok st2, [])
    /\ todos st2 = VList l
    /\ st2 = set_list st (VList l) rs (-1).
Proof.
  intros Ht Hrs Hi Ho Hb.
  destruct (displayed_item _ _ _ _ Hrs Ho) as (d & done & text & -> & Hd & Htx).
  simpl in Hb. rewrite Hd in Hb. injection Hb as ->.
  assert (Hlen : (Z.to_nat i < length l)%nat) by (apply lookup_lt_is_Some; eauto).
  assert (Hrow1 : exists r1,
             make_row (VDict (dict_set (lit "done") (VBool (negb b)) d)) = Ok r1).
  { eexists. apply make_row_dict with (done := VBool (negb b)).
    - apply dict_get_set_eq.
    - rewrite dict_get_set_ne by discriminate. eassumption. }
  destruct Hrow1 as [r1 Hr1].
  pose proof (make_rows_insert _ _ (Z.to_nat i) _ _ Hrs Hr1) as Hrs1.
  eexists _, _, (VDict (dict_set (lit "done") (VBool (negb b)) d)).
  split; [|split; [|split; [|split; [|split]]]].
  - unfold toggle. rewrite Ht, (update_item_list _ _ _ _ Hi Ho). simpl.
    rewrite Hd. simpl.
    replace (xorb b true) with (negb b) by (destruct b; reflexivity).
    rewrite (refresh_list st _ _ Hrs1). reflexivity.
  - reflexivity.
  - simpl. rewrite dict_get_set_eq. reflexivity.
  - unfold toggle. cbn [todos set_list].
    rewrite (update_item_list _ _ (VDict (dict_set (lit "done") (VBool (negb b)) d))).
    + simpl. rewrite dict_get_set_eq. simpl. rewrite dict_set_set.
      replace (xorb (negb b) true) with b by (destruct b; reflexivity).
      rewrite (dict_set_same _ _ _ Hd).
      rewrite list_insert_insert_eq.
      rewrite (list_insert_id _ _ _ Ho).
      unfold refresh, set_todos. cbn [todos set_list py_iter]. simpl.
      rewrite Hrs. reflexivity.
    + rewrite length_insert. assumption.
    + apply list_lookup_insert_eq. assumption.
  - reflexivity.
  - reflexivity.
Qed.

Lemma toggle_twice_restores_witness :
  exists st1 st2 o1,
    run (toggle example_state 1) [] = Some (Ok st1, [])
    /\ todos st1 = VList (<[1%nat:=o1]> example_items)
    /\ getitem_str o1 (lit "done") = Ok (VBool true)
    /\ run (toggle st1 1) [] = Some (Ok st2, [])
    /\ todos st2 = VList example_items
    /\ st2 = set_list example_state (VList example_items) example_rows (-1).
Proof.
  apply (toggle_twice_restores example_state example_items example_rows 1
           (todo_item (lit "Call Bob") false) false).
  - reflexivity.
  - reflexivity.
  - simpl. lia.
  - reflexivity.
  - reflexivity.
Defined.

(** ** The list of values and the list of references *)
Section ObjectFacts.
Context `{Host}.

Lemma at_ref_alloc_old h o r :
  (r < length (store h))%nat -> at_ref (alloc h o) r = at_ref h r.
Proof.
  intros Hr. unfold at_ref, alloc. simpl. rewrite lookup_app_l by assumption.
  reflexivity.
Qed.

Lemma alloc_separate h o :
  separate h -> separate (alloc h o) /\ deref (alloc h o) = deref h ++ [o].
Proof.
  intros [Hnd Hlt]. split; [split|].
  - simpl. apply NoDup_app. split; [assumption|]. split; [|apply NoDup_singleton].
    intros r Hr Hin. apply list_elem_of_singleton in Hin. subst.
    rewrite Forall_forall in Hlt. specialize (Hlt _ Hr). lia.
  - simpl. rewrite length_app. simpl. apply Forall_app. split.
    + eapply Forall_impl; [exact Hlt|]. intros r Hr. simpl in Hr. lia.
    + constructor; [lia|constructor].
  - unfold deref. cbn [refs alloc]. rewrite map_app. f_equal.
    + apply map_ext_Forall. eapply Forall_impl; [exact Hlt|].
      intros r Hr. apply at_ref_alloc_old. assumption.
    + simpl. unfold at_ref. simpl.
      rewrite lookup_app_r by lia. rewrite Nat.sub_diag. reflexivity.
Qed.

Lemma alloc_all_separate (l : list value) :
  separate (alloc_all l) /\ deref (alloc_all l) = l.
Proof.
  unfold alloc_all.
  enough (Hgen : forall h, separate h ->
             separate (fold_left alloc l h)
             /\ deref (fold_left alloc l h) = deref h ++ l).
  { apply (Hgen {| store := []; refs := [] |}). split; constructor. }
  induction l as [|o l IH]; intros h Hs; simpl.
  - rewrite app_nil_r. auto.
  - destruct (alloc_separate h o Hs) as [Hs' Hd].
    destruct (IH _ Hs') as [Hs'' Hd'']. split; [assumption|].
    rewrite Hd'', Hd, <- app_assoc. reflexivity.
Qed.

Lemma in_place_separate h n o' :
  separate h -> (n < length (refs h))%nat ->
  separate (in_place h n o')
  /\ deref (in_place h n o') = <[n:=o']> (deref h).
Proof.
  intros [Hnd Hlt] Hn. unfold in_place.
  destruct (refs h !! n) as [r|] eqn:Hr;
    [|apply lookup_ge_None in Hr; lia].
  split; [split|].
  - exact Hnd.
  - simpl. rewrite length_insert. exact Hlt.
  - unfold deref. cbn [refs]. apply list_eq. intros j.
    rewrite list_lookup_fmap.
    destruct (decide (j = n)) as [->|Hj].
    + rewrite Hr, list_lookup_insert_eq by (rewrite length_map; assumption).
      simpl. unfold at_ref. simpl. rewrite list_lookup_insert_eq; [reflexivity|].
      rewrite Forall_forall in Hlt. apply Hlt. eapply list_elem_of_lookup_2.
      eassumption.
    + rewrite list_lookup_insert_ne by congruence. rewrite list_lookup_fmap.
      destruct (refs h !! j) as [r'|] eqn:Hr'; [|reflexivity]. simpl. f_equal.
      unfold at_ref. simpl. rewrite list_lookup_insert_ne; [reflexivity|].
      intros ->. apply Hj. eapply NoDup_lookup; eassumption.
Qed.

Lemma remove_separate h n :
  separate h ->
  separate (remove h n) /\ deref (remove h n) = base.delete n (deref h).
Proof.
  intros [Hnd Hlt]. split; [split|].
  - simpl. eapply sublist_NoDup; [exact Hnd|apply sublist_delete].
  - simpl. rewrite delete_take_drop. apply Forall_app. split.
    + apply Forall_take. exact Hlt.
    + apply Forall_drop. exact Hlt.
  - unfold deref, remove. simpl. rewrite !delete_take_drop, map_app.
    rewrite <- fmap_take, <- fmap_drop. reflexivity.
Qed.

(** The statements of the handlers on the values are the statements of
    Python on the references. *)
Lemma append_alloc (h : objects) (x : value) :
  separate h -> append (VList (deref h)) x = Ok (VList (deref (alloc h x))).
Proof.
  intros Hs. simpl. rewrite (proj2 (alloc_separate h x Hs)). reflexivity.
Qed.

Lemma pop_remove (h : objects) (i : Z) (n : nat) :
  separate h ->
  norm_index (length (deref h)) i = Some n ->
  pop (VList (deref h)) i = Ok (VList (deref (remove h n))).
Proof.
  intros Hs Hn. simpl. rewrite Hn, (proj2 (remove_separate h n Hs)). reflexivity.
Qed.

Lemma update_item_in_place (h : objects) (i : Z) (n : nat) (o : value) f :
  separate h ->
  norm_index (length (deref h)) i = Some n ->
  deref h !! n = Some o ->
  update_item (VList (deref h)) i f
  = (o' ← f o; Ok (VList (deref (in_place h n o')))).
Proof.
  intros Hs Hn Ho. simpl. rewrite Hn, Ho.
  destruct (f o) as [o'|e]; simpl; [|reflexivity].
  rewrite (proj2 (in_place_separate h n o' Hs ltac:(
    apply lookup_lt_Some in Ho; unfold deref in Ho;
    rewrite length_map in Ho; exact Ho))).
  reflexivity.
Qed.

(** Two slots with one reference: a change in place shows in both, which
    the update of a list of values does not do.  [separate] is what rules
    this out. *)
Lemma shared_reference_differs (o o' : value) :
  let h := {| store := [o]; refs := [0%nat; 0%nat] |} in
  deref (in_place h 0 o') = [o'; o']
  /\ <[0%nat:=o']> (deref h) = [o'; o]
  /\ ~ separate h.
Proof.
  intros h. repeat split.
  intros [Hnd _]. simpl in Hnd. apply NoDup_cons in Hnd as [Hin _].
  apply Hin. left.
Qed.

End ObjectFacts.

(** ** Resizing *)

(** C7.  [change_size] opens the width dialog and then the height dialog,
    each a [getInt] with the bounds 200 and 800 and the current size as
    its start value.  A cancel at the width dialog ends the handler before
    the height dialog, a cancel at the height dialog ends it too, and both
    leave the state as it was.  With both confirmed the window has the
    entered width and height, which the dialogs keep within 200 and
    800. *)
Theorem change_size_prompts `{Host} (st : state) :
  (exists k1,
     change_size st = GetInt "修改宽度" "输入宽度:" (width st) 200 800 k1
     /\ (forall w, k1 (w, false) = Return st)
     /\ (forall w, exists k2,
           k1 (w, true) = GetInt "修改高度" "输入高度:" (height st) 200 800 k2
           /\ (forall h, k2 (h, false) = Return st)
           /\ (forall h, k2 (h, true) = Return (resize st w h))))
  /\ (forall w, run (change_size st) [AInt w false] = Some (Ok st, []))
  /\ (forall w h, run (change_size st) [AInt w true; AInt h false] = Some (Ok st, []))
  /\ (forall w h,
        run (change_size st) [AInt w true; AInt h true]
        = Some (Ok (resize st w h), [])
        /\ width (resize st w h) = w /\ height (resize st w h) = h
        /\ todos (resize st w h) = todos st)
  /\ (forall w h,
        honours (change_size st) [AInt w true; AInt h true] ->
        200 <= width (resize st w h) <= 800
        /\ 200 <= height (resize st w h) <= 800).
Proof.
  split; [|split; [|split; [|split]]].
  - eexists. split; [reflexivity|]. split; [reflexivity|].
    intros w. eexists. split; [reflexivity|]. split; reflexivity.
  - reflexivity.
  - reflexivity.
  - intros w h. repeat split; reflexivity.
  - intros w h (Hw & Hh & _). simpl. split; [apply Hw|apply Hh]; reflexivity.
Qed.

Lemma change_size_prompts_witness :
  honours (change_size example_state) [AInt 640 true; AInt 480 true]
  /\ 200 <= width (resize example_state 640 480) <= 800
  /\ 200 <= height (resize example_state 640 480) <= 800.
Proof.
  assert (Hh : honours (change_size example_state) [AInt 640 true; AInt 480 true]).
  { simpl. repeat split; lia. }
  split; [exact Hh|].
  exact (proj2 (proj2 (proj2 (proj2 (change_size_prompts example_state))))
           640 480 Hh).
Defined.

(** ** The encoder and the decoder *)
Section Codec.
Context `{Host}.

(** Induction on values, through the lists and dicts. *)
Lemma value_ind' (P : value -> Prop) :
  P VNone ->
  (forall b, P (VBool b)) ->
  (forall n, P (VInt n)) ->
  (forall f, P (VFloat f)) ->
  (forall s, P (VStr s)) ->
  (forall l, Forall P l -> P (VList l)) ->
  (forall d, Forall (fun kv => P (snd kv)) d -> P (VDict d)) ->
  forall v, P v.
Proof.
  intros HN HB HI HF HS HL HD.
  fix IH 1. intros [| b | n | f | s | l | d].
  - exact HN.
  - apply HB.
  - apply HI.
  - apply HF.
  - apply HS.
  - apply HL. induction l as [|v l IHl]; constructor; [apply IH|exact IHl].
  - apply HD. induction d as [|[k v] d IHd]; constructor; [apply IH|exact IHd].
Qed.

Lemma plain_impl (ok ok' : Z -> Prop) (v : value) :
  (forall c, ok c -> ok' c) -> plain ok v -> plain ok' v.
Proof.
  intros Himp. induction v as [| | | | |l IHl|d IHd] using value_ind';
    intros Hp;
    inversion Hp as [| | |s' Hs|l' Hl|d' Hnd Hks Hvs]; subst.
  - constructor.
  - constructor.
  - constructor.
  - constructor. eapply Forall_impl; eauto.
  - constructor. rewrite Forall_forall in *. auto.
  - constructor.
    + assumption.
    + eapply Forall_impl; [exact Hks|]. intros kv Hk. simpl in Hk.
      exact (Forall_impl _ _ _ Hk Himp).
    + rewrite Forall_forall in *. auto.
Qed.

Lemma atom_text_iterencode (v : value) (a : pystr) (level : nat) :
  atom_text v = Some a -> iterencode v level = [a].
Proof.
  destruct v as [| [|] | | | | |]; simpl; intros [= <-]; reflexivity.
Qed.

Lemma concat_list_chunks (level : nat) (first : bool) (l : list value) :
  concat (list_chunks (fun v => iterencode v level) level first l)
  = items_text level first l.
Proof.
  revert first. induction l as [|v l IH]; intros first; simpl; [reflexivity|].
  rewrite concat_app, IH. unfold text.
  destruct (atom_text v) as [a|] eqn:Ha.
  - rewrite (atom_text_iterencode _ _ level Ha). simpl.
    rewrite app_nil_r, <- !app_assoc. reflexivity.
  - simpl. rewrite <- !app_assoc. reflexivity.
Qed.

Lemma concat_dict_chunks (level : nat) (first : bool) (d : list (pystr * value)) :
  concat (dict_chunks (fun v => iterencode v level) level first d)
  = entries_text level first d.
Proof.
  revert first. induction d as [|[k v] d IH]; intros first; [reflexivity|].
  cbn [dict_chunks entries_text]. unfold text.
  rewrite !concat_app, IH.
  destruct (atom_text v) as [a|] eqn:Ha.
  - rewrite (atom_text_iterencode _ _ level Ha).
    destruct first; simpl; rewrite ?app_nil_r, <- ?app_assoc; reflexivity.
  - destruct first; simpl; rewrite ?app_nil_r, <- ?app_assoc; reflexivity.
Qed.

Lemma text_list (l : list value) (level : nat) :
  l <> [] ->
  text (VList l) level
  = items_text (S level) true l ++ newline_indent level ++ [93].
Proof.
  intros Hne. unfold text. destruct l as [|v l]; [congruence|].
  cbn [iterencode]. rewrite concat_app, concat_list_chunks. simpl.
  rewrite ?app_nil_r. reflexivity.
Qed.

Lemma text_dict (d : list (pystr * value)) (level : nat) :
  d <> [] ->
  text (VDict d) level
  = 123 :: newline_indent (S level)
    ++ entries_text (S level) true d ++ newline_indent level ++ [125].
Proof.
  intros Hne. unfold text. destruct d as [|kv d]; [congruence|].
  cbn [iterencode]. cbn [app concat].
  rewrite concat_app, concat_dict_chunks. simpl.
  rewrite ?app_nil_r. reflexivity.
Qed.

End Codec.

(** ** Scanning what the encoder wrote *)
Section Scanning.
Context `{Host}.

Lemma newline_indent_ws (level : nat) :
  Forall (fun c => is_ws c = true) (newline_indent level).
Proof.
  unfold newline_indent. constructor; [reflexivity|].
  induction (2 * level)%nat; simpl; constructor; [reflexivity|assumption].
Qed.

Lemma skip_ws_app (ws s : pystr) :
  Forall (fun c => is_ws c = true) ws -> skip_ws (ws ++ s) = skip_ws s.
Proof.
  induction 1 as [|c ws Hc _ IH]; simpl; [reflexivity|].
  rewrite Hc. exact IH.
Qed.

Lemma skip_ws_head (s : pystr) : value_head s -> skip_ws s = s.
Proof.
  destruct s as [|c s]; simpl; [tauto|]. intros (-> & _). reflexivity.
Qed.

Lemma skip_ws_cons_ws (c : Z) (s : pystr) :
  is_ws c = true -> skip_ws (c :: s) = skip_ws s.
Proof. intros Hc. simpl. rewrite Hc. reflexivity. Qed.

Lemma skip_ws_cons_other (c : Z) (s : pystr) :
  is_ws c = false -> skip_ws (c :: s) = c :: s.
Proof. intros Hc. simpl. rewrite Hc. reflexivity. Qed.

Lemma skip_ws_indent (level : nat) (s : pystr) :
  skip_ws (newline_indent level ++ s) = skip_ws s.
Proof. apply skip_ws_app, newline_indent_ws. Qed.


Lemma value_head_app (s r : pystr) : value_head s -> value_head (s ++ r).
Proof. destruct s; simpl; tauto. Qed.

(** *** Strings *)

Lemma cons_char_Ok c str rest :
  cons_char c (Ok (str, rest)) = Ok (c :: str, rest).
Proof. reflexivity. Qed.

(** A [\uXXXX] escape of a code point below the surrogates. *)
Lemma scanstring_u (h1 h2 h3 h4 uni : Z) (s3 : pystr) :
  hex4 h1 h2 h3 h4 = Some uni ->
  uni < 0xD800 ->
  scanstring (92 :: 117 :: h1 :: h2 :: h3 :: h4 :: s3)
  = cons_char uni (scanstring s3).
Proof.
  intros Hh Hu.
  change (scanstring (92 :: 117 :: h1 :: h2 :: h3 :: h4 :: s3))
    with (match hex4 h1 h2 h3 h4 with
          | None => Raise JSONDecodeError
          | Some uni =>
              match s3 with
              | b :: u :: g1 :: g2 :: g3 :: g4 :: s4 =>
                  if (0xD800 <=? uni) && (uni <=? 0xDBFF)
                     && (b =? 92) && (u =? 117) then
                    match hex4 g1 g2 g3 g4 with
                    | None => Raise JSONDecodeError
                    | Some uni2 =>
                        if (0xDC00 <=? uni2) && (uni2 <=? 0xDFFF) then
                          cons_char
                            (0x10000 +
                             Z.lor (Z.shiftl (uni - 0xD800) 10) (uni2 - 0xDC00))
                            (scanstring s4)
                        else cons_char uni (scanstring s3)
                    end
                  else cons_char uni (scanstring s3)
              | _ => cons_char uni (scanstring s3)
              end
          end).
  rewrite Hh.
  assert (Hlo : (0xD800 <=? uni) = false) by (apply Z.leb_gt; assumption).
  destruct s3 as [|b [|u [|g1 [|g2 [|g3 [|g4 s4]]]]]]; try reflexivity.
  rewrite Hlo. reflexivity.
Qed.

Lemma hex_val_digit (d : Z) : 0 <= d < 16 -> hex_val (hex_digit d) = Some d.
Proof.
  intros Hd.
  assert (Hcases : d = 0 \/ d = 1 \/ d = 2 \/ d = 3 \/ d = 4 \/ d = 5 \/ d = 6
                   \/ d = 7 \/ d = 8 \/ d = 9 \/ d = 10 \/ d = 11 \/ d = 12
                   \/ d = 13 \/ d = 14 \/ d = 15) by lia.
  repeat (destruct Hcases as [->|Hcases]; [reflexivity|]).
  subst. reflexivity.
Qed.

(** One character through [escape_char] and back. *)
Lemma scanstring_escape (c : Z) (s : pystr) :
  0 <= c ->
  scanstring (escape_char c ++ s) = cons_char c (scanstring s).
Proof.
  intros Hc. unfold escape_char.
  destruct (Z.eqb_spec c 92) as [->|N92]; [reflexivity|].
  destruct (Z.eqb_spec c 34) as [->|N34]; [reflexivity|].
  destruct (Z.eqb_spec c 8) as [->|N8]; [reflexivity|].
  destruct (Z.eqb_spec c 12) as [->|N12]; [reflexivity|].
  destruct (Z.eqb_spec c 10) as [->|N10]; [reflexivity|].
  destruct (Z.eqb_spec c 13) as [->|N13]; [reflexivity|].
  destruct (Z.eqb_spec c 9) as [->|N9]; [reflexivity|].
  destruct (Z.leb_spec 0 c) as [_|?]; [|lia].
  destruct (Z.ltb_spec c 32) as [Hlt|Hge]; cbn [andb].
  - change ((lit "\u00" ++ [hex_digit (c / 16); hex_digit (c mod 16)]) ++ s)
      with (92 :: 117 :: 48 :: 48 :: hex_digit (c / 16) :: hex_digit (c mod 16) :: s).
    apply scanstring_u; [|lia].
    unfold hex4. change (hex_val 48) with (Some 0).
    rewrite !hex_val_digit by (Z.div_mod_to_equations; lia).
    f_equal. Z.div_mod_to_equations. lia.
  - cbn [app scanstring].
    rewrite (proj2 (Z.eqb_neq c 34)), (proj2 (Z.eqb_neq c 92)) by assumption.
    rewrite (proj2 (Z.ltb_ge c 32)) by assumption. reflexivity.
Qed.

Lemma scanstring_escaped (s rest : pystr) :
  Forall is_codepoint s ->
  scanstring (concat (map escape_char s) ++ 34 :: rest) = Ok (s, rest).
Proof.
  induction 1 as [|c s Hc _ IH]; [reflexivity|].
  cbn [map concat]. rewrite <- app_assoc.
  rewrite scanstring_escape by apply Hc. rewrite IH. reflexivity.
Qed.

(** [scan_once] on an encoded string. *)
Lemma scan_once_basestring (fuel : nat) (s rest : pystr) :
  Forall is_codepoint s ->
  scan_once (S fuel) (encode_basestring s ++ rest) = Done (VStr s) rest.
Proof.
  intros Hs. unfold encode_basestring.
  rewrite <- !app_assoc. cbn [app scan_once]. 
  change (34 =? 34) with true. cbn iota.
  change ([34] ++ rest) with (34 :: rest).
  rewrite scanstring_escaped by assumption. reflexivity.
Qed.

End Scanning.

(** *** Integers *)
Section ScanningIntegers.
Context `{Host}.

Lemma uint_chars_digits (u : Decimal.uint) :
  Forall (fun c => is_digit c = true) (uint_chars u).
Proof. induction u; simpl; constructor; auto. Qed.

Lemma chars_uint_chars (u : Decimal.uint) : chars_uint (uint_chars u) = u.
Proof. induction u; simpl; rewrite ?IHu; reflexivity. Qed.

Lemma span_digits_app (ds rest : pystr) :
  Forall (fun c => is_digit c = true) ds ->
  delimited rest ->
  span_digits (ds ++ rest) = (ds, rest).
Proof.
  intros Hds Hrest. induction Hds as [|c ds Hc _ IH]; simpl.
  - destruct rest as [|c rest]; [reflexivity|].
    simpl. simpl in Hrest. destruct Hrest as [-> | ->]; reflexivity.
  - rewrite Hc, IH. reflexivity.
Qed.

Lemma nzhead_not_D0 (d d' : Decimal.uint) : Decimal.nzhead d <> Decimal.D0 d'.
Proof. induction d; simpl; try discriminate. assumption. Qed.

(** The decimal digits of a positive number start with a digit other
    than zero. *)
Lemma to_uint_head (p : positive) :
  exists c ds, uint_chars (Pos.to_uint p) = c :: ds
               /\ is_digit c = true /\ c <> 48.
Proof.
  pose proof (DecimalN.Unsigned.to_of (Pos.to_uint p)) as Hnorm.
  change (N.of_uint (Pos.to_uint p)) with (Pos.of_uint (Pos.to_uint p)) in Hnorm.
  rewrite DecimalPos.Unsigned.of_to in Hnorm. cbn [N.to_uint] in Hnorm.
  pose proof (DecimalPos.Unsigned.to_uint_nonnil p) as Hnil.
  pose proof (DecimalPos.Unsigned.to_uint_nonzero p) as Hzero.
  destruct (Pos.to_uint p) as [|d|d|d|d|d|d|d|d|d|d] eqn:Hu;
    try (eexists _, _; split; [reflexivity|split; [reflexivity|discriminate]]).
  - congruence.
  - exfalso. unfold Decimal.unorm in Hnorm. cbn [Decimal.nzhead] in Hnorm.
    destruct (Decimal.nzhead d) eqn:Hd;
      try (symmetry in Hnorm; revert Hnorm; rewrite <- Hd; apply nzhead_not_D0).
    apply Hzero. injection Hnorm as <-. reflexivity.
Qed.

Lemma match_int_part_pos (p : positive) (rest : pystr) :
  delimited rest ->
  match_int_part (uint_chars (Pos.to_uint p) ++ rest)
  = Some (uint_chars (Pos.to_uint p), rest).
Proof.
  intros Hrest.
  destruct (to_uint_head p) as (c & ds & Heq & Hc & Hne).
  pose proof (uint_chars_digits (Pos.to_uint p)) as Hds.
  rewrite Heq in *. inversion Hds as [|? ? _ Hds']; subst.
  cbn [app match_int_part].
  rewrite (proj2 (Z.eqb_neq c 48)) by assumption. rewrite Hc.
  rewrite span_digits_app by assumption. reflexivity.
Qed.

Lemma match_frac_delimited (rest : pystr) :
  delimited rest -> match_frac rest = ([], rest).
Proof.
  destruct rest as [|c rest]; [reflexivity|].
  simpl. intros [-> | ->]; reflexivity.
Qed.

Lemma match_exp_delimited (rest : pystr) :
  delimited rest -> match_exp rest = ([], rest).
Proof.
  destruct rest as [|c rest]; [reflexivity|].
  simpl. intros [-> | ->]; reflexivity.
Qed.

Lemma match_integer_unsigned (c : Z) (s : pystr) :
  c <> 45 -> match_integer (c :: s) = match_int_part (c :: s).
Proof.
  intros Hc. unfold match_integer.
  rewrite (proj2 (Z.eqb_neq c 45)) by assumption. reflexivity.
Qed.

Lemma parse_int_unsigned (c : Z) (s : pystr) :
  c <> 45 -> parse_int (c :: s) = Z.of_int (Decimal.Pos (chars_uint (c :: s))).
Proof.
  intros Hc. unfold parse_int.
  rewrite (proj2 (Z.eqb_neq c 45)) by assumption. reflexivity.
Qed.

Lemma match_integer_repr (n : Z) (rest : pystr) :
  delimited rest ->
  match_integer (int_repr n ++ rest) = Some (int_repr n, rest)
  /\ parse_int (int_repr n) = n.
Proof.
  intros Hrest. unfold int_repr.
  pose proof (DecimalZ.of_to n) as Hn.
  destruct n as [|p|p]; cbn [Z.to_int] in *.
  - split; reflexivity.
  - destruct (to_uint_head p) as (c & ds & Heq & Hc & Hne).
    assert (Hm : c <> 45) by (intros ->; discriminate).
    pose proof (match_int_part_pos p rest Hrest) as Hpart.
    pose proof (chars_uint_chars (Pos.to_uint p)) as Hchars.
    rewrite Heq in *. cbn [app] in *.
    rewrite match_integer_unsigned, parse_int_unsigned by assumption.
    rewrite Hchars. auto.
  - split.
    + cbn [app match_integer]. change (45 =? 45) with true. cbn iota.
      rewrite match_int_part_pos by assumption. reflexivity.
    + cbn [parse_int]. change (45 =? 45) with true. cbn iota.
      rewrite chars_uint_chars. exact Hn.
Qed.

Lemma scan_number_int (n : Z) (rest : pystr) :
  delimited rest ->
  scan_number (int_repr n ++ rest) = Some (VInt n, rest).
Proof.
  intros Hrest. unfold scan_number.
  destruct (match_integer_repr n rest Hrest) as [-> Hp].
  rewrite (match_frac_delimited _ Hrest), (match_exp_delimited _ Hrest).
  rewrite Hp. reflexivity.
Qed.

Lemma int_repr_head (n : Z) :
  exists c ds, int_repr n = c :: ds /\ (is_digit c = true \/ c = 45).
Proof.
  unfold int_repr. destruct n as [|p|p]; cbn [Z.to_int].
  - eexists _, _. split; [reflexivity|]. left. reflexivity.
  - destruct (to_uint_head p) as (c & ds & Heq & Hc & Hne).
    exists c, ds. auto.
  - eexists _, _. split; [reflexivity|]. right. reflexivity.
Qed.

Lemma scan_once_int (fuel : nat) (n : Z) (rest : pystr) :
  delimited rest ->
  scan_once (S fuel) (int_repr n ++ rest) = Done (VInt n) rest.
Proof.
  intros Hrest.
  pose proof (scan_number_int n rest Hrest) as Hnum.
  destruct (int_repr_head n) as (c & ds & Heq & Hc).
  rewrite Heq in *. cbn [app] in *. cbn [scan_once].
  assert (Hcases : (c =? 34) = false /\ (c =? 123) = false /\ (c =? 91) = false
                   /\ (110 =? c) = false /\ (116 =? c) = false
                   /\ (102 =? c) = false).
  { unfold is_digit in Hc.
    repeat split; apply Z.eqb_neq; intros E; subst c; destruct Hc; discriminate. }
  destruct Hcases as (-> & -> & -> & Hn & Ht & Hf).
  change (lit "null") with (110 :: lit "ull").
  change (lit "true") with (116 :: lit "rue").
  change (lit "false") with (102 :: lit "alse").
  cbn [strip_prefix]. rewrite Hn, Ht, Hf, Hnum. reflexivity.
Qed.

End ScanningIntegers.

(** *** Lists and dicts *)
Section ScanningContainers.
Context `{Host}.

Lemma dict_set_fresh k v (d : list (pystr * value)) :
  k ∉ map fst d -> dict_set k v d = d ++ [(k, v)].
Proof.
  induction d as [|[k' v'] d IH]; simpl; intros Hk; [reflexivity|].
  rewrite not_elem_of_cons in Hk. destruct Hk as [Hne Hk].
  rewrite decide_False by congruence. rewrite IH by assumption. reflexivity.
Qed.

(** [dict(pairs)] of pairs with distinct keys is the pairs themselves. *)
Lemma dict_of_pairs_NoDup (d : list (pystr * value)) :
  NoDup (map fst d) -> dict_of_pairs d = d.
Proof.
  unfold dict_of_pairs.
  enough (Hgen : forall acc,
             NoDup (map fst (acc ++ d)) ->
             fold_left (fun d kv => dict_set (fst kv) (snd kv) d) d acc = acc ++ d).
  { intros Hnd. apply (Hgen []). exact Hnd. }
  induction d as [|[k v] d IH]; intros acc Hnd; simpl.
  - rewrite app_nil_r. reflexivity.
  - rewrite dict_set_fresh.
    + rewrite IH; rewrite <- app_assoc; [reflexivity|exact Hnd].
    + rewrite map_app in Hnd. apply NoDup_app in Hnd as (_ & Hdis & _).
      intros Hin. apply (Hdis k Hin). simpl. left.
Qed.

Lemma delimited_indent (level : nat) (s : pystr) :
  delimited (newline_indent level ++ s).
Proof. right. reflexivity. Qed.

Lemma delimited_comma (s : pystr) : delimited (44 :: s).
Proof. left. reflexivity. Qed.

Lemma array_loop_S (scan_once : pystr -> scan value) n s values :
  array_loop scan_once (S n) s values
  = match scan_once s with
    | Done v r =>
        match skip_ws r with
        | c :: r' =>
            if c =? 93 then Done (VList (values ++ [v])) r'
            else if c =? 44 then
              array_loop scan_once n (skip_ws r') (values ++ [v])
            else Error JSONDecodeError
        | [] => Error JSONDecodeError
        end
    | Error e => Error e
    | Starved => Starved
    end.
Proof. reflexivity. Qed.

(** The loop of [JSONArray] on the items of a list, from an item on. *)
Lemma array_loop_items (scan_once : pystr -> scan value) (level outer : nat)
    (l : list value) :
  forall (v : value) (n : nat) (values : list value) (rest : pystr),
    Forall (fun v => value_head (text v level)
                     /\ forall r, delimited r ->
                                  scan_once (text v level ++ r) = Done v r)
           (v :: l) ->
    (length l < n)%nat ->
    array_loop scan_once n
      (text v level ++ items_text level false l
       ++ newline_indent outer ++ 93 :: rest) values
    = Done (VList (values ++ v :: l)) rest.
Proof.
  induction l as [|v2 l IH]; intros v n values rest Hall Hn;
    destruct n as [|n]; try (simpl in Hn; lia);
    inversion Hall as [|? ? [Hhead Hscan] Hall']; subst;
    rewrite array_loop_S.
  - cbn [items_text app]. rewrite Hscan by apply delimited_indent.
    rewrite skip_ws_indent. reflexivity.
  - cbn [items_text]. rewrite <- !app_assoc.
    rewrite Hscan by apply delimited_comma. cbn [app skip_ws].
    change (is_ws 44) with false. cbn iota.
    change (44 =? 93) with false. change (44 =? 44) with true. cbn iota.
    rewrite skip_ws_indent.
    inversion Hall' as [|? ? [Hhead2 _] _]; subst.
    rewrite skip_ws_head by (apply value_head_app; assumption).
    rewrite IH; [|assumption|simpl in Hn; lia].
    rewrite <- app_assoc. reflexivity.
Qed.

Lemma object_loop_S (scan_once : pystr -> scan value) n s pairs :
  object_loop scan_once (S n) s pairs
  = match scanstring s with
    | Raise e => Error e
    | Ok (key, r) =>
        match skip_ws r with
        | c :: r1 =>
            if c =? 58 then
              match scan_once (skip_ws r1) with
              | Done v r2 =>
                  match skip_ws r2 with
                  | d :: r3 =>
                      if d =? 125 then
                        Done (VDict (dict_of_pairs (pairs ++ [(key, v)]))) r3
                      else if d =? 44 then
                        match skip_ws r3 with
                        | q :: r4 =>
                            if q =? 34 then
                              object_loop scan_once n r4 (pairs ++ [(key, v)])
                            else Error JSONDecodeError
                        | [] => Error JSONDecodeError
                        end
                      else Error JSONDecodeError
                  | [] => Error JSONDecodeError
                  end
              | Error e => Error e
              | Starved => Starved
              end
            else Error JSONDecodeError
        | [] => Error JSONDecodeError
        end
    end.
Proof. reflexivity. Qed.

(** The loop of [JSONObject] on the entries of a dict, from the key of
    an entry on. *)
Lemma object_loop_entries (scan_once : pystr -> scan value) (level outer : nat)
    (d : list (pystr * value)) :
  forall (k : pystr) (v : value) (n : nat) (pairs : list (pystr * value))
         (rest : pystr),
    Forall (fun kv => Forall is_codepoint (fst kv)
                      /\ value_head (text (snd kv) level)
                      /\ forall r, delimited r ->
                           scan_once (text (snd kv) level ++ r) = Done (snd kv) r)
           ((k, v) :: d) ->
    (length d < n)%nat ->
    object_loop scan_once n
      (concat (map escape_char k) ++ 34 :: 58 :: 32 :: text v level
       ++ entries_text level false d ++ newline_indent outer ++ 125 :: rest)
      pairs
    = Done (VDict (dict_of_pairs (pairs ++ (k, v) :: d))) rest.
Proof.
  induction d as [|[k2 v2] d IH]; intros k v n pairs rest Hall Hn;
    destruct n as [|n]; try (simpl in Hn; lia);
    inversion Hall as [|? ? (Hkey & Hhead & Hscan) Hall']; subst;
    cbn [fst snd] in *;
    rewrite object_loop_S, scanstring_escaped by assumption;
    rewrite (skip_ws_cons_other 58) by reflexivity;
    change (58 =? 58) with true; cbn iota;
    rewrite (skip_ws_cons_ws 32) by reflexivity.
  - cbn [entries_text app].
    rewrite skip_ws_head by (apply value_head_app; assumption).
    rewrite Hscan by apply delimited_indent.
    rewrite skip_ws_indent. reflexivity.
  - cbn [entries_text]. rewrite <- !app_assoc.
    rewrite skip_ws_head by (apply value_head_app; assumption).
    rewrite Hscan by apply delimited_comma.
    cbn [app]. rewrite (skip_ws_cons_other 44) by reflexivity.
    change (44 =? 125) with false. change (44 =? 44) with true. cbn iota.
    rewrite skip_ws_indent. unfold encode_basestring.
    rewrite <- !app_assoc. cbn [app].
    rewrite (skip_ws_cons_other 34) by reflexivity.
    change (34 =? 34) with true. cbn iota.
    rewrite IH; [|assumption|simpl in Hn; lia].
    rewrite <- app_assoc. reflexivity.
Qed.

End ScanningContainers.

(** *** Every plain value *)
Section ScanningValues.
Context `{Host}.

Lemma text_head (v : value) (level : nat) :
  plain is_codepoint v -> value_head (text v level).
Proof.
  intros Hp. destruct v as [| [|] | n | f | s | [|v l] | [|[k v] d]];
    try (inversion Hp; fail);
    try (unfold text; simpl; repeat split; (reflexivity || discriminate)).
  unfold text. cbn [iterencode concat]. rewrite app_nil_r.
  destruct (int_repr_head n) as (c & ds & -> & Hc). unfold is_digit in Hc.
  simpl. repeat split.
  - destruct Hc as [Hc | ->]; [|reflexivity].
    unfold is_ws. apply andb_prop in Hc as [H1 H2].
    apply Z.leb_le in H1. apply Z.leb_le in H2.
    rewrite !(proj2 (Z.eqb_neq c _)) by lia. reflexivity.
  - intros ->. destruct Hc; discriminate.
  - intros ->. destruct Hc; discriminate.
  - rewrite text_list by discriminate. simpl.
    repeat split; (reflexivity || discriminate).
Qed.

Lemma newline_indent_length (level : nat) :
  length (newline_indent level) = S (2 * level).
Proof. unfold newline_indent. cbn [length]. rewrite repeat_length. reflexivity. Qed.

Lemma items_text_length (level : nat) (first : bool) (l : list value) :
  (length l <= length (items_text level first l))%nat
  /\ Forall (fun v => (length (text v level) + 2
                       <= length (items_text level first l))%nat) l.
Proof.
  revert first. induction l as [|v l IH]; intros first.
  - split; [simpl; lia|constructor].
  - destruct (IH false) as [Hlen Hall].
    cbn [items_text]. rewrite !length_app, newline_indent_length.
    assert (Hb : length (if first then [91] else [44]) = 1%nat)
      by (destruct first; reflexivity).
    rewrite Hb. split.
    + cbn [length]. lia.
    + constructor.
      * lia.
      * eapply Forall_impl; [exact Hall|]. intros x Hx. simpl in Hx. lia.
Qed.

Lemma entries_text_length (level : nat) (first : bool) (d : list (pystr * value)) :
  (length d <= length (entries_text level first d))%nat
  /\ Forall (fun kv => (length (text (snd kv) level) + 2
                        <= length (entries_text level first d))%nat) d.
Proof.
  revert first. induction d as [|[k v] d IH]; intros first.
  - split; [simpl; lia|constructor].
  - destruct (IH false) as [Hlen Hall].
    cbn [entries_text]. rewrite !length_app. cbn [length snd]. split.
    + lia.
    + constructor.
      * cbn [snd]. lia.
      * eapply Forall_impl; [exact Hall|]. intros x Hx. simpl in Hx. lia.
Qed.

(** The scanner reads back the text of a plain value, whatever follows
    it in the encoder's output, when its budget exceeds the length of that
    text. *)
Lemma scan_once_text (v : value) :
  plain is_codepoint v ->
  forall (level fuel : nat) (rest : pystr),
    (length (text v level) < fuel)%nat ->
    delimited rest ->
    scan_once fuel (text v level ++ rest) = Done v rest.
Proof.
  induction v as [| b | n | f | s | l IHl | d IHd] using value_ind';
    intros Hp level fuel rest Hfuel Hrest;
    (destruct fuel as [|fuel]; [lia|]).
  - reflexivity.
  - destruct b; reflexivity.
  - unfold text. cbn [iterencode concat]. rewrite app_nil_r.
    apply scan_once_int. assumption.
  - inversion Hp.
  - unfold text. cbn [iterencode concat]. rewrite app_nil_r.
    apply scan_once_basestring. inversion Hp. assumption.
  - inversion Hp as [| | | |l' Hpl|]; subst.
    destruct l as [|v l]; [reflexivity|].
    rewrite text_list in * by discriminate.
    cbn [items_text] in *. rewrite <- !app_assoc. cbn [app scan_once].
    change (91 =? 34) with false. change (91 =? 123) with false.
    change (91 =? 91) with true. cbn iota.
    unfold JSONArray. rewrite skip_ws_indent.
    assert (Hhead : value_head (text v (S level))).
    { apply text_head. inversion Hpl. assumption. }
    rewrite skip_ws_head by (apply value_head_app; assumption).
    destruct (text v (S level)) as [|c tv] eqn:Htv; [destruct Hhead|].
    cbn [app]. destruct Hhead as (_ & Hc93 & _).
    rewrite (proj2 (Z.eqb_neq c 93)) by assumption.
    change (c :: tv ++ ?x) with ((c :: tv) ++ x). rewrite <- Htv.
    change (?a ++ [93] ++ rest) with (a ++ 93 :: rest).
    rewrite !length_app in Hfuel. cbn [length] in Hfuel.
    destruct (items_text_length (S level) true (v :: l)) as [Hlen Hall].
    cbn [items_text] in Hlen, Hall. rewrite !length_app in Hlen, Hall.
    cbn [length] in Hlen, Hall. rewrite Htv in Hlen, Hall. cbn [length] in Hlen, Hall.
    apply (array_loop_items (scan_once fuel) (S level) level l v fuel [] rest);
      [|lia].
    rewrite Forall_forall in *. intros x Hx. split.
    + apply text_head. auto.
    + intros r Hr. apply IHl; auto.
      specialize (Hall x Hx). cbn beta in Hall. lia.
  - inversion Hp as [| | | | |d' Hnd Hks Hvs]; subst.
    destruct d as [|[k v] d]; [reflexivity|].
    rewrite text_dict in * by discriminate.
    cbn [entries_text] in *. unfold encode_basestring in *.
    rewrite <- !app_assoc. cbn [app scan_once].
    change (123 =? 34) with false. change (123 =? 123) with true. cbn iota.
    unfold JSONObject. repeat (rewrite <- !app_assoc; cbn [app]).
    rewrite skip_ws_indent.
    rewrite (skip_ws_cons_other 34) by reflexivity.
    change (34 =? 125) with false. change (34 =? 34) with true. cbn iota.
    repeat (progress (cbn [length app] in Hfuel) || rewrite length_app in Hfuel).
    destruct (entries_text_length (S level) true ((k, v) :: d)) as [Hlen Hall].
    cbn [entries_text app] in Hlen, Hall. unfold encode_basestring in Hlen, Hall.
    repeat (progress (cbn [length app] in Hlen, Hall)
            || rewrite length_app in Hlen, Hall).
    rewrite (object_loop_entries (scan_once fuel) (S level) level d k v fuel [] rest).
    + cbn [app]. rewrite dict_of_pairs_NoDup by assumption. reflexivity.
    + rewrite Forall_forall in *. intros x Hx. split; [auto|]. split.
      * apply text_head. auto.
      * intros r Hr. apply IHd; auto.
        specialize (Hall x Hx). cbn beta in Hall. lia.
    + lia.
Qed.

End ScanningValues.

(** ** [loads] after [dumps] *)
Section LoadsDumps.
Context `{Host}.

Lemma json_dumps_text (v : value) : json_dumps v = text v 0.
Proof. reflexivity. Qed.

(** [json.loads(json.dumps(v, ensure_ascii=False, indent=2))] is [v], for
    every plain value [v]. *)
Lemma json_loads_dumps (v : value) :
  plain is_codepoint v -> json_loads (json_dumps v) = Ok v.
Proof.
  intros Hp. rewrite json_dumps_text.
  pose proof (text_head v 0 Hp) as Hhead.
  pose proof (scan_once_text v Hp 0 (S (length (text v 0))) []
                (Nat.lt_succ_diag_r _) I) as Hscan.
  rewrite app_nil_r in Hscan.
  unfold json_loads. rewrite (skip_ws_head _ Hhead), Hscan.
  destruct (text v 0) as [|c r]; [destruct Hhead|].
  destruct Hhead as (_ & _ & Hbom).
  rewrite (proj2 (Z.eqb_neq c 0xFEFF)) by assumption. reflexivity.
Qed.

End LoadsDumps.

(** ** The text layer *)
Section TextLayer.
Context `{Host}.

Lemma Z_of_byte_of_Z (z : Z) : 0 <= z < 256 -> Z_of_byte (byte_of_Z z) = z.
Proof.
  intros Hz. unfold Z_of_byte, byte_of_Z.
  destruct (Byte.of_N (Z.to_N z)) as [b|] eqn:Hb.
  - apply Byte.to_of_N in Hb. rewrite Hb. lia.
  - apply Byte.of_N_None_iff in Hb. lia.
Qed.

Lemma cont_bits_byte (x : Z) :
  0 <= x < 64 -> cont_bits (byte_of_Z (0x80 + x)) = Some x.
Proof.
  intros Hx. unfold cont_bits. rewrite Z_of_byte_of_Z by lia.
  destruct (Z.leb_spec 0x80 (0x80 + x)); [|lia].
  destruct (Z.ltb_spec (0x80 + x) 0xC0); [|lia].
  simpl. f_equal. lia.
Qed.

(** One code point through the UTF-8 codec. *)
Lemma utf8_decode_char (c : Z) (bs rest : list byte) :
  utf8_encode_char c = Some bs ->
  utf8_decode (bs ++ rest) = cons c <$> utf8_decode rest.
Proof.
  unfold utf8_encode_char, is_surrogate.
  destruct (Z.ltb_spec c 0) as [?|H0]; [discriminate|].
  destruct (Z.ltb_spec c 0x80) as [H1|H1].
  { intros [= <-]. cbn [app utf8_decode]. rewrite Z_of_byte_of_Z by lia.
    rewrite (proj2 (Z.ltb_lt c 0x80)) by assumption. reflexivity. }
  destruct (Z.ltb_spec c 0x800) as [H2|H2].
  { intros [= <-]. cbn [app utf8_decode].
    rewrite Z_of_byte_of_Z by (Z.div_mod_to_equations; lia).
    rewrite cont_bits_byte by (Z.div_mod_to_equations; lia).
    destruct (Z.ltb_spec (0xC0 + c / 64) 0x80); [Z.div_mod_to_equations; lia|].
    destruct (Z.ltb_spec (0xC0 + c / 64) 0xC0); [Z.div_mod_to_equations; lia|].
    destruct (Z.ltb_spec (0xC0 + c / 64) 0xE0); [|Z.div_mod_to_equations; lia].
    replace ((0xC0 + c / 64 - 0xC0) * 64 + c mod 64) with c
      by (Z.div_mod_to_equations; lia).
    rewrite (proj2 (Z.leb_le 0x80 c)) by assumption. reflexivity. }
  destruct (Z.leb_spec 0xD800 c) as [H3|H3];
    destruct (Z.leb_spec c 0xDFFF) as [H4|H4]; cbn [andb]; try discriminate.
  - (* above the surrogates *)
    destruct (Z.ltb_spec c 0x10000) as [H5|H5].
    + intros [= <-]. cbn [app utf8_decode].
      rewrite Z_of_byte_of_Z by (Z.div_mod_to_equations; lia).
      rewrite !cont_bits_byte by (Z.div_mod_to_equations; lia).
      destruct (Z.ltb_spec (0xE0 + c / 4096) 0x80); [Z.div_mod_to_equations; lia|].
      destruct (Z.ltb_spec (0xE0 + c / 4096) 0xC0); [Z.div_mod_to_equations; lia|].
      destruct (Z.ltb_spec (0xE0 + c / 4096) 0xE0); [Z.div_mod_to_equations; lia|].
      destruct (Z.ltb_spec (0xE0 + c / 4096) 0xF0); [|Z.div_mod_to_equations; lia].
      replace (((0xE0 + c / 4096 - 0xE0) * 64 + (c / 64) mod 64) * 64 + c mod 64)
        with c by (Z.div_mod_to_equations; lia).
      unfold is_surrogate.
      rewrite (proj2 (Z.leb_le 0x800 c)) by assumption.
      rewrite (proj2 (Z.leb_gt c 0xDFFF)) by assumption.
      rewrite andb_false_r. reflexivity.
    + destruct (Z.leb_spec c 0x10FFFF) as [H6|H6]; [|discriminate].
      intros [= <-]. cbn [app utf8_decode].
      rewrite Z_of_byte_of_Z by (Z.div_mod_to_equations; lia).
      rewrite !cont_bits_byte by (Z.div_mod_to_equations; lia).
      destruct (Z.ltb_spec (0xF0 + c / 262144) 0x80); [Z.div_mod_to_equations; lia|].
      destruct (Z.ltb_spec (0xF0 + c / 262144) 0xC0); [Z.div_mod_to_equations; lia|].
      destruct (Z.ltb_spec (0xF0 + c / 262144) 0xE0); [Z.div_mod_to_equations; lia|].
      destruct (Z.ltb_spec (0xF0 + c / 262144) 0xF0); [Z.div_mod_to_equations; lia|].
      destruct (Z.ltb_spec (0xF0 + c / 262144) 0xF8); [|Z.div_mod_to_equations; lia].
      replace ((((0xF0 + c / 262144 - 0xF0) * 64 + (c / 4096) mod 64) * 64
                + (c / 64) mod 64) * 64 + c mod 64)
        with c by (Z.div_mod_to_equations; lia).
      rewrite (proj2 (Z.leb_le 0x10000 c)) by assumption.
      rewrite (proj2 (Z.leb_le c 0x10FFFF)) by assumption. reflexivity.
  - (* below the surrogates *)
    destruct (Z.ltb_spec c 0x10000) as [H5|H5]; [|lia].
    intros [= <-]. cbn [app utf8_decode].
    rewrite Z_of_byte_of_Z by (Z.div_mod_to_equations; lia).
    rewrite !cont_bits_byte by (Z.div_mod_to_equations; lia).
    destruct (Z.ltb_spec (0xE0 + c / 4096) 0x80); [Z.div_mod_to_equations; lia|].
    destruct (Z.ltb_spec (0xE0 + c / 4096) 0xC0); [Z.div_mod_to_equations; lia|].
    destruct (Z.ltb_spec (0xE0 + c / 4096) 0xE0); [Z.div_mod_to_equations; lia|].
    destruct (Z.ltb_spec (0xE0 + c / 4096) 0xF0); [|Z.div_mod_to_equations; lia].
    replace (((0xE0 + c / 4096 - 0xE0) * 64 + (c / 64) mod 64) * 64 + c mod 64)
      with c by (Z.div_mod_to_equations; lia).
    unfold is_surrogate.
    rewrite (proj2 (Z.leb_le 0x800 c)) by assumption.
    rewrite (proj2 (Z.leb_gt 0xD800 c)) by assumption. reflexivity.
  - lia.
Qed.

Lemma utf8_decode_encode (s : pystr) (bs : list byte) :
  utf8_encode s = Some bs -> utf8_decode bs = Some s.
Proof.
  revert bs. induction s as [|c s IH]; intros bs; simpl.
  - intros [= <-]. reflexivity.
  - destruct (utf8_encode_char c) as [cb|] eqn:Hc; [|discriminate].
    destruct (utf8_encode s) as [bs'|]; [|discriminate].
    intros [= <-]. rewrite (utf8_decode_char _ _ _ Hc), (IH _ eq_refl).
    reflexivity.
Qed.

End TextLayer.

(** ** What the encoder writes *)
Section Written.
Context `{Host}.

Lemma printable_ascii (c : Z) : 32 <= c < 128 -> printable c.
Proof.
  intros Hc. unfold printable, is_scalar, is_codepoint, is_surrogate.
  repeat split; lia.
Qed.

Lemma printable_lf : printable 10.
Proof. unfold printable, is_scalar, is_codepoint. repeat split; auto; lia. Qed.

Lemma hex_digit_ascii (d : Z) : 0 <= d < 16 -> 32 <= hex_digit d < 128.
Proof. intros Hd. unfold hex_digit. destruct (d <? 10); lia. Qed.

Ltac ascii_chars :=
  cbn; repeat (constructor; [apply printable_ascii; lia|]); constructor.

Lemma escape_char_printable (c : Z) :
  is_scalar c -> Forall printable (escape_char c).
Proof.
  intros Hc. unfold escape_char.
  destruct (Z.eqb_spec c 92); [ascii_chars|].
  destruct (Z.eqb_spec c 34); [ascii_chars|].
  destruct (Z.eqb_spec c 8); [ascii_chars|].
  destruct (Z.eqb_spec c 12); [ascii_chars|].
  destruct (Z.eqb_spec c 10); [ascii_chars|].
  destruct (Z.eqb_spec c 13); [ascii_chars|].
  destruct (Z.eqb_spec c 9); [ascii_chars|].
  destruct (Z.leb_spec 0 c); destruct (Z.ltb_spec c 32); cbn [andb].
  - change (lit "\u00") with [92; 117; 48; 48]. cbn [app].
    repeat (constructor; [apply printable_ascii; lia|]).
    repeat (constructor;
            [apply printable_ascii, hex_digit_ascii; Z.div_mod_to_equations; lia|]).
    constructor.
  - constructor; [|constructor]. split; [right; assumption|exact Hc].
  - destruct Hc as [[? ?] _]. lia.
  - destruct Hc as [[? ?] _]. lia.
Qed.

Lemma encode_basestring_printable (s : pystr) :
  Forall is_scalar s -> Forall printable (encode_basestring s).
Proof.
  intros Hs. unfold encode_basestring.
  rewrite !Forall_app. split; [|split].
  - ascii_chars.
  - induction Hs as [|c s Hc _ IH]; simpl; [constructor|].
    apply Forall_app. split; [apply escape_char_printable; assumption|exact IH].
  - ascii_chars.
Qed.

Lemma int_repr_printable (n : Z) : Forall printable (int_repr n).
Proof.
  assert (Hd : forall u, Forall printable (uint_chars u)).
  { intros u. eapply Forall_impl; [apply uint_chars_digits|].
    intros c Hc. unfold is_digit in Hc. apply andb_prop in Hc as [H1 H2].
    apply Z.leb_le in H1. apply Z.leb_le in H2. apply printable_ascii. lia. }
  unfold int_repr. destruct (Z.to_int n); [apply Hd|].
  constructor; [apply printable_ascii; lia|apply Hd].
Qed.

Lemma newline_indent_printable (level : nat) :
  Forall printable (newline_indent level).
Proof.
  unfold newline_indent. constructor; [apply printable_lf|].
  induction (2 * level)%nat; simpl; constructor;
    [apply printable_ascii; lia|assumption].
Qed.

Lemma text_printable (v : value) :
  plain is_scalar v -> forall level, Forall printable (text v level).
Proof.
  induction v as [| b | n | f | s | l IHl | d IHd] using value_ind';
    intros Hp level.
  - ascii_chars.
  - destruct b; ascii_chars.
  - unfold text. cbn [iterencode concat]. rewrite app_nil_r.
    apply int_repr_printable.
  - inversion Hp.
  - unfold text. cbn [iterencode concat]. rewrite app_nil_r.
    apply encode_basestring_printable. inversion Hp. assumption.
  - inversion Hp as [| | | |l' Hpl|]; subst.
    destruct l as [|v l].
    { ascii_chars. }
    rewrite text_list by discriminate.
    rewrite !Forall_app. split; [|split].
    + generalize true. revert IHl Hpl. generalize (v :: l). clear.
      intros l IHl Hpl. induction l as [|x l IH]; intros first; [constructor|].
      inversion IHl; inversion Hpl; subst.
      cbn [items_text]. rewrite !Forall_app. repeat split.
      * destruct first; ascii_chars.
      * apply newline_indent_printable.
      * auto.
      * apply IH; assumption.
    + apply newline_indent_printable.
    + ascii_chars.
  - inversion Hp as [| | | | |d' Hnd Hks Hvs]; subst.
    destruct d as [|kv d].
    { ascii_chars. }
    rewrite text_dict by discriminate.
    constructor; [apply printable_ascii; lia|].
    rewrite !Forall_app. split; [|split; [|split]].
    + apply newline_indent_printable.
    + generalize true. revert IHd Hks Hvs. generalize (kv :: d). clear.
      intros d IHd Hks Hvs. induction d as [|[k x] d IH]; intros first;
        [constructor|].
      inversion IHd; inversion Hks; inversion Hvs; subst.
      cbn [entries_text]. rewrite !Forall_app. repeat split.
      * destruct first; [constructor|].
        constructor; [apply printable_ascii; lia|apply newline_indent_printable].
      * apply encode_basestring_printable. assumption.
      * ascii_chars.
      * auto.
      * apply IH; assumption.
    + apply newline_indent_printable.
    + ascii_chars.
Qed.

(** *** Newlines *)

Lemma write_newlines_app (a b : pystr) :
  write_newlines (a ++ b) = write_newlines a ++ write_newlines b.
Proof.
  induction a as [|c a IH]; simpl; [reflexivity|].
  destruct ((c =? 10) && linesep_crlf); simpl; rewrite IH; reflexivity.
Qed.

Lemma read_write_newlines (s : pystr) :
  Forall (fun c => c <> 13) s -> read_newlines (write_newlines s) = s.
Proof.
  induction 1 as [|c s Hc _ IH]; [reflexivity|].
  cbn [write_newlines].
  destruct (Z.eqb_spec c 10) as [->|Hne]; cbn [andb].
  - destruct linesep_crlf.
    + cbn [read_newlines]. change (13 =? 13) with true.
      change (10 =? 10) with true. cbn iota. rewrite IH. reflexivity.
    + cbn [read_newlines]. change (10 =? 13) with false. cbn iota.
      rewrite IH. reflexivity.
  - cbn [read_newlines]. rewrite (proj2 (Z.eqb_neq c 13)) by assumption.
    rewrite IH. reflexivity.
Qed.

Lemma write_newlines_scalar (s : pystr) :
  Forall is_scalar s -> Forall is_scalar (write_newlines s).
Proof.
  induction 1 as [|c s Hc _ IH]; simpl; [constructor|].
  destruct ((c =? 10) && linesep_crlf).
  - constructor; [|constructor; [|exact IH]];
      (split; [unfold is_codepoint; lia|reflexivity]).
  - constructor; assumption.
Qed.

(** *** Encoding *)

Lemma utf8_encode_char_scalar (c : Z) :
  is_scalar c -> is_Some (utf8_encode_char c).
Proof.
  intros [[Hlo Hhi] Hs]. unfold utf8_encode_char. rewrite Hs.
  destruct (Z.ltb_spec c 0); [lia|].
  destruct (c <? 0x80); [eexists; reflexivity|].
  destruct (c <? 0x800); [eexists; reflexivity|].
  destruct (c <? 0x10000); [eexists; reflexivity|].
  destruct (Z.leb_spec c 0x10FFFF); [eexists; reflexivity|lia].
Qed.

Lemma utf8_encode_scalar (s : pystr) :
  Forall is_scalar s -> is_Some (utf8_encode s).
Proof.
  induction 1 as [|c s Hc _ [bs IH]]; simpl; [eexists; reflexivity|].
  destruct (utf8_encode_char_scalar c Hc) as [cb ->]. rewrite IH.
  eexists; reflexivity.
Qed.

Lemma utf8_encode_app (a b : pystr) (x y : list byte) :
  utf8_encode a = Some x -> utf8_encode b = Some y ->
  utf8_encode (a ++ b) = Some (x ++ y).
Proof.
  revert x. induction a as [|c a IH]; intros x; simpl.
  - intros [= <-] ->. reflexivity.
  - destruct (utf8_encode_char c) as [cb|]; [|discriminate].
    destruct (utf8_encode a) as [ab|]; [|discriminate].
    intros [= <-] Hb. rewrite (IH _ eq_refl Hb), app_assoc. reflexivity.
Qed.

(** Chunks that UTF-8 can carry are all written: the file holds the
    encoding of the whole text, with the translated newlines. *)
Lemma write_chunks_scalar (chunks : list pystr) (written : list byte) :
  Forall is_scalar (concat chunks) ->
  exists bs,
    utf8_encode (write_newlines (concat chunks)) = Some bs
    /\ write_chunks chunks written = (written ++ bs, Ok tt).
Proof.
  revert written. induction chunks as [|chunk chunks IH]; intros written Hall.
  - exists []. rewrite app_nil_r. split; reflexivity.
  - cbn [concat] in Hall. apply Forall_app in Hall as [Hc Hcs].
    destruct (utf8_encode_scalar _ (write_newlines_scalar _ Hc)) as [cb Hcb].
    cbn [write_chunks concat]. rewrite Hcb.
    destruct (IH (written ++ cb) Hcs) as (bs & Hbs & ->).
    exists (cb ++ bs). split.
    + rewrite write_newlines_app. apply utf8_encode_app; assumption.
    + rewrite app_assoc. reflexivity.
Qed.

End Written.

(** ** The scanner always answers

    A scan that succeeds consumes input, every error is a
    [JSONDecodeError], and a budget above the length of the text is never
    used up. *)
Section Adequacy.
Context `{Host}.






















End Adequacy.

(** ** Saving and loading *)
Section SaveLoad.
Context `{Host}.

Lemma todo_list_plain (ok : Z -> Prop) (items : list (pystr * bool)) :
  (forall c, 32 <= c < 128 -> ok c) ->
  Forall (fun it => Forall ok (fst it)) items ->
  plain ok (todo_list items).
Proof.
  intros Hascii Hitems. unfold todo_list. constructor.
  induction Hitems as [|[text done] items Ht _ IH]; simpl; constructor;
    [|exact IH].
  unfold todo_item. simpl in Ht. constructor.
  - simpl. repeat constructor; rewrite ?elem_of_cons, ?elem_of_nil;
      intros Hin; repeat destruct Hin as [Hin|Hin]; try discriminate; tauto.
  - repeat constructor; simpl; apply Hascii; lia.
  - repeat constructor. exact Ht.
Qed.

(** [save] then [load], on any plain value whose strings UTF-8 can
    carry. *)
Lemma save_load_plain (st : state) :
  plain is_scalar (todos st) ->
  exists data,
    save st = (set_data_file st data, Ok tt)
    /\ load (Some data) = Ok (todos st).
Proof.
  intros Hp.
  pose proof (text_printable _ Hp 0) as Hpr.
  assert (Hsc : Forall is_scalar (concat (iterencode (todos st) 0))).
  { eapply Forall_impl; [exact Hpr|]. intros c Hc. apply Hc. }
  destruct (write_chunks_scalar _ [] Hsc) as (bs & Henc & Hw).
  exists bs. unfold save. rewrite Hw. split; [reflexivity|].
  unfold load, read_text. rewrite (utf8_decode_encode _ _ Henc). simpl.
  rewrite read_write_newlines.
  - apply json_loads_dumps. eapply plain_impl; [|exact Hp].
    intros c Hc. apply Hc.
  - eapply Forall_impl; [exact Hpr|]. intros c [[-> | Hc] _]; lia.
Qed.

End SaveLoad.

(** C1, as the code has it.  For a list of to-do items whose texts are
    free of surrogate code points, and any [done] flags: [save] writes the
    data file without raising, and [load] of that file gives the same
    list, the items in the same order with the same text and flag. *)
Theorem save_then_load `{Host} (st : state) (items : list (pystr * bool)) :
  todos st = todo_list items ->
  Forall (fun it => Forall is_scalar (fst it)) items ->
  exists data,
    save st = (set_data_file st data, Ok tt)
    /\ load (data_file (set_data_file st data)) = Ok (todo_list items).
Proof.
  intros Ht Hitems. rewrite <- Ht. apply save_load_plain. rewrite Ht.
  apply todo_list_plain; [|assumption].
  intros c Hc. unfold is_scalar, is_codepoint, is_surrogate. split; lia.
Qed.

Lemma save_then_load_witness :
  exists data,
    save example_state = (set_data_file example_state data, Ok tt)
    /\ load (data_file (set_data_file example_state data))
       = Ok (todo_list (H := example_host false)
               [(lit "Buy milk", true); (lit "Call Bob", false)]).
Proof.
  apply (save_then_load example_state
           [(lit "Buy milk", true); (lit "Call Bob", false)]).
  - reflexivity.
  - repeat constructor; simpl; lia.
Defined.

(** C1 as stated fails: the text of an item may be any Python string, and
    a lone surrogate is one.  The data file below loads as a list with such
    an item; [save] then raises [UnicodeEncodeError] in the middle of the
    file, and what it leaves behind does not load at all. *)
Lemma save_then_load_surrogate :
  load (H := example_host false) (ascii_file "[{'text': '\ud800', 'done': false}]")
  = Ok (todos surrogate_state)
  /\ todos surrogate_state = todo_list surrogate_items
  /\ Forall (fun it : pystr * bool => is_pystr (fst it)) surrogate_items
  /\ snd (save surrogate_state) = Raise UnicodeEncodeError
  /\ data_file (fst (save surrogate_state)) = ascii_file "[
  {
    'text': "
  /\ load (H := example_host false) (data_file (fst (save surrogate_state)))
     = Raise JSONDecodeError.
Proof.
  repeat split; try reflexivity.
  repeat constructor; simpl; lia.
Qed.

(** C8.  [save] called twice in a row, the list untouched in between,
    leaves the same bytes in the data file both times (and the same outcome:
    when the first call raises, so does the second, after the same
    bytes).  The first call does not change the list. *)
Theorem save_twice_same_bytes `{Host} (st : state) :
  todos (fst (save st)) = todos st
  /\ data_file (fst (save (fst (save st)))) = data_file (fst (save st))
  /\ snd (save (fst (save st))) = snd (save st)
  /\ exists data, data_file (fst (save st)) = Some data.
Proof.
  unfold save.
  destruct (write_chunks (iterencode (todos st) 0) []) as [data r] eqn:Hw.
  cbn [fst snd todos set_data_file]. rewrite Hw. cbn [fst snd data_file].
  eauto.
Qed.





(** ** The view follows the list *)
Section Invariant.
Context `{Host}.

Lemma refresh_in_sync (st st' : state) : refresh st = Ok st' -> in_sync st'.
Proof.
  unfold refresh.
  destruct (py_iter (todos st)) as [ts|e] eqn:Hts; [|discriminate]. simpl.
  destruct (make_rows ts) as [rs|e] eqn:Hrs; [|discriminate]. simpl.
  intros [= <-]. split; simpl; [eauto|lia].
Qed.

Lemma startup_in_sync file st : startup file = Ok st -> in_sync st.
Proof.
  unfold startup. destruct (load file) as [t|e]; [|discriminate]. simpl.
  apply refresh_in_sync.
Qed.

(** With a current row, [self.todos] is a list, as long as the view, and
    the current row is a valid index of it. *)
Lemma in_sync_list (st : state) :
  in_sync st -> 0 <= current_row st ->
  exists l, todos st = VList l /\ make_rows l = Ok (rows st)
            /\ current_row st < Z.of_nat (length l).
Proof.
  intros [(ts & Hts & Hrs) Hcur] Hpos.
  assert (Hlen : length ts = length (rows st)).
  { apply make_rows_Forall2 in Hrs. eapply Forall2_length. eassumption. }
  destruct ts as [|t ts]; [simpl in Hlen; lia|].
  assert (Ht : exists d, t = VDict d).
  { simpl in Hrs. destruct (make_row t) as [r|e] eqn:Hr; [|discriminate].
    apply make_row_Ok in Hr as (d & _ & _ & -> & _). eauto. }
  destruct Ht as [d ->].
  destruct (todos st) as [| | | | s | l | d0]; try discriminate.
  - destruct s; discriminate.
  - injection Hts as ->. exists (VDict d :: ts). repeat split; [assumption|lia].
  - destruct d0 as [|[k v] d0]; discriminate.
Qed.

Lemma keeps_sync_Return st : in_sync st -> keeps_sync (Return st).
Proof. intros Hs answers st' rest [= <- _]. exact Hs. Qed.

Lemma keeps_sync_refresh (st : state) (r : result value) :
  keeps_sync (lift (t ← r; refresh (set_todos st t))).
Proof.
  intros answers st' rest. destruct r as [t|e]; simpl.
  - destruct (refresh (set_todos st t)) as [st1|e] eqn:Hr; simpl;
      [|discriminate].
    intros [= <- _]. eapply refresh_in_sync. eassumption.
  - discriminate.
Qed.

Lemma keeps_sync_add st : in_sync st -> keeps_sync (add st).
Proof.
  intros Hs answers st' rest. unfold add.
  destruct answers as [|[text ok| |] answers]; simpl; try discriminate.
  destruct (ok && negb (bool_decide (text = []))).
  - apply keeps_sync_refresh.
  - apply keeps_sync_Return. assumption.
Qed.

Lemma keeps_sync_edit st i : in_sync st -> keeps_sync (edit st i).
Proof.
  intros Hs answers st' rest. unfold edit.
  destruct (o ← getitem_int (todos st) i; v ← getitem_str o (lit "text");
            qstring_arg v) as [current|e]; [|discriminate].
  destruct answers as [|[text ok| |] answers]; simpl; try discriminate.
  destruct ok.
  - apply keeps_sync_refresh.
  - apply keeps_sync_Return. assumption.
Qed.

Lemma in_sync_same (st st' : state) :
  todos st' = todos st -> rows st' = rows st -> current_row st' = current_row st ->
  in_sync st -> in_sync st'.
Proof. unfold in_sync. intros -> -> ->. tauto. Qed.

Lemma keeps_sync_change_size st : in_sync st -> keeps_sync (change_size st).
Proof.
  intros Hs answers st' rest. unfold change_size.
  destruct answers as [|[|w ok1|] answers]; simpl; try discriminate.
  destruct ok1; simpl; [|apply keeps_sync_Return; assumption].
  destruct answers as [|[|h ok2|] answers]; simpl; try discriminate.
  destruct ok2; simpl; intros [= <- _]; [|assumption].
  eapply in_sync_same; [| | |exact Hs]; reflexivity.
Qed.

Lemma keeps_sync_exit st : in_sync st -> keeps_sync (exit st).
Proof.
  intros Hs answers st' rest. unfold exit, save.
  destruct (write_chunks (iterencode (todos st) 0) []) as [data [[]|e]];
    simpl; [|discriminate].
  intros [= <- _]. eapply in_sync_same; [| | |exact Hs]; reflexivity.
Qed.

(** The three actions of the blank-area menu and of the tray menu. *)
Lemma keeps_sync_main_menu st pos :
  in_sync st ->
  keeps_sync (ExecMenu [("➕ 添加代办"%string, add st);
                        ("🖋 修改宽高"%string, change_size st);
                        ("✖ 退出"%string, exit st)] pos (Return st)).
Proof.
  intros Hs answers st' rest.
  destruct answers as [|[| |[n|]] answers]; simpl; try discriminate.
  - destruct n as [|[|[|n]]]; try discriminate.
    + apply keeps_sync_add. assumption.
    + apply keeps_sync_change_size. assumption.
    + apply keeps_sync_exit. assumption.
  - apply keeps_sync_Return. assumption.
Qed.

Lemma keeps_sync_item_menu st pos : in_sync st -> keeps_sync (item_menu st pos).
Proof.
  intros Hs answers st' rest. unfold item_menu.
  destruct (current_row st <? 0); [apply keeps_sync_Return; assumption|].
  destruct answers as [|[| |[n|]] answers]; simpl; try discriminate.
  - destruct n as [|[|[|n]]]; try discriminate.
    + apply keeps_sync_refresh.
    + apply keeps_sync_edit. assumption.
    + apply keeps_sync_refresh.
  - apply keeps_sync_Return. assumption.
Qed.

Lemma keeps_sync_deliver st tgt ev : in_sync st -> keeps_sync (deliver st tgt ev).
Proof.
  intros Hs. unfold deliver.
  destruct (receiver st tgt) as [|r].
  - unfold eventFilter.
    destruct (ev_type ev); try (apply keeps_sync_Return; assumption).
    destruct (ev_button ev); try (apply keeps_sync_Return; assumption).
    destruct (rect_contains st (ev_pos ev));
      [apply keeps_sync_main_menu|apply keeps_sync_Return]; assumption.
  - destruct (ev_type ev); try (apply keeps_sync_Return; assumption).
    assert (Hs1 : in_sync match r with
                          | Some n =>
                              if (n <? length (rows st))%nat
                              then set_current_row st (Z.of_nat n) else st
                          | None => st
                          end).
    { destruct r as [n|]; [|assumption].
      destruct (Nat.ltb_spec n (length (rows st))); [|assumption].
      destruct Hs as [Hrows _]. split; [exact Hrows|]. simpl. lia. }
    destruct (ev_button ev);
      try (apply keeps_sync_Return; assumption).
    apply keeps_sync_item_menu. assumption.
Qed.

Lemma keeps_sync_handle st i : in_sync st -> keeps_sync (handle st i).
Proof.
  intros Hs. destruct i as [tgt ev|trigger|pos]; simpl.
  - apply keeps_sync_deliver. assumption.
  - apply keeps_sync_Return. destruct trigger; [|assumption].
    eapply in_sync_same; [| | |exact Hs]; reflexivity.
  - apply keeps_sync_main_menu. assumption.
Qed.

(** In every state the program reaches, the view is in step with the
    list. *)
Lemma reachable_in_sync (st : state) : reachable st -> in_sync st.
Proof.
  induction 1 as [file st Hst|st i answers st' rest _ IH Hrun].
  - eapply startup_in_sync. eassumption.
  - eapply keeps_sync_handle; eassumption.
Qed.

(** The lists of the states the program reaches are those [refresh]
    displays, which is what the statements on [add], [edit], [toggle] and
    [delete] ask of a list. *)
Lemma reachable_displayed (st : state) (l : list value) :
  reachable st -> todos st = VList l -> make_rows l = Ok (rows st).
Proof.
  intros Hreach Ht. apply reachable_in_sync in Hreach.
  destruct Hreach as [(ts & Hts & Hrs) _]. rewrite Ht in Hts.
  injection Hts as <-. exact Hrs.
Qed.

End Invariant.

(** ** No index out of range *)
Section IndexErrors.
Context `{Host}.

Lemma index_safe_Return st : index_safe (Return st).
Proof. intros answers rest. discriminate. Qed.

Lemma index_safe_lift (r : result state) :
  r <> Raise IndexError -> index_safe (lift r).
Proof.
  intros Hr answers rest. destruct r as [st|e]; simpl; [discriminate|].
  intros [= -> _]. congruence.
Qed.

Lemma make_rows_error (ts : list value) (e : exn) :
  make_rows ts = Raise e -> e <> IndexError.
Proof.
  induction ts as [|t ts IH]; simpl; [discriminate|].
  destruct (make_row t) as [r|e'] eqn:Hr; simpl.
  - destruct (make_rows ts) as [rs|e'']; simpl; [discriminate|].
    intros [= <-]. apply IH. reflexivity.
  - intros [= <-]. unfold make_row, getitem_str in Hr.
    destruct t; try (injection Hr as <-; discriminate).
    destruct (dict_get (lit "done") d); simpl in Hr;
      [|injection Hr as <-; discriminate].
    destruct (dict_get (lit "text") d) as [[]|]; simpl in Hr;
      try discriminate; injection Hr as <-; discriminate.
Qed.

Lemma refresh_error (st : state) : refresh st <> Raise IndexError.
Proof.
  unfold refresh. destruct (todos st) as [| | | | s | l | d]; simpl;
    try discriminate.
  - destruct (make_rows (map (fun c => VStr [c]) s)) eqn:Hr; simpl;
      [discriminate|]. apply make_rows_error in Hr. congruence.
  - destruct (make_rows l) eqn:Hr; simpl; [discriminate|].
    apply make_rows_error in Hr. congruence.
  - destruct (make_rows (map (fun kv => VStr (fst kv)) d)) eqn:Hr; simpl;
      [discriminate|]. apply make_rows_error in Hr. congruence.
Qed.

Lemma index_safe_refresh (st : state) (r : result value) :
  r <> Raise IndexError ->
  index_safe (lift (t ← r; refresh (set_todos st t))).
Proof.
  intros Hr. apply index_safe_lift. destruct r as [t|e]; simpl.
  - apply refresh_error.
  - intros [= ->]. apply Hr. reflexivity.
Qed.

Lemma index_safe_add st : index_safe (add st).
Proof.
  intros answers rest. unfold add.
  destruct answers as [|[text ok| |] answers]; simpl; try discriminate.
  destruct (ok && negb (bool_decide (text = []))).
  - apply index_safe_refresh. destruct (todos st); discriminate.
  - discriminate.
Qed.

Lemma index_safe_change_size st : index_safe (change_size st).
Proof.
  intros answers rest. unfold change_size.
  destruct answers as [|[|w ok1|] answers]; simpl; try discriminate.
  destruct ok1; simpl; [|discriminate].
  destruct answers as [|[|h ok2|] answers]; simpl; try discriminate.
  destruct ok2; discriminate.
Qed.

Lemma write_chunks_error chunks written data e :
  write_chunks chunks written = (data, Raise e) -> e = UnicodeEncodeError.
Proof.
  revert written. induction chunks as [|chunk chunks IH]; intros written; simpl.
  - discriminate.
  - destruct (utf8_encode (write_newlines chunk)); [apply IH|].
    intros [= _ <-]. reflexivity.
Qed.

Lemma index_safe_exit st : index_safe (exit st).
Proof.
  intros answers rest. unfold exit, save.
  destruct (write_chunks (iterencode (todos st) 0) []) as [data [[]|e]] eqn:Hw;
    simpl; [discriminate|].
  apply write_chunks_error in Hw. subst. discriminate.
Qed.

Lemma index_safe_main_menu st pos :
  index_safe (ExecMenu [("➕ 添加代办"%string, add st);
                        ("🖋 修改宽高"%string, change_size st);
                        ("✖ 退出"%string, exit st)] pos (Return st)).
Proof.
  intros answers rest.
  destruct answers as [|[| |[n|]] answers]; simpl; try discriminate.
  destruct n as [|[|[|n]]]; try discriminate.
  - apply index_safe_add.
  - apply index_safe_change_size.
  - apply index_safe_exit.
Qed.

(** The three actions of the item menu, on the current row of a view in
    step with the list. *)
Lemma index_safe_item_actions st :
  in_sync st -> 0 <= current_row st ->
  index_safe (toggle st (current_row st))
  /\ index_safe (edit st (current_row st))
  /\ index_safe (delete st (current_row st)).
Proof.
  intros Hs Hpos.
  destruct (in_sync_list st Hs Hpos) as (l & Ht & Hrs & Hlt).
  assert (Hi : 0 <= current_row st < Z.of_nat (length l)) by lia.
  destruct (lookup_lt_is_Some_2 l (Z.to_nat (current_row st)) ltac:(lia))
    as [o Ho].
  destruct (displayed_item _ _ _ _ Hrs Ho) as (d & done & text & -> & Hd & Htx).
  split; [|split].
  - unfold toggle. apply index_safe_refresh.
    rewrite Ht, (update_item_list _ _ _ _ Hi Ho). simpl. rewrite Hd. simpl.
    destruct done; simpl; discriminate.
  - intros answers rest. unfold edit.
    rewrite Ht, (getitem_int_list _ _ _ Hi Ho). simpl. rewrite Htx. simpl.
    destruct answers as [|[t ok| |] answers]; simpl; try discriminate.
    destruct ok; [|discriminate].
    apply index_safe_refresh. unfold update_item.
    rewrite norm_index_valid, Ho by assumption. discriminate.
  - unfold delete. apply index_safe_refresh.
    rewrite Ht. simpl. rewrite norm_index_valid by assumption. discriminate.
Qed.

Lemma index_safe_item_menu st pos : in_sync st -> index_safe (item_menu st pos).
Proof.
  intros Hs answers rest. unfold item_menu.
  destruct (Z.ltb_spec (current_row st) 0) as [|Hpos]; [discriminate|].
  destruct (index_safe_item_actions st Hs Hpos) as (Htog & Hed & Hdel).
  destruct answers as [|[| |[n|]] answers]; simpl; try discriminate.
  destruct n as [|[|[|n]]]; try discriminate.
  - apply Htog.
  - apply Hed.
  - apply Hdel.
Qed.

Lemma index_safe_handle st i : in_sync st -> index_safe (handle st i).
Proof.
  intros Hs. destruct i as [tgt ev|trigger|pos]; simpl.
  - unfold deliver. destruct (receiver st tgt) as [|r].
    + unfold eventFilter.
      destruct (ev_type ev); try apply index_safe_Return.
      destruct (ev_button ev); try apply index_safe_Return.
      destruct (rect_contains st (ev_pos ev));
        [apply index_safe_main_menu|apply index_safe_Return].
    + destruct (ev_type ev); try apply index_safe_Return.
      destruct (ev_button ev); try apply index_safe_Return.
      apply index_safe_item_menu.
      destruct r as [n|]; [|assumption].
      destruct (Nat.ltb_spec n (length (rows st))); [|assumption].
      destruct Hs as [Hrows _]. split; [exact Hrows|]. simpl. lia.
  - apply index_safe_Return.
  - apply index_safe_main_menu.
Qed.

End IndexErrors.

(** ** Deleting *)

(** C5.  In a state whose to-do list is [l], with [i] a valid index and [o]
    the item at [i]: [delete(i)] leaves the items before [i] followed by the
    items after [i], in their order, which is [l] without [o] and one
    shorter.  [item_menu] returns without a menu when the view has no
    current row; in a state the program reaches, when it does open the
    menu, the row it hands to [delete] is a valid index of the list.  No
    handler, from any such state and whatever the user does, ends in an
    [IndexError]. *)
Theorem delete_removes_one_item `{Host} :
  (forall (st : state) (l : list value) (rs : list row) (i : Z) (o : value),
     todos st = VList l ->
     make_rows l = Ok rs ->
     0 <= i < Z.of_nat (length l) ->
     l !! Z.to_nat i = Some o ->
     run (delete st i) []
     = Some (Ok (set_list st
                   (VList (take (Z.to_nat i) l ++ drop (S (Z.to_nat i)) l))
                   (base.delete (Z.to_nat i) rs) (-1)), [])
     /\ l = take (Z.to_nat i) l ++ o :: drop (S (Z.to_nat i)) l
     /\ S (length (take (Z.to_nat i) l ++ drop (S (Z.to_nat i)) l)) = length l)
  /\ (forall (st : state) (pos : point),
        reachable st ->
        (current_row st < 0 -> item_menu st pos = Return st)
        /\ (0 <= current_row st ->
            exists l,
              todos st = VList l
              /\ current_row st < Z.of_nat (length l)
              /\ item_menu st pos
                 = ExecMenu [("✔ 完成 / 取消"%string, toggle st (current_row st));
                             ("✏ 修改"%string, edit st (current_row st));
                             ("🗑 删除"%string, delete st (current_row st))]
                     pos (Return st)))
  /\ (forall (st : state) (i : input) (answers rest : list answer),
        reachable st ->
        run (handle st i) answers <> Some (Raise IndexError, rest)).
Proof.
  split; [|split].
  - intros st l rs i o Ht Hrs Hi Ho.
    assert (Hlen : (Z.to_nat i < length l)%nat) by lia.
    split; [|split].
    + unfold delete. rewrite Ht. simpl.
      rewrite norm_index_valid by assumption. simpl.
      rewrite (refresh_list st _ _ (make_rows_delete _ _ (Z.to_nat i) Hrs)).
      rewrite delete_take_drop. reflexivity.
    + symmetry. apply take_drop_middle. assumption.
    + rewrite length_app, length_take, length_drop. lia.
  - intros st pos Hreach. apply reachable_in_sync in Hreach. split.
    + intros Hneg. unfold item_menu.
      rewrite (proj2 (Z.ltb_lt _ _)) by assumption. reflexivity.
    + intros Hpos.
      destruct (in_sync_list st Hreach Hpos) as (l & Ht & _ & Hlt).
      exists l. split; [assumption|]. split; [assumption|].
      unfold item_menu. rewrite (proj2 (Z.ltb_ge _ _)) by assumption.
      reflexivity.
  - intros st i answers rest Hreach.
    apply index_safe_handle, reachable_in_sync. assumption.
Qed.

Lemma delete_removes_one_item_witness :
  run (delete example_state 0) []
  = Some (Ok (set_list example_state
                (VList [todo_item (lit "Call Bob") false])
                [{| label := [0x25CB; 32] ++ lit "Call Bob";
                    foreground := "#000000" |}] (-1)), [])
  /\ (exists st,
        startup (H := example_host false)
          (ascii_file "[{'text': 'Buy milk', 'done': true}]") = Ok st
        /\ item_menu st (0, 0) = Return st).
Proof.
  pose proof (delete_removes_one_item (H := example_host false))
    as (Hdel & Hmenu & _).
  split.
  - exact (proj1 (Hdel example_state example_items example_rows 0
                    (todo_item (lit "Buy milk") true)
                    eq_refl eq_refl ltac:(simpl; lia) eq_refl)).
  - eexists. split; [vm_compute; reflexivity|].
    eapply Hmenu.
    + eapply reachable_startup
        with (file := ascii_file "[{'text': 'Buy milk', 'done': true}]").
      vm_compute. reflexivity.
    + simpl. lia.
Defined.

(** ** Right clicks *)

(** C9.  For a press of the right button: if the blank-area menu opens,
    the press went to the [TodoWidget] itself, that is, it was on the window
    outside the list (or the list was hidden), and within the window; a
    press there does open it, at the cursor.  A press on a row of the list
    makes that row current and opens the item menu, whose actions are bound
    to that row; it does not open the blank-area menu. *)
Theorem right_click_menus `{Host} (st : state) (tgt : target) (ev : mouse_event) :
  ev_type ev = MouseButtonPress ->
  ev_button ev = RightButton ->
  (deliver st tgt ev = blank_area_menu st (ev_global ev) ->
   receiver st tgt = OnWidget /\ rect_contains st (ev_pos ev) = true)
  /\ (receiver st tgt = OnWidget -> rect_contains st (ev_pos ev) = true ->
      deliver st tgt ev = blank_area_menu st (ev_global ev))
  /\ (forall n : nat,
        receiver st tgt = OnList (Some n) ->
        (n < length (rows st))%nat ->
        let st1 := set_current_row st (Z.of_nat n) in
        deliver st tgt ev
        = ExecMenu [("✔ 完成 / 取消"%string, toggle st1 (Z.of_nat n));
                    ("✏ 修改"%string, edit st1 (Z.of_nat n));
                    ("🗑 删除"%string, delete st1 (Z.of_nat n))]
            (ev_global ev) (Return st1)
        /\ deliver st tgt ev <> blank_area_menu st (ev_global ev)).
Proof.
  intros Hty Hbtn. unfold deliver, eventFilter. rewrite Hty, Hbtn.
  split; [|split].
  - destruct (receiver st tgt) as [|r].
    + destruct (rect_contains st (ev_pos ev)); [auto|discriminate].
    + unfold item_menu. intros Heq. exfalso.
      destruct (_ <? 0); discriminate.
  - intros -> ->. reflexivity.
  - intros n -> Hn. cbn zeta.
    rewrite (proj2 (Nat.ltb_lt _ _)) by assumption.
    unfold item_menu.
    change (current_row (set_current_row st (Z.of_nat n))) with (Z.of_nat n).
    rewrite (proj2 (Z.ltb_ge _ _)) by lia.
    split; [reflexivity|discriminate].
Qed.

Lemma right_click_menus_witness :
  deliver example_state (OnList (Some 0%nat)) (right_press (50, 20))
  = ExecMenu
      [("✔ 完成 / 取消"%string, toggle (set_current_row example_state 0) 0);
       ("✏ 修改"%string, edit (set_current_row example_state 0) 0);
       ("🗑 删除"%string, delete (set_current_row example_state 0) 0)]
      (150, 120) (Return (set_current_row example_state 0))
  /\ deliver example_state OnWidget (right_press (5, 5))
     = blank_area_menu example_state (105, 105).
Proof.
  split.
  - exact (proj1 (proj2 (proj2 (right_click_menus example_state
                                  (OnList (Some 0%nat)) (right_press (50, 20))
                                  eq_refl eq_refl))
                   0%nat eq_refl ltac:(simpl; lia))).
  - exact (proj1 (proj2 (right_click_menus example_state OnWidget
                           (right_press (5, 5)) eq_refl eq_refl))
             eq_refl eq_refl).
Defined.

(** ** Dragging *)

(** Once [self.drag_pos] is set, the move events of a gesture never raise,
    and the window keeps its offset from the point last recorded. *)
Lemma mouse_moves_offset (moves : list (Z * point)) (w : window) (d : point) :
  drag_pos w = Some d ->
  exists w', mouse_moves w moves = Ok w'
             /\ drag_pos w' = Some (last_drag d moves)
             /\ point_sub (win_pos w') (last_drag d moves)
                = point_sub (win_pos w) d.
Proof.
  revert w d. induction moves as [|[buttons global] moves IH]; intros w d Hd.
  - exists w. repeat split. exact Hd.
  - cbn [mouse_moves last_drag]. unfold mouseMoveEvent.
    destruct (buttons =? LeftButtonFlag).
    + rewrite Hd. cbn [mbind result_bind].
      destruct (IH {| win_pos := point_sub (point_add (win_pos w) global) d;
                      drag_pos := Some global |} global eq_refl)
        as (w' & Hrun & Hdrag & Hoff).
      exists w'. rewrite Hrun. repeat split; [exact Hdrag|].
      rewrite Hoff. cbn [win_pos]. unfold point_sub, point_add. cbn [fst snd].
      f_equal; lia.
    + cbn [mbind result_bind]. apply IH. exact Hd.
Qed.

(** X1.  The window follows the cursor: after a press of the left button on the
    window and any number of move events, the window has moved by as much
    as the cursor has between the press and the last move with the left
    button alone; moves with other buttons held are skipped and made up for
    by the next one.  Before any press of the left button [self.drag_pos]
    does not exist: the first move with the left button alone raises
    [AttributeError]. *)
Theorem drag_follows_cursor (w : window) :
  (forall (e : mouse_event) (moves : list (Z * point)),
     ev_button e = LeftButton ->
     exists w',
       mouse_moves (mousePressEvent w e) moves = Ok w'
       /\ win_pos w'
          = point_add (win_pos w)
              (point_sub (last_drag (ev_global e) moves) (ev_global e))
       /\ drag_pos w' = Some (last_drag (ev_global e) moves))
  /\ (forall (before after : list (Z * point)) (global : point),
        drag_pos w = None ->
        Forall (fun m => fst m <> LeftButtonFlag) before ->
        mouse_moves w (before ++ (LeftButtonFlag, global) :: after)
        = Raise AttributeError).
Proof.
  split.
  - intros e moves Hbtn. unfold mousePressEvent. rewrite Hbtn.
    destruct (mouse_moves_offset moves
                {| win_pos := win_pos w; drag_pos := Some (ev_global e) |}
                (ev_global e) eq_refl) as (w' & Hrun & Hdrag & Hoff).
    exists w'. split; [exact Hrun|]. split; [|exact Hdrag].
    cbn [win_pos] in Hoff. revert Hoff.
    destruct (win_pos w') as [x' y'], (win_pos w) as [x y].
    destruct (last_drag (ev_global e) moves) as [gx gy].
    destruct (ev_global e) as [ex ey].
    unfold point_sub, point_add. cbn [fst snd]. intros [= Hx Hy].
    f_equal; lia.
  - intros before after global Hnone Hbefore.
    induction Hbefore as [|[buttons g] before Hb _ IH].
    + cbn [app mouse_moves]. unfold mouseMoveEvent.
      rewrite Z.eqb_refl, Hnone. reflexivity.
    + cbn [app mouse_moves]. unfold mouseMoveEvent. cbn [fst] in Hb.
      rewrite (proj2 (Z.eqb_neq _ _) Hb). cbn [mbind result_bind]. exact IH.
Qed.

Lemma drag_follows_cursor_witness :
  (exists w',
     mouse_moves
       (mousePressEvent {| win_pos := (100, 100); drag_pos := None |}
          (left_press (20, 30)))
       [(1, (125, 131)); (3, (140, 140)); (1, (150, 160))] = Ok w'
     /\ win_pos w' = (130, 130))
  /\ mouse_moves {| win_pos := (100, 100); drag_pos := None |}
       [(4, (1, 1)); (1, (2, 2))] = Raise AttributeError.
Proof.
  pose proof (drag_follows_cursor {| win_pos := (100, 100); drag_pos := None |})
    as [Hdrag Hnone].
  split.
  - destruct (Hdrag (left_press (20, 30))
                [(1, (125, 131)); (3, (140, 140)); (1, (150, 160))] eq_refl)
      as (w' & Hrun & Hpos & _).
    exists w'. split; [exact Hrun|exact Hpos].
  - apply (Hnone [(4, (1, 1))] [] (2, 2) eq_refl).
    repeat constructor. cbn. discriminate.
Defined.

(** ** What [refresh] can display *)
Section Display.
Context `{Host}.

Lemma make_row_shown (t : value) :
  (exists r, make_row t = Ok r) <-> shown_item t = true.
Proof.
  unfold make_row, shown_item, getitem_str. destruct t; simpl;
    try (split; [intros [r Hr]|intros Hr]; discriminate).
  destruct (dict_get (lit "done") d) as [done|]; simpl;
    [|split; [intros [r Hr]|intros Hr]; discriminate].
  destruct (dict_get (lit "text") d) as [[]|]; simpl;
    try (split; [intros [r Hr]|intros Hr]; discriminate).
  split; eauto.
Qed.

Lemma make_row_raises (t : value) (e : exn) :
  make_row t = Raise e -> e = KeyError \/ e = TypeError.
Proof.
  unfold make_row, getitem_str. destruct t; simpl;
    try (intros [= <-]; auto).
  destruct (dict_get (lit "done") d) as [done|]; simpl;
    [|intros [= <-]; auto].
  destruct (dict_get (lit "text") d) as [[]|]; simpl;
    try discriminate; intros [= <-]; auto.
Qed.

Lemma make_rows_shown (l : list value) :
  (exists rs, make_rows l = Ok rs) <-> forallb shown_item l = true.
Proof.
  induction l as [|t l IH]; simpl.
  - split; eauto.
  - rewrite andb_true_iff, <- IH, <- make_row_shown. split.
    + intros [rs Hrs]. destruct (make_row t) as [r|e]; [|discriminate].
      simpl in Hrs. destruct (make_rows l) as [rs'|e]; [|discriminate]. eauto.
    + intros [[r ->] [rs ->]]. simpl. eauto.
Qed.

Lemma make_rows_raises (l : list value) (e : exn) :
  make_rows l = Raise e -> e = KeyError \/ e = TypeError.
Proof.
  induction l as [|t l IH]; simpl; [discriminate|].
  destruct (make_row t) as [r|e'] eqn:Hr; simpl.
  - destruct (make_rows l) as [rs|e'']; simpl; [discriminate|].
    intros [= <-]. apply IH. reflexivity.
  - intros [= <-]. eapply make_row_raises. eassumption.
Qed.

Lemma refresh_displayable (st : state) :
  ((exists st', refresh st = Ok st') <-> displayable (todos st) = true)
  /\ (forall e, refresh st = Raise e -> e = KeyError \/ e = TypeError).
Proof.
  unfold refresh, displayable.
  destruct (todos st) as [| | | | s | l | d]; simpl;
    try (split; [split; [intros [st' Hst']|intros Hst']; discriminate
                |intros e [= <-]; auto]).
  - destruct s as [|c s]; simpl.
    + split; [split; eauto|discriminate].
    + split; [split; [intros [st' Hst']|intros Hst']; discriminate
             |intros e [= <-]; auto].
  - rewrite <- make_rows_shown. split.
    + split.
      * intros [st' Hst']. destruct (make_rows l) as [rs|e]; [eauto|discriminate].
      * intros [rs ->]. simpl. eauto.
    + intros e. destruct (make_rows l) as [rs|e'] eqn:Hrs; simpl;
        [discriminate|].
      intros [= <-]. eapply make_rows_raises. eassumption.
  - destruct d as [|[k v] d]; simpl.
    + split; [split; eauto|discriminate].
    + split; [split; [intros [st' Hst']|intros Hst']; discriminate
             |intros e [= <-]; auto].
Qed.

End Display.

(** X2.  [__init__] checks the shape of what [load] returns only through
    [refresh]: the program starts exactly when the loaded value is a list of
    dicts that each have a ["done"] entry and a ["text"] entry holding a
    string, or is an empty string or an empty dict; it then holds that
    value as [self.todos].  For any other loaded value [__init__] raises
    [KeyError] or [TypeError]. *)
Theorem startup_displayable `{Host} (file : option (list byte)) (v : value) :
  load file = Ok v ->
  (forall st, startup file = Ok st -> todos st = v /\ displayable v = true)
  /\ (displayable v = true -> exists st, startup file = Ok st /\ todos st = v)
  /\ (forall e, startup file = Raise e ->
                displayable v = false /\ (e = KeyError \/ e = TypeError)).
Proof.
  intros Hl. unfold startup. rewrite Hl. cbn [mbind result_bind].
  set (st0 := {| todos := v; rows := []; current_row := -1;
                 list_visible := true; collapsed := false; shown := true;
                 width := 300; height := 400; data_file := file;
                 quit := false |}).
  destruct (refresh_displayable st0) as [Hiff Hraise].
  change (todos st0) with v in Hiff.
  assert (Htodos : forall st, refresh st0 = Ok st -> todos st = v).
  { intros st. unfold refresh.
    destruct (py_iter (todos st0)) as [ts|e]; [|discriminate]. simpl.
    destruct (make_rows ts) as [rs|e]; [|discriminate]. simpl.
    intros [= <-]. reflexivity. }
  split; [|split].
  - intros st Hst. split; [auto|]. apply Hiff. eauto.
  - intros Hd. apply Hiff in Hd as [st Hst]. eauto.
  - intros e He. split; [|eauto].
    destruct (displayable v); [|reflexivity].
    destruct (proj2 Hiff eq_refl) as [st Hst]. congruence.
Qed.

Lemma startup_displayable_witness :
  (exists st, startup (H := example_host false) (ascii_file "{}") = Ok st
              /\ todos st = VDict [])
  /\ displayable (H := example_host false) (VList [VDict [(lit "text", VStr (lit "a"))]])
     = false.
Proof.
  split.
  - exact (proj1 (proj2 (startup_displayable (H := example_host false)
                           (ascii_file "{}") (VDict []) eq_refl)) eq_refl).
  - exact (proj1 (proj2 (proj2 (startup_displayable (H := example_host false)
                                  (ascii_file "[{'text': 'a'}]")
                                  (VList [VDict [(lit "text", VStr (lit "a"))]])
                                  eq_refl)) KeyError eq_refl)).
Defined.

(** ** What the handlers change *)
Section Effects.
Context `{Host}.

Lemma set_list_same (st : state) :
  set_list st (todos st) (rows st) (current_row st) = st.
Proof. destruct st. reflexivity. Qed.

Lemma effect_Return (st : state) : effect st (Return st).
Proof.
  intros answers st' rest [= <- _]. left.
  exists (todos st), (rows st), (current_row st). symmetry. apply set_list_same.
Qed.

(** A handler that ends in [refresh] changes the list and the view only. *)
Lemma refresh_set_list (st : state) (r : result value) answers st' rest :
  run (lift (t ← r; refresh (set_todos st t))) answers = Some (Ok st', rest) ->
  exists t rs, r = Ok t /\ refresh (set_todos st t) = Ok st'
               /\ st' = set_list st t rs (-1) /\ rest = answers.
Proof.
  destruct r as [t|e]; simpl; [|discriminate].
  destruct (refresh (set_todos st t)) as [st1|e] eqn:Hr; simpl; [|discriminate].
  intros [= <- <-]. exists t. pose proof Hr as Hr'. unfold refresh in Hr'.
  simpl in Hr'. destruct (py_iter t) as [ts|e]; [|discriminate]. simpl in Hr'.
  destruct (make_rows ts) as [rs|e]; [|discriminate]. simpl in Hr'.
  injection Hr' as <-. exists rs. repeat split. exact Hr.
Qed.

Lemma effect_refresh (st : state) (r : result value) :
  effect st (lift (t ← r; refresh (set_todos st t))).
Proof.
  intros answers st' rest Hrun.
  apply refresh_set_list in Hrun as (t & rs & _ & _ & -> & _). left. eauto.
Qed.

Lemma effect_add (st : state) : effect st (add st).
Proof.
  intros answers st' rest. unfold add.
  destruct answers as [|[text ok| |] answers]; simpl; try discriminate.
  destruct (ok && negb (bool_decide (text = []))).
  - intros Hrun. apply refresh_set_list in Hrun as (t & rs & _ & _ & -> & _).
    left. eauto.
  - intros Hrun. left. injection Hrun as <- _.
    exists (todos st), (rows st), (current_row st). symmetry. apply set_list_same.
Qed.

Lemma effect_change_size (st : state) : effect st (change_size st).
Proof.
  intros answers st' rest. unfold change_size.
  destruct answers as [|[|w ok1|] answers]; simpl; try discriminate.
  destruct ok1; simpl; [|intros [= <- _]; left; eauto using set_list_same].
  destruct answers as [|[|h ok2|] answers]; simpl; try discriminate.
  destruct ok2; simpl; intros [= <- _]; [|left; eauto using set_list_same].
  right. left. exists w, h. split; [reflexivity|].
  intros (Hw & Hh & _). auto.
Qed.

Lemma effect_exit (st : state) : effect st (exit st).
Proof.
  intros answers st' rest. unfold exit, save.
  destruct (write_chunks (iterencode (todos st) 0) []) as [data [[]|e]];
    simpl; [|discriminate].
  intros [= <- _]. right. right. left. eauto.
Qed.

Lemma effect_main_menu (st : state) (pos : point) :
  effect st (ExecMenu [("➕ 添加代办"%string, add st);
                       ("🖋 修改宽高"%string, change_size st);
                       ("✖ 退出"%string, exit st)] pos (Return st)).
Proof.
  intros answers st' rest.
  destruct answers as [|[| |[n|]] answers]; simpl; try discriminate.
  - destruct n as [|[|[|n]]]; try discriminate.
    + exact (effect_add st answers st' rest).
    + exact (effect_change_size st answers st' rest).
    + exact (effect_exit st answers st' rest).
  - exact (effect_Return st answers st' rest).
Qed.

(** The item menu changes the list and the view only. *)
Lemma item_menu_set_list (st : state) (pos : point) answers st' rest :
  run (item_menu st pos) answers = Some (Ok st', rest) ->
  exists t rs c, st' = set_list st t rs c.
Proof.
  unfold item_menu. destruct (current_row st <? 0).
  - intros [= <- _]. eauto using set_list_same.
  - destruct answers as [|[| |[n|]] answers]; simpl; try discriminate.
    + destruct n as [|[|[|n]]]; try discriminate.
      * intros Hrun. apply refresh_set_list in Hrun as (t & rs & _ & _ & -> & _).
        eauto.
      * unfold edit.
        destruct (o ← getitem_int (todos st) (current_row st);
                  v ← getitem_str o (lit "text"); qstring_arg v)
          as [current|e]; [|discriminate].
        destruct answers as [|[text ok| |] answers]; simpl; try discriminate.
        destruct ok.
        -- intros Hrun.
           apply refresh_set_list in Hrun as (t & rs & _ & _ & -> & _). eauto.
        -- intros [= <- _]. eauto using set_list_same.
      * intros Hrun. apply refresh_set_list in Hrun as (t & rs & _ & _ & -> & _).
        eauto.
    + intros [= <- _]. eauto using set_list_same.
Qed.

Lemma effect_deliver (st : state) (tgt : target) (ev : mouse_event) :
  effect st (deliver st tgt ev).
Proof.
  intros answers st' rest. unfold deliver.
  destruct (receiver st tgt) as [|r].
  - unfold eventFilter.
    destruct (ev_type ev); try exact (effect_Return st answers st' rest).
    + destruct (ev_button ev); try exact (effect_Return st answers st' rest).
      destruct (rect_contains st (ev_pos ev)).
      * exact (effect_main_menu st _ answers st' rest).
      * exact (effect_Return st answers st' rest).
    + intros [= <- _]. do 3 right. left. reflexivity.
  - destruct (ev_type ev); try exact (effect_Return st answers st' rest).
    assert (Hst1 : exists c,
               match r with
               | Some n =>
                   if (n <? length (rows st))%nat
                   then set_current_row st (Z.of_nat n) else st
               | None => st
               end = set_list st (todos st) (rows st) c).
    { destruct r as [n|]; [|eauto using set_list_same].
      destruct (n <? length (rows st))%nat; [|eauto using set_list_same].
      eexists. reflexivity. }
    destruct Hst1 as [c ->]. cbn zeta.
    destruct (ev_button ev).
    + intros [= <- _]. left. eauto.
    + intros Hrun. apply item_menu_set_list in Hrun as (t & rs & c' & ->).
      left. exists t, rs, c'. reflexivity.
    + intros [= <- _]. left. eauto.
Qed.

Lemma effect_handle (st : state) (i : input) : effect st (handle st i).
Proof.
  destruct i as [tgt ev|trigger|pos]; simpl.
  - apply effect_deliver.
  - intros answers st' rest [= <- _]. destruct trigger.
    + do 4 right. reflexivity.
    + left. eauto using set_list_same.
  - apply effect_main_menu.
Qed.

End Effects.

(** ** Folding the list *)

(** X3.  In every state the program reaches the list is visible exactly when
    [self.collapsed] is false: [__init__] starts that way, a double click
    flips both, and no other handler touches either.  So a double click
    hides a visible list and shows a hidden one, and two double clicks in
    a row give back the state they started from. *)
Theorem double_click_folds `{Host} (st : state) :
  reachable st ->
  list_visible st = negb (collapsed st)
  /\ list_visible (mouseDoubleClickEvent st) = negb (list_visible st)
  /\ collapsed (mouseDoubleClickEvent st) = negb (collapsed st)
  /\ mouseDoubleClickEvent (mouseDoubleClickEvent st) = st.
Proof.
  intros Hreach.
  assert (Hvis : list_visible st = negb (collapsed st)).
  { induction Hreach as [file st Hst|st i answers st' rest _ IH Hrun].
    - unfold startup in Hst. destruct (load file) as [t|e]; [|discriminate].
      simpl in Hst. unfold refresh in Hst. simpl in Hst.
      destruct (py_iter t) as [ts|e]; [|discriminate]. simpl in Hst.
      destruct (make_rows ts) as [rs|e]; [|discriminate]. simpl in Hst.
      injection Hst as <-. reflexivity.
    - destruct (effect_handle st i answers st' rest Hrun)
        as [(t & rs & c & ->)|[(w & h & -> & _)|[(data & -> & _)|[->| ->]]]];
        simpl; try exact IH.
      rewrite negb_involutive. reflexivity. }
  split; [exact Hvis|]. split; [|split].
  - simpl. rewrite Hvis, negb_involutive. reflexivity.
  - reflexivity.
  - destruct st as [t rs c vis col sh w h f q]. simpl in *. subst vis.
    unfold mouseDoubleClickEvent, set_collapsed. simpl.
    rewrite negb_involutive. reflexivity.
Qed.

Lemma double_click_folds_witness :
  exists st,
    startup (H := example_host false) None = Ok st
    /\ list_visible st = true
    /\ list_visible (mouseDoubleClickEvent st) = false
    /\ mouseDoubleClickEvent (mouseDoubleClickEvent st) = st.
Proof.
  eexists. split; [reflexivity|].
  match goal with
  | |- list_visible ?st = _ /\ _ =>
      destruct (double_click_folds (H := example_host false) st
                  (reachable_startup None st eq_refl)) as (_ & _ & _ & Hback)
  end.
  split; [reflexivity|]. split; [reflexivity|]. exact Hback.
Defined.

(** ** When the data file is written *)

(** X4.  Only [exit] writes the data file.  Whatever the input and the user's
    answers, a handler that returns has left the data file as it was, or it
    was [exit]: then the file holds what [save] writes for the list and
    [QApplication.quit] has been called.  What [add], [edit], [delete] and
    [toggle] change stays in memory until then. *)
Theorem data_file_written_by_exit `{Host} (st st' : state) (i : input)
    (answers rest : list answer) :
  run (handle st i) answers = Some (Ok st', rest) ->
  data_file st' = data_file st /\ quit st' = quit st
  \/ (exists data,
        save st = (set_data_file st data, Ok tt)
        /\ st' = set_quit (set_data_file st data)
        /\ data_file st' = Some data /\ quit st' = true).
Proof.
  intros Hrun.
  destruct (effect_handle st i answers st' rest Hrun)
    as [(t & rs & c & ->)|[(w & h & -> & _)|[(data & -> & Hs)|[->| ->]]]];
    try (left; split; reflexivity).
  right. exists data. repeat split. exact Hs.
Qed.

Lemma data_file_written_by_exit_witness :
  exists st',
    run (handle example_state (TrayMenu (0, 0)))
      [APick (Some 0%nat); AText (lit "Pay rent") true] = Some (Ok st', [])
    /\ todos st' <> todos example_state
    /\ data_file st' = None.
Proof.
  eexists. split; [vm_compute; reflexivity|]. split; [discriminate|].
  match goal with
  | |- data_file ?st' = _ =>
      destruct (data_file_written_by_exit example_state st' (TrayMenu (0, 0))
                  [APick (Some 0%nat); AText (lit "Pay rent") true] [] eq_refl)
        as [[Hfile _]|(data & _ & _ & Hfile & _)]
  end.
  - exact Hfile.
  - discriminate Hfile.
Defined.

(** ** The size of the window *)

(** X5.  The window is 300 by 400 when the program starts, and its width and
    height stay within 200 .. 800: a handler changes them only through the
    two dialogs of [change_size], whose spin boxes are bounded so. *)
Theorem window_size_bounded `{Host} :
  (forall file st, startup file = Ok st -> width st = 300 /\ height st = 400)
  /\ (forall (st st' : state) (i : input) (answers rest : list answer),
        200 <= width st <= 800 ->
        200 <= height st <= 800 ->
        honours (handle st i) answers ->
        run (handle st i) answers = Some (Ok st', rest) ->
        200 <= width st' <= 800 /\ 200 <= height st' <= 800).
Proof.
  split.
  - intros file st Hst. unfold startup in Hst.
    destruct (load file) as [t|e]; [|discriminate].
    simpl in Hst. unfold refresh in Hst. simpl in Hst.
    destruct (py_iter t) as [ts|e]; [|discriminate]. simpl in Hst.
    destruct (make_rows ts) as [rs|e]; [|discriminate]. simpl in Hst.
    injection Hst as <-. split; reflexivity.
  - intros st st' i answers rest Hw Hh Hhon Hrun.
    destruct (effect_handle st i answers st' rest Hrun)
      as [(t & rs & c & ->)|[(w & h & -> & Hb)|[(data & -> & _)|[->| ->]]]];
      simpl; auto.
Qed.

Lemma window_size_bounded_witness :
  exists st',
    run (handle example_state (TrayMenu (0, 0)))
      [APick (Some 1%nat); AInt 640 true; AInt 200 true] = Some (Ok st', [])
    /\ 200 <= width st' <= 800 /\ 200 <= height st' <= 800.
Proof.
  eexists. split; [vm_compute; reflexivity|].
  eapply (proj2 (window_size_bounded (H := example_host false)) example_state _
            (TrayMenu (0, 0)) [APick (Some 1%nat); AInt 640 true; AInt 200 true] []).
  - simpl. lia.
  - simpl. lia.
  - simpl. lia.
  - vm_compute. reflexivity.
Defined.

(** ** Tidy lists *)
Section Tidy.
Context `{Host}.

Lemma tidy_item_inv (t : value) :
  tidy_item t = true ->
  exists d done text,
    t = VDict d /\ dict_get (lit "done") d = Some done
    /\ dict_get (lit "text") d = Some (VStr text)
    /\ ((exists b, done = VBool b) \/ (exists n, done = VInt n)).
Proof.
  unfold tidy_item. destruct t; try discriminate.
  destruct (dict_get (lit "done") d) as [done|] eqn:Hd; [|discriminate].
  destruct (dict_get (lit "text") d) as [text|] eqn:Ht;
    [|destruct done; discriminate].
  destruct done; try discriminate; destruct text; try discriminate;
    intros _; eauto 10.
Qed.

Lemma tidy_item_dict (d : list (pystr * value)) done text :
  dict_get (lit "done") d = Some done ->
  dict_get (lit "text") d = Some (VStr text) ->
  (exists b, done = VBool b) \/ (exists n, done = VInt n) ->
  tidy_item (VDict d) = true.
Proof.
  intros Hd Ht Hdone. unfold tidy_item. rewrite Hd, Ht.
  destruct Hdone as [[b ->]|[n ->]]; reflexivity.
Qed.

Lemma tidy_rows (l : list value) :
  Forall (fun t => tidy_item t = true) l -> exists rs, make_rows l = Ok rs.
Proof.
  intros Hl. apply make_rows_shown.
  induction Hl as [|t l Ht _ IH]; [reflexivity|]. simpl. rewrite IH.
  apply tidy_item_inv in Ht as (d & done & text & -> & Hd & Htx & _).
  simpl. rewrite Hd, Htx. reflexivity.
Qed.

Lemma crash_free_Return (st : state) :
  in_sync st -> tidy st -> crash_free (Return st).
Proof. intros Hs Ht answers r rest [= <- _]. split; assumption. Qed.

Lemma crash_free_refresh (st : state) (l : list value) :
  Forall (fun t => tidy_item t = true) l ->
  crash_free (lift (t ← Ok (VList l); refresh (set_todos st t))).
Proof.
  intros Hl answers r rest. destruct (tidy_rows l Hl) as [rs Hrs].
  cbn [mbind result_bind]. rewrite (refresh_list _ l rs Hrs). simpl.
  intros [= <- _]. split.
  - split; simpl; [eauto|lia].
  - exists l. split; [reflexivity|exact Hl].
Qed.

Lemma crash_free_add (st : state) :
  in_sync st -> tidy st -> crash_free (add st).
Proof.
  intros Hs Ht answers r rest. unfold add.
  destruct answers as [|[text ok| |] answers]; simpl; try discriminate.
  destruct (ok && negb (bool_decide (text = []))).
  - destruct Ht as (l & -> & Hl). apply crash_free_refresh.
    apply Forall_app. split; [exact Hl|]. repeat constructor.
  - apply crash_free_Return; assumption.
Qed.

Lemma crash_free_change_size (st : state) :
  in_sync st -> tidy st -> crash_free (change_size st).
Proof.
  intros Hs Ht answers r rest. unfold change_size.
  destruct answers as [|[|w ok1|] answers]; simpl; try discriminate.
  destruct ok1; simpl; [|apply crash_free_Return; assumption].
  destruct answers as [|[|h ok2|] answers]; simpl; try discriminate.
  destruct ok2; simpl; intros [= <- _]; split; assumption.
Qed.

Lemma crash_free_exit (st : state) :
  in_sync st -> tidy st -> crash_free (exit st).
Proof.
  intros Hs Ht answers r rest. unfold exit, save.
  destruct (write_chunks (iterencode (todos st) 0) []) as [data [[]|e]] eqn:Hw;
    simpl; intros [= <- _].
  - split; [|exact Ht]. eapply in_sync_same; [| | |exact Hs]; reflexivity.
  - eapply write_chunks_error. eassumption.
Qed.

Lemma crash_free_main_menu (st : state) (pos : point) :
  in_sync st -> tidy st ->
  crash_free (ExecMenu [("➕ 添加代办"%string, add st);
                        ("🖋 修改宽高"%string, change_size st);
                        ("✖ 退出"%string, exit st)] pos (Return st)).
Proof.
  intros Hs Ht answers r rest.
  destruct answers as [|[| |[n|]] answers]; simpl; try discriminate.
  - destruct n as [|[|[|n]]]; try discriminate.
    + apply crash_free_add; assumption.
    + apply crash_free_change_size; assumption.
    + apply crash_free_exit; assumption.
  - apply crash_free_Return; assumption.
Qed.

(** The three actions of the item menu on a valid index of a tidy list. *)
Lemma crash_free_item_actions (st : state) (l : list value) (i : Z) :
  in_sync st ->
  todos st = VList l ->
  Forall (fun t => tidy_item t = true) l ->
  0 <= i < Z.of_nat (length l) ->
  crash_free (toggle st i) /\ crash_free (edit st i) /\ crash_free (delete st i).
Proof.
  intros Hs Ht Hl Hi.
  destruct (lookup_lt_is_Some_2 l (Z.to_nat i) ltac:(lia)) as [o Ho].
  pose proof (Forall_lookup_1 _ _ _ _ Hl Ho) as Hto. cbv beta in Hto.
  apply tidy_item_inv in Hto as (d & done & text & -> & Hd & Htx & Hdone).
  split; [|split].
  - unfold toggle. rewrite Ht, (update_item_list _ _ _ _ Hi Ho). simpl.
    rewrite Hd. simpl.
    assert (Hx : exists done', xor_true done = Ok done'
                 /\ ((exists b, done' = VBool b) \/ (exists n, done' = VInt n))).
    { destruct Hdone as [[b ->]|[n ->]]; simpl; eauto 10. }
    destruct Hx as (done' & -> & Hdone'). simpl.
    apply crash_free_refresh. apply Forall_insert; [exact Hl|].
    eapply tidy_item_dict; [apply dict_get_set_eq| |exact Hdone'].
    rewrite dict_get_set_ne by discriminate. exact Htx.
  - intros answers r rest. unfold edit.
    rewrite Ht, (getitem_int_list _ _ _ Hi Ho). simpl. rewrite Htx. simpl.
    destruct answers as [|[t ok| |] answers]; simpl; try discriminate.
    destruct ok.
    + rewrite norm_index_valid, Ho by assumption. simpl.
      apply crash_free_refresh. apply Forall_insert; [exact Hl|].
      eapply tidy_item_dict; [| apply dict_get_set_eq |exact Hdone].
      rewrite dict_get_set_ne by discriminate. exact Hd.
    + apply crash_free_Return; [exact Hs|]. exists l. split; assumption.
  - unfold delete. rewrite Ht. simpl. rewrite norm_index_valid by assumption.
    apply crash_free_refresh. apply Forall_delete. exact Hl.
Qed.

Lemma crash_free_item_menu (st : state) (pos : point) :
  in_sync st -> tidy st -> crash_free (item_menu st pos).
Proof.
  intros Hs Ht answers r rest. unfold item_menu.
  destruct (Z.ltb_spec (current_row st) 0) as [|Hpos];
    [apply crash_free_Return; assumption|].
  destruct (in_sync_list st Hs Hpos) as (l & Hl & _ & Hlt).
  destruct Ht as (l' & Hl' & Htidy).
  assert (l' = l) by congruence. subst l'.
  destruct (crash_free_item_actions st l (current_row st) Hs Hl Htidy
              ltac:(lia)) as (Htog & Hed & Hdel).
  destruct answers as [|[| |[n|]] answers]; simpl; try discriminate.
  - destruct n as [|[|[|n]]]; try discriminate.
    + apply Htog.
    + apply Hed.
    + apply Hdel.
  - apply crash_free_Return; [exact Hs|]. exists l. split; assumption.
Qed.

Lemma crash_free_handle (st : state) (i : input) :
  in_sync st -> tidy st -> crash_free (handle st i).
Proof.
  intros Hs Ht. destruct i as [tgt ev|trigger|pos]; simpl.
  - unfold deliver. destruct (receiver st tgt) as [|r].
    + unfold eventFilter.
      destruct (ev_type ev); try (apply crash_free_Return; assumption).
      destruct (ev_button ev); try (apply crash_free_Return; assumption).
      destruct (rect_contains st (ev_pos ev));
        [apply crash_free_main_menu|apply crash_free_Return]; assumption.
    + destruct (ev_type ev); try (apply crash_free_Return; assumption).
      assert (Hs1 : in_sync match r with
                            | Some n =>
                                if (n <? length (rows st))%nat
                                then set_current_row st (Z.of_nat n) else st
                            | None => st
                            end
                    /\ tidy match r with
                            | Some n =>
                                if (n <? length (rows st))%nat
                                then set_current_row st (Z.of_nat n) else st
                            | None => st
                            end).
      { destruct r as [n|]; [|split; assumption].
        destruct (Nat.ltb_spec n (length (rows st))); [|split; assumption].
        split; [|exact Ht].
        destruct Hs as [Hrows _]. split; [exact Hrows|]. simpl. lia. }
      destruct Hs1 as [Hs1 Ht1].
      destruct (ev_button ev);
        try (apply crash_free_Return; assumption).
      apply crash_free_item_menu; assumption.
  - apply crash_free_Return; [|destruct trigger; exact Ht].
    destruct trigger; [|assumption].
    eapply in_sync_same; [| | |exact Hs]; reflexivity.
  - apply crash_free_main_menu; assumption.
Qed.

End Tidy.

(** X6.  With a tidy list, one whose items are dicts with a string under
    ["text"] and a [bool] or an [int] under ["done"], the handlers never
    fail on the list: whatever the input and the user's answers, a handler
    returns, with the list tidy again and the view in step with it, or it is
    [exit] raising the [UnicodeEncodeError] of [save]; no [KeyError],
    [TypeError], [IndexError] or [AttributeError] arises.  The program
    starts in such a state when there is no data file or when the data file
    holds a tidy list. *)
Theorem tidy_list_never_crashes `{Host} :
  (forall file l,
     load file = Ok (VList l) ->
     Forall (fun t => tidy_item t = true) l ->
     exists st, startup file = Ok st /\ in_sync st /\ tidy st)
  /\ (forall (st : state) (i : input) (answers rest : list answer) r,
        in_sync st -> tidy st ->
        run (handle st i) answers = Some (r, rest) ->
        match r with
        | Ok st' => in_sync st' /\ tidy st'
        | Raise e => e = UnicodeEncodeError
        end).
Proof.
  split.
  - intros file l Hl Htidy. unfold startup. rewrite Hl. cbn [mbind result_bind].
    destruct (tidy_rows l Htidy) as [rs Hrs].
    unfold refresh. cbn [todos py_iter mbind result_bind]. rewrite Hrs.
    cbn [mbind result_bind]. eexists. split; [reflexivity|]. split.
    + split; simpl; [eauto|lia].
    + exists l. split; [reflexivity|exact Htidy].
  - intros st i answers rest r Hs Ht Hrun.
    exact (crash_free_handle st i Hs Ht answers r rest Hrun).
Qed.

Lemma tidy_list_never_crashes_witness :
  (exists st,
     startup (H := example_host false)
       (ascii_file "[{'done': 1, 'text': 'Buy milk'}]") = Ok st
     /\ in_sync st /\ tidy st)
  /\ (exists st',
        run (handle example_state (Mouse (OnList (Some 1%nat)) (right_press (50, 40))))
          [APick (Some 0%nat)] = Some (Ok st', [])
        /\ in_sync st' /\ tidy st').
Proof.
  pose proof (tidy_list_never_crashes (H := example_host false)) as [Hstart Hstep].
  split.
  - apply (Hstart (ascii_file "[{'done': 1, 'text': 'Buy milk'}]")
             [VDict [(lit "done", VInt 1); (lit "text", VStr (lit "Buy milk"))]]).
    + vm_compute. reflexivity.
    + repeat constructor.
  - eexists. split; [vm_compute; reflexivity|].
    eapply (Hstep example_state
              (Mouse (OnList (Some 1%nat)) (right_press (50, 40)))
              [APick (Some 0%nat)] [] (Ok _)).
    + split; [|simpl; lia]. eexists. split; reflexivity.
    + eexists. split; [reflexivity|]. repeat constructor.
    + vm_compute. reflexivity.
Defined.

(** ** From one run of the program to the next *)

(** X7.  What survives a restart.  From a state whose view is in step with the
    list, the list being free of floats and of surrogates: [exit] writes the
    data file and calls [QApplication.quit]; the program started on that
    file holds the same list and shows the same rows.  Only the list is
    kept: the window is 300 by 400 again, the list is unfolded and no row is
    current, whatever they were before. *)
Theorem exit_then_startup `{Host} (st : state) :
  in_sync st ->
  plain is_scalar (todos st) ->
  exists st1 st2,
    run (exit st) [] = Some (Ok st1, [])
    /\ quit st1 = true
    /\ todos st1 = todos st
    /\ startup (data_file st1) = Ok st2
    /\ todos st2 = todos st
    /\ rows st2 = rows st
    /\ current_row st2 = -1
    /\ width st2 = 300 /\ height st2 = 400
    /\ collapsed st2 = false /\ list_visible st2 = true.
Proof.
  intros [(ts & Hts & Hrs) _] Hp.
  destruct (save_load_plain st Hp) as (data & Hsave & Hload).
  eexists (set_quit (set_data_file st data)), _.
  split; [unfold exit; rewrite Hsave; reflexivity|].
  split; [reflexivity|]. split; [reflexivity|].
  split.
  - cbn [data_file set_quit set_data_file]. unfold startup. rewrite Hload.
    cbn [mbind result_bind]. unfold refresh. cbn [todos]. rewrite Hts.
    cbn [mbind result_bind]. rewrite Hrs. reflexivity.
  - repeat split.
Qed.

Lemma exit_then_startup_witness :
  exists st1 st2,
    run (exit (resize example_state 640 200)) [] = Some (Ok st1, [])
    /\ quit st1 = true
    /\ todos st1 = VList example_items
    /\ startup (data_file st1) = Ok st2
    /\ todos st2 = VList example_items
    /\ rows st2 = example_rows
    /\ current_row st2 = -1
    /\ width st2 = 300 /\ height st2 = 400
    /\ collapsed st2 = false /\ list_visible st2 = true.
Proof.
  apply (exit_then_startup (resize example_state 640 200)).
  - split; [|simpl; lia]. exists example_items. split; reflexivity.
  - exact (todo_list_plain (H := example_host false) is_scalar
             [(lit "Buy milk", true); (lit "Call Bob", false)]
             ltac:(intros c Hc; unfold is_scalar, is_codepoint, is_surrogate;
                   split; lia)
             ltac:(repeat constructor; simpl; lia)).
Defined.

(** ** Flags that are not booleans *)
Section Flags.
Context `{Host}.

Lemma lxor_1_parity (n : Z) :
  Z.lxor n 1 = if Z.even n then n + 1 else n - 1.
Proof.
  assert (Heven : forall m, Z.even m = true -> Z.lxor m 1 = m + 1).
  { intros m Hm. symmetry. apply Z.add_nocarry_lxor.
    change 1 with (Z.ones 1). rewrite Z.land_ones by lia.
    apply Z.even_spec in Hm as [k ->]. change (2 ^ 1) with 2.
    rewrite Z.mul_comm. apply Z_mod_mult. }
  destruct (Z.even n) eqn:Hn; [apply Heven; exact Hn|].
  assert (Hm : Z.even (n - 1) = true).
  { rewrite Z.even_sub, Hn. reflexivity. }
  replace n with (n - 1 + 1) at 1 by lia.
  rewrite <- (Heven _ Hm), Z.lxor_assoc, Z.lxor_nilpotent, Z.lxor_0_r.
  reflexivity.
Qed.

End Flags.

(** X8.  [toggle] on an item whose ["done"] is not a [bool].  [json.load]
    builds such items from a data file edited by hand.  With an [int] [n]
    there, [toggle] puts [n ^ 1]: [n + 1] for an even [n], [n - 1] for an odd
    one, so 0 and 1 swap, and any other [n] stays true (the row keeps its
    tick); a second [toggle] gives [n] back.  With anything else there,
    [None], a float, a string, a list or a dict, [toggle] raises
    [TypeError]. *)
Theorem toggle_other_flags `{Host} (st : state) (l : list value) (rs : list row)
    (i : Z) (d : list (pystr * value)) (done : value) :
  todos st = VList l ->
  make_rows l = Ok rs ->
  0 <= i < Z.of_nat (length l) ->
  l !! Z.to_nat i = Some (VDict d) ->
  dict_get (lit "done") d = Some done ->
  (forall n, done = VInt n ->
     exists st1 st2,
       run (toggle st i) [] = Some (Ok st1, [])
       /\ todos st1
          = VList (<[Z.to_nat i:=VDict (dict_set (lit "done")
                                         (VInt (if Z.even n then n + 1 else n - 1)) d)]> l)
       /\ (n <> 0 -> n <> 1 ->
           truthy (VInt (if Z.even n then n + 1 else n - 1)) = true
           /\ truthy (VInt n) = true)
       /\ run (toggle st1 i) [] = Some (Ok st2, [])
       /\ todos st2 = VList l)
  /\ ((forall b, done <> VBool b) -> (forall n, done <> VInt n) ->
      run (toggle st i) [] = Some (Raise TypeError, [])).
Proof.
  intros Ht Hrs Hi Ho Hd.
  destruct (displayed_item _ _ _ _ Hrs Ho) as (d0 & done0 & text & Hd0 & _ & Htx).
  injection Hd0 as <-.
  assert (Hlen : (Z.to_nat i < length l)%nat) by lia.
  split.
  - intros n ->. rewrite <- lxor_1_parity.
    set (d1 := dict_set (lit "done") (VInt (Z.lxor n 1)) d).
    assert (Hr1 : exists r1, make_row (VDict d1) = Ok r1).
    { eexists. apply make_row_dict with (done := VInt (Z.lxor n 1)).
      - apply dict_get_set_eq.
      - unfold d1. rewrite dict_get_set_ne by discriminate. exact Htx. }
    destruct Hr1 as [r1 Hr1].
    pose proof (make_rows_insert _ _ (Z.to_nat i) _ _ Hrs Hr1) as Hrs1.
    eexists _, _. split; [|split; [|split; [|split]]].
    + unfold toggle. rewrite Ht, (update_item_list _ _ _ _ Hi Ho). simpl.
      rewrite Hd. simpl. fold d1. rewrite (refresh_list st _ _ Hrs1).
      reflexivity.
    + reflexivity.
    + intros H0 H1. rewrite lxor_1_parity. simpl.
      destruct (Z.even n) eqn:He.
      * split; apply negb_true_iff, Z.eqb_neq; [|assumption].
        intros E. assert (n = -1) by lia. subst n. discriminate He.
      * split; apply negb_true_iff, Z.eqb_neq; [lia|assumption].
    + unfold toggle. cbn [todos set_list].
      rewrite (update_item_list _ _ (VDict d1)).
      * simpl. unfold d1. rewrite dict_get_set_eq. simpl.
        rewrite dict_set_set.
        rewrite Z.lxor_assoc, Z.lxor_nilpotent, Z.lxor_0_r.
        rewrite (dict_set_same _ _ _ Hd).
        rewrite list_insert_insert_eq, (list_insert_id _ _ _ Ho).
        rewrite (refresh_list _ _ _ Hrs). reflexivity.
      * rewrite length_insert. exact Hi.
      * apply list_lookup_insert_eq. exact Hlen.
    + reflexivity.
  - intros Hb Hn. unfold toggle.
    rewrite Ht, (update_item_list _ _ _ _ Hi Ho). simpl. rewrite Hd. simpl.
    destruct done; try reflexivity.
    + exfalso. eapply Hb. reflexivity.
    + exfalso. eapply Hn. reflexivity.
Qed.

Lemma toggle_other_flags_witness :
  (exists st1,
     run (toggle (set_todos example_state
                    (VList [VDict [(lit "text", VStr (lit "a")); (lit "done", VInt 2)]]))
            0) [] = Some (Ok st1, [])
     /\ todos st1
        = VList [VDict [(lit "text", VStr (lit "a")); (lit "done", VInt 3)]])
  /\ run (toggle (set_todos example_state
                    (VList [VDict [(lit "text", VStr (lit "a")); (lit "done", VNone)]]))
            0) [] = Some (Raise TypeError, []).
Proof.
  split.
  - destruct (proj1 (toggle_other_flags
               (set_todos example_state
                  (VList [VDict [(lit "text", VStr (lit "a")); (lit "done", VInt 2)]]))
               _ _ 0 _ (VInt 2) eq_refl eq_refl ltac:(simpl; lia) eq_refl eq_refl)
               2 eq_refl) as (st1 & st2 & Hrun & Htodos & _).
    exists st1. split; [exact Hrun|exact Htodos].
  - apply (proj2 (toggle_other_flags
               (set_todos example_state
                  (VList [VDict [(lit "text", VStr (lit "a")); (lit "done", VNone)]]))
               _ _ 0 _ VNone eq_refl eq_refl ltac:(simpl; lia) eq_refl eq_refl));
      discriminate.
Defined.

(** ** The view and the list *)

(** X9.  In every state the program reaches with a list as [self.todos], the
    view has one row for each item, in the order of the list; the item is a
    dict with a ["done"] entry and a string under ["text"], and its row
    shows a tick and that string in grey when ["done"] is true, a circle and
    that string in black when it is not. *)
Theorem view_shows_list `{Host} (st : state) (l : list value) :
  reachable st ->
  todos st = VList l ->
  length (rows st) = length l
  /\ (forall n o,
        l !! n = Some o ->
        exists d done text,
          o = VDict d
          /\ dict_get (lit "done") d = Some done
          /\ dict_get (lit "text") d = Some (VStr text)
          /\ rows st !! n = Some (row_of done text)).
Proof.
  intros Hreach Ht. pose proof (reachable_displayed st l Hreach Ht) as Hrs.
  apply make_rows_Forall2 in Hrs. split.
  - symmetry. eapply Forall2_length. exact Hrs.
  - intros n o Ho.
    destruct (Forall2_lookup_l _ _ _ _ _ Hrs Ho) as (r & Hr & Hrow).
    apply make_row_Ok in Hrow as (d & done & text & -> & Hd & Htx & ->).
    exists d, done, text. repeat split; assumption.
Qed.

Lemma view_shows_list_witness :
  exists st,
    startup (H := example_host false)
      (ascii_file "[{'text': 'Buy milk', 'done': 1}, {'done': null, 'text': ''}]")
    = Ok st
    /\ length (rows st) = 2%nat
    /\ rows st !! 0%nat = Some (row_of (H := example_host false) (VInt 1) (lit "Buy milk"))
    /\ rows st !! 1%nat = Some (row_of (H := example_host false) VNone []).
Proof.
  eexists. split; [vm_compute; reflexivity|].
  match goal with
  | |- length (rows ?st) = _ /\ _ =>
      destruct (view_shows_list (H := example_host false) st
                  [VDict [(lit "text", VStr (lit "Buy milk")); (lit "done", VInt 1)];
                   VDict [(lit "done", VNone); (lit "text", VStr [])]]
                  (reachable_startup
                     (ascii_file "[{'text': 'Buy milk', 'done': 1}, {'done': null, 'text': ''}]")
                     st ltac:(vm_compute; reflexivity))
                  eq_refl) as [Hlen Hrows]
  end.
  split; [exact Hlen|]. split.
  - destruct (Hrows 0%nat _ eq_refl) as (d & done & text & [= <-] & [= <-] & [= <-] & Hrow).
    exact Hrow.
  - destruct (Hrows 1%nat _ eq_refl) as (d & done & text & [= <-] & [= <-] & [= <-] & Hrow).
    exact Hrow.
Defined.

(** X10.  [edit] on a valid index of a displayed list never fails before its
    dialog: the dialog opens with the text of the item in its line edit,
    which is what the row shows after its mark. *)
Theorem edit_dialog_prefilled `{Host} (st : state) (l : list value)
    (rs : list row) (i : Z) (o : value) :
  todos st = VList l ->
  make_rows l = Ok rs ->
  0 <= i < Z.of_nat (length l) ->
  l !! Z.to_nat i = Some o ->
  exists text mark colour k,
    getitem_str o (lit "text") = Ok (VStr text)
    /\ rs !! Z.to_nat i = Some {| label := mark ++ text; foreground := colour |}
    /\ length mark = 2%nat
    /\ edit st i = GetText "修改代办" "内容：" text k.
Proof.
  intros Ht Hrs Hi Ho.
  pose proof (proj1 (make_rows_Forall2 _ _) Hrs) as Hall.
  destruct (Forall2_lookup_l _ _ _ _ _ Hall Ho) as (r & Hr & Hrow).
  apply make_row_Ok in Hrow as (d & done & text & -> & Hd & Htx & ->).
  exists text, (if truthy done then [0x2714; 32] else [0x25CB; 32]),
    (if truthy done then "#777777" else "#000000")%string.
  eexists. split; [simpl; rewrite Htx; reflexivity|].
  split; [exact Hr|]. split; [destruct (truthy done); reflexivity|].
  unfold edit. rewrite Ht, (getitem_int_list _ _ _ Hi Ho). simpl.
  rewrite Htx. simpl. reflexivity.
Qed.

Lemma edit_dialog_prefilled_witness :
  exists k, edit example_state 1 = GetText "修改代办" "内容：" (lit "Call Bob") k.
Proof.
  destruct (edit_dialog_prefilled example_state example_items example_rows 1
              (todo_item (lit "Call Bob") false)
              eq_refl eq_refl ltac:(simpl; lia) eq_refl)
    as (text & mark & colour & k & [= <-] & _ & _ & Hedit).
  exists k. exact Hedit.
Defined.

(** ** Indices *)
Section Indices.
Context `{Host}.

Lemma norm_index_outside (len : nat) (i : Z) :
  i < - Z.of_nat len \/ Z.of_nat len <= i -> norm_index len i = None.
Proof.
  intros Hi. unfold norm_index.
  destruct (Z.ltb_spec i 0);
    repeat match goal with
           | |- context [Z.leb ?a ?b] => destruct (Z.leb_spec a b)
           | |- context [Z.ltb ?a ?b] => destruct (Z.ltb_spec a b)
           end; simpl; try reflexivity; lia.
Qed.

Lemma norm_index_negative (len : nat) (i : Z) :
  - Z.of_nat len <= i < 0 ->
  norm_index len i = norm_index len (i + Z.of_nat len).
Proof.
  intros Hi. rewrite (norm_index_valid len (i + Z.of_nat len)) by lia.
  unfold norm_index.
  destruct (Z.ltb_spec i 0); [|lia].
  repeat match goal with
         | |- context [Z.leb ?a ?b] => destruct (Z.leb_spec a b)
         | |- context [Z.ltb ?a ?b] => destruct (Z.ltb_spec a b)
         end; simpl; try reflexivity; lia.
Qed.

End Indices.

(** X11.  The index the three item operations are given is a Python index into
    the list.  An index past either end makes each of them raise
    [IndexError] at once, [edit] before any dialog.  A negative index
    within the length counts from the end: the operation does what it does
    for that index plus the length, so [delete(-1)] removes the last
    item. *)
Theorem item_index_conventions `{Host} (st : state) (l : list value) (i : Z) :
  todos st = VList l ->
  (i < - Z.of_nat (length l) \/ Z.of_nat (length l) <= i ->
   forall answers,
     run (toggle st i) answers = Some (Raise IndexError, answers)
     /\ run (edit st i) answers = Some (Raise IndexError, answers)
     /\ run (delete st i) answers = Some (Raise IndexError, answers))
  /\ (- Z.of_nat (length l) <= i < 0 ->
      forall answers,
        run (toggle st i) answers = run (toggle st (i + Z.of_nat (length l))) answers
        /\ run (edit st i) answers = run (edit st (i + Z.of_nat (length l))) answers
        /\ run (delete st i) answers
           = run (delete st (i + Z.of_nat (length l))) answers).
Proof.
  intros Ht. split.
  - intros Hi answers. apply norm_index_outside in Hi.
    unfold toggle, edit, delete, update_item, pop, getitem_int.
    rewrite Ht, Hi. repeat split.
  - intros Hi answers. apply norm_index_negative in Hi.
    unfold toggle, delete. split; [|split].
    + unfold update_item. rewrite Ht, Hi. reflexivity.
    + unfold edit, getitem_int, update_item. rewrite Ht, Hi. reflexivity.
    + unfold pop. rewrite Ht, Hi. reflexivity.
Qed.

Lemma item_index_conventions_witness :
  run (delete example_state 2) [] = Some (Raise IndexError, [])
  /\ run (delete example_state (-1)) [] = run (delete example_state 1) [].
Proof.
  pose proof (item_index_conventions example_state example_items) as Hidx.
  split.
  - apply (proj1 (Hidx 2 eq_refl) ltac:(simpl; lia) []).
  - apply (proj2 (Hidx (-1) eq_refl) ltac:(simpl; lia) []).
Defined.

(** ** A data file that holds no list *)

(** X12.  [load] does not check that the data file holds a list.  The program
    starts on a file that holds an empty string or an empty dict, the only
    values other than lists that [refresh] accepts; the view is then empty
    and the item menu never opens, and [add] with a confirmed text raises
    [AttributeError], for such a value has no [append]. *)
Theorem todos_without_append `{Host} (st : state) :
  reachable st ->
  (forall l, todos st <> VList l) ->
  (todos st = VStr [] \/ todos st = VDict [])
  /\ rows st = []
  /\ (forall pos, item_menu st pos = Return st)
  /\ (forall t, t <> [] ->
        run (add st) [AText t true] = Some (Raise AttributeError, [])).
Proof.
  intros Hreach Hnl. apply reachable_in_sync in Hreach.
  destruct Hreach as [(ts & Hts & Hrs) Hcur].
  assert (Hshape : (todos st = VStr [] \/ todos st = VDict []) /\ ts = []).
  { destruct (todos st) as [| | | | s | l | d]; try discriminate.
    - destruct s as [|c s]; [injection Hts as <-; auto|].
      injection Hts as <-. discriminate Hrs.
    - exfalso. eapply Hnl. reflexivity.
    - destruct d as [|[k v] d]; [injection Hts as <-; auto|].
      injection Hts as <-. discriminate Hrs. }
  destruct Hshape as [Hshape ->]. injection Hrs as Hrs.
  rewrite <- Hrs in Hcur. simpl in Hcur.
  split; [exact Hshape|]. split; [symmetry; exact Hrs|]. split.
  - intros pos. unfold item_menu.
    rewrite (proj2 (Z.ltb_lt _ _)) by lia. reflexivity.
  - intros t Hne. unfold add. simpl.
    rewrite bool_decide_eq_false_2 by assumption. simpl.
    destruct Hshape as [-> | ->]; reflexivity.
Qed.

Lemma todos_without_append_witness :
  exists st,
    startup (H := example_host false) (ascii_file "{}") = Ok st
    /\ rows st = []
    /\ run (add st) [AText (lit "Buy milk") true] = Some (Raise AttributeError, []).
Proof.
  eexists. split; [vm_compute; reflexivity|].
  match goal with
  | |- rows ?st = _ /\ _ =>
      destruct (todos_without_append (H := example_host false) st
                  (reachable_startup (ascii_file "{}") st
                     ltac:(vm_compute; reflexivity))
                  ltac:(discriminate)) as (_ & Hrows & _ & Hadd)
  end.
  split; [exact Hrows|]. apply Hadd. discriminate.
Defined.

(** ** Data files that never load *)
Section Unloadable.
Context `{Host}.

Lemma skip_ws_blank (s : pystr) :
  Forall (fun c => is_ws c = true) s -> skip_ws s = [].
Proof. induction 1 as [|c s Hc _ IH]; simpl; [|rewrite Hc]; auto. Qed.

Lemma read_newlines_blank (s : pystr) :
  Forall (fun c => is_ws c = true) s ->
  Forall (fun c => is_ws c = true) (read_newlines s).
Proof.
  assert (Hn : forall n s, (length s <= n)%nat ->
                 Forall (fun c => is_ws c = true) s ->
                 Forall (fun c => is_ws c = true) (read_newlines s)).
  { clear s. induction n as [|n IH]; intros s Hlen Hs.
    - destruct s; [constructor|simpl in Hlen; lia].
    - destruct Hs as [|c s Hc Hs]; simpl; [constructor|]. simpl in Hlen.
      destruct (c =? 13).
      + destruct Hs as [|d s Hd Hs]; [repeat constructor|]. simpl in Hlen.
        destruct (d =? 10); constructor; try reflexivity.
        * apply IH; [lia|exact Hs].
        * apply IH; [simpl; lia|constructor; assumption].
      + constructor; [exact Hc|]. apply IH; [lia|exact Hs]. }
  apply (Hn (length s)). lia.
Qed.

Lemma utf8_decode_blank (data : list byte) :
  Forall (fun b => b = x20 \/ b = x09 \/ b = x0a \/ b = x0d) data ->
  exists s, utf8_decode data = Some s /\ Forall (fun c => is_ws c = true) s.
Proof.
  induction 1 as [|b data Hb _ (s & Hs & Hws)].
  - exists []. split; [reflexivity|constructor].
  - exists (Z_of_byte b :: s).
    destruct Hb as [-> | [-> | [-> | ->]]]; cbn [utf8_decode]; rewrite Hs;
      (split; [reflexivity|constructor; [reflexivity|exact Hws]]).
Qed.

End Unloadable.

(** X13.  A data file that exists but holds nothing, or white space only (spaces,
    tabs, line ends), is not read as an empty list: [load] raises
    [JSONDecodeError] and the program does not start.  Only a missing file
    gives the empty list. *)
Theorem load_rejects_blank_file `{Host} (data : list byte) :
  Forall (fun b => b = x20 \/ b = x09 \/ b = x0a \/ b = x0d) data ->
  load (Some data) = Raise JSONDecodeError
  /\ startup (Some data) = Raise JSONDecodeError.
Proof.
  intros Hdata.
  assert (Hl : load (Some data) = Raise JSONDecodeError).
  { destruct (utf8_decode_blank data Hdata) as (s & Hs & Hws).
    unfold load, read_text. rewrite Hs. cbn [mbind result_bind].
    apply read_newlines_blank in Hws.
    unfold json_loads. rewrite (skip_ws_blank _ Hws).
    destruct Hws as [|c s' Hc _]; [reflexivity|].
    destruct (Z.eqb_spec c 0xFEFF) as [->|_]; [discriminate Hc|reflexivity]. }
  split; [exact Hl|]. unfold startup. rewrite Hl. reflexivity.
Qed.

Lemma load_rejects_blank_file_witness :
  load (H := example_host false) (Some []) = Raise JSONDecodeError
  /\ startup (H := example_host false) (Some [x20; x0d; x0a]) = Raise JSONDecodeError.
Proof.
  split.
  - apply (load_rejects_blank_file (H := example_host false) []). constructor.
  - apply (load_rejects_blank_file (H := example_host false) [x20; x0d; x0a]).
    constructor; [left; reflexivity|].
    constructor; [do 3 right; reflexivity|].
    constructor; [right; right; left; reflexivity|]. constructor.
Defined.

(** X14.  The data file is read as [utf-8], not [utf-8-sig]: a file that starts
    with the UTF-8 byte order mark (EF BB BF), as some editors write it,
    never loads, whatever follows the mark.  [load] raises [JSONDecodeError]
    when the rest is UTF-8 and [UnicodeDecodeError] when it is not, and the
    program does not start. *)
Theorem load_rejects_byte_order_mark `{Host} (rest : list byte) :
  load (Some (xef :: xbb :: xbf :: rest))
  = Raise match utf8_decode rest with
          | Some _ => JSONDecodeError
          | None => UnicodeDecodeError
          end
  /\ (forall st, startup (Some (xef :: xbb :: xbf :: rest)) <> Ok st).
Proof.
  assert (Hl : load (Some (xef :: xbb :: xbf :: rest))
               = Raise match utf8_decode rest with
                       | Some _ => JSONDecodeError
                       | None => UnicodeDecodeError
                       end).
  { unfold load, read_text.
    change (utf8_decode (xef :: xbb :: xbf :: rest))
      with (cons 0xFEFF <$> utf8_decode rest).
    destruct (utf8_decode rest) as [s|]; reflexivity. }
  split; [exact Hl|]. intros st. unfold startup. rewrite Hl. discriminate.
Qed.

(** ** What [save] cannot write *)
Section Unwritable.
Context `{Host}.

Lemma utf8_encode_Some (s : pystr) (bs : list byte) (c : Z) :
  utf8_encode s = Some bs -> In c s -> is_surrogate c = false.
Proof.
  revert bs. induction s as [|c' s IH]; intros bs; simpl; [tauto|].
  destruct (utf8_encode_char c') as [cb|] eqn:Hc; [|discriminate].
  destruct (utf8_encode s) as [sb|]; [|discriminate].
  intros _ [->|Hin]; [|eapply IH; eauto].
  unfold utf8_encode_char in Hc.
  destruct (is_surrogate c) eqn:Hs; [|reflexivity].
  unfold is_surrogate in Hs.
  destruct (Z.ltb_spec c 0); [lia|].
  destruct (Z.ltb_spec c 0x80); [lia|].
  destruct (Z.ltb_spec c 0x800); [lia|discriminate].
Qed.

Lemma write_newlines_In (s : pystr) (c : Z) :
  In c s -> In c (write_newlines s).
Proof.
  induction s as [|c' s IH]; simpl; [tauto|].
  destruct ((c' =? 10) && linesep_crlf) eqn:Hnl; simpl.
  - intros [->|Hin]; [|auto]. apply andb_true_iff in Hnl as [Hc _].
    apply Z.eqb_eq in Hc. auto.
  - intros [->|Hin]; auto.
Qed.

Lemma encode_basestring_In (s : pystr) (c : Z) :
  is_surrogate c = true -> In c s -> In c (encode_basestring s).
Proof.
  intros Hs Hin. unfold encode_basestring.
  apply in_or_app. right. apply in_or_app. left.
  apply (proj2 (in_concat _ _)). exists (escape_char c). split; [apply in_map; exact Hin|].
  unfold is_surrogate in Hs. unfold escape_char.
  repeat match goal with
         | |- context [Z.eqb c ?k] => destruct (Z.eqb_spec c k); [lia|]
         end.
  destruct (Z.ltb_spec c 32); [lia|]. rewrite andb_false_r. left. reflexivity.
Qed.

Lemma write_chunks_Ok (chunks : list pystr) (written data : list byte)
    (chunk : pystr) :
  write_chunks chunks written = (data, Ok tt) ->
  In chunk chunks -> is_Some (utf8_encode (write_newlines chunk)).
Proof.
  revert written. induction chunks as [|ch chunks IH]; intros written; simpl;
    [tauto|].
  destruct (utf8_encode (write_newlines ch)) as [bs|] eqn:Hch; [|discriminate].
  intros Hw [<-|Hin]; [eauto|]. eapply IH; eauto.
Qed.

(** The text of every item is a chunk of the encoder's output. *)
Lemma item_text_chunk (items : list (pystr * bool)) (text : pystr) (done : bool) :
  In (text, done) items ->
  In (encode_basestring text) (iterencode (todo_list items) 0).
Proof.
  intros Hin. unfold todo_list.
  assert (Hchunks : forall first,
             In (encode_basestring text)
               (list_chunks (fun v => iterencode v 1) 1 first
                  (map (fun it => todo_item (fst it) (snd it)) items))).
  { induction items as [|[text' done'] items IH]; [destruct Hin|].
    intros first. cbn [map list_chunks fst snd todo_item atom_text].
    apply in_or_app. destruct Hin as [[= -> ->]|Hin].
    - left. right. cbn. do 4 right. left. reflexivity.
    - right. apply IH. exact Hin. }
  destruct items as [|it items]; [destruct Hin|].
  change (iterencode (VList (map (fun it => todo_item (fst it) (snd it)) (it :: items))) 0)
    with (list_chunks (fun v => iterencode v 1) 1 true
            (map (fun it => todo_item (fst it) (snd it)) (it :: items))
          ++ [newline_indent 0; [93]]).
  apply in_or_app. left. apply Hchunks.
Qed.

End Unwritable.

(** X15.  [save] fails exactly on surrogates.  For a list of to-do items, [save]
    writes the whole list when no text has a surrogate code point in it,
    and raises [UnicodeEncodeError] when one has, for the file is opened
    with the strict [utf-8] codec; [exit] then raises it too and does not
    reach [QApplication.quit]. *)
Theorem save_raises_on_surrogates `{Host} (st : state) (items : list (pystr * bool)) :
  todos st = todo_list items ->
  Forall (fun it => is_pystr (fst it)) items ->
  (snd (save st) = Ok tt
   <-> Forall (fun it => Forall (fun c => is_surrogate c = false) (fst it)) items)
  /\ (snd (save st) <> Ok tt ->
      snd (save st) = Raise UnicodeEncodeError
      /\ run (exit st) [] = Some (Raise UnicodeEncodeError, [])).
Proof.
  intros Ht Hitems. split; [split|].
  - intros Hok. apply Forall_forall. intros [text done] Hin.
    apply Forall_forall. intros c Hc. cbn [fst] in Hc.
    destruct (is_surrogate c) eqn:Hs; [|reflexivity].
    unfold save in Hok. rewrite Ht in Hok.
    destruct (write_chunks (iterencode (todo_list items) 0) []) as [data r] eqn:Hw.
    cbn [snd] in Hok. subst r.
    apply list_elem_of_In in Hin, Hc.
    destruct (write_chunks_Ok _ _ _ _ Hw (item_text_chunk items text done Hin))
      as [bs Hbs].
    assert (Hf : is_surrogate c = false); [|congruence].
    eapply utf8_encode_Some; [exact Hbs|].
    apply write_newlines_In, encode_basestring_In; assumption.
  - intros Hfree.
    assert (Hp : plain is_scalar (todos st)).
    { rewrite Ht. apply todo_list_plain.
      - intros c Hc. unfold is_scalar, is_codepoint, is_surrogate. split; lia.
      - apply Forall_forall. intros it Hin. apply Forall_forall. intros c Hc.
        split.
        + eapply Forall_forall in Hitems; [|exact Hin].
          eapply Forall_forall in Hitems; [|exact Hc]. exact Hitems.
        + eapply Forall_forall in Hfree; [|exact Hin].
          eapply Forall_forall in Hfree; [|exact Hc]. exact Hfree. }
    destruct (save_load_plain st Hp) as (data & -> & _). reflexivity.
  - unfold exit, save.
    destruct (write_chunks (iterencode (todos st) 0) []) as [data [[]|e]] eqn:Hw;
      cbn [snd]; [congruence|].
    intros _. apply write_chunks_error in Hw. subst e. split; reflexivity.
Qed.

Lemma save_raises_on_surrogates_witness :
  snd (save surrogate_state) = Raise UnicodeEncodeError
  /\ run (exit surrogate_state) [] = Some (Raise UnicodeEncodeError, []).
Proof.
  apply (proj2 (save_raises_on_surrogates surrogate_state surrogate_items
                  eq_refl ltac:(repeat constructor; simpl; lia))).
  vm_compute. discriminate.
Defined.

(** ** The window is never hidden *)

(** X16.  The program shows its window when it starts and on a click of the
    tray icon, and no handler hides it: in every state the program reaches
    before [exit] has called [QApplication.quit], the window is shown.
    [toggle_show], the one method that would hide it, is connected to
    nothing. *)
Theorem window_never_hidden `{Host} (st : state) :
  reachable st ->
  quit st = false ->
  shown st = true /\ shown (toggle_show st) = false.
Proof.
  intros Hreach Hquit.
  assert (Hshown : shown st = true).
  { revert Hquit.
    induction Hreach as [file st Hst|st i answers st' rest _ IH Hrun].
    - intros _. unfold startup in Hst.
      destruct (load file) as [t|e]; [|discriminate].
      simpl in Hst. unfold refresh in Hst. simpl in Hst.
      destruct (py_iter t) as [ts|e]; [|discriminate]. simpl in Hst.
      destruct (make_rows ts) as [rs|e]; [|discriminate]. simpl in Hst.
      injection Hst as <-. reflexivity.
    - destruct (effect_handle st i answers st' rest Hrun)
        as [(t & rs & c & ->)|[(w & h & -> & _)|[(data & -> & _)|[->| ->]]]];
        simpl; try exact IH; [discriminate|reflexivity]. }
  split; [exact Hshown|]. simpl. rewrite Hshown. reflexivity.
Qed.

Lemma window_never_hidden_witness :
  exists st,
    startup (H := example_host false) None = Ok st
    /\ shown st = true /\ shown (toggle_show st) = false.
Proof.
  eexists. split; [reflexivity|].
  match goal with
  | |- shown ?st = _ /\ _ =>
      exact (window_never_hidden (H := example_host false) st
               (reachable_startup None st eq_refl) eq_refl)
  end.
Defined.

(** ** No two slots share a dict *)

(** X17.  [self.todos] as Python holds it, a list of references to dicts: the
    list [json.load] builds has a dict of its own in every slot, and
    [append] of a new dict, [pop], and a change of the dict in one slot keep
    it so.  On such a list each operation does to the dicts what it does to
    the list of their values: a change made through one slot is seen in
    that slot only. *)
Theorem todos_slots_never_shared `{Host} :
  (forall l, separate (alloc_all l) /\ deref (alloc_all l) = l)
  /\ (forall h x,
        separate h ->
        separate (alloc h x)
        /\ append (VList (deref h)) x = Ok (VList (deref (alloc h x))))
  /\ (forall h i n,
        separate h ->
        norm_index (length (deref h)) i = Some n ->
        separate (remove h n)
        /\ pop (VList (deref h)) i = Ok (VList (deref (remove h n))))
  /\ (forall h i n o f,
        separate h ->
        norm_index (length (deref h)) i = Some n ->
        deref h !! n = Some o ->
        (forall o', separate (in_place h n o')
                    /\ deref (in_place h n o') = <[n:=o']> (deref h))
        /\ update_item (VList (deref h)) i f
           = (o' ← f o; Ok (VList (deref (in_place h n o'))))).
Proof.
  split; [exact alloc_all_separate|]. split; [|split].
  - intros h x Hs. split; [apply alloc_separate; exact Hs|].
    apply append_alloc. exact Hs.
  - intros h i n Hs Hn. split; [apply remove_separate; exact Hs|].
    apply pop_remove; assumption.
  - intros h i n o f Hs Hn Ho. split.
    + intros o'. apply in_place_separate; [exact Hs|].
      apply lookup_lt_Some in Ho. unfold deref in Ho.
      rewrite length_map in Ho. exact Ho.
    + apply update_item_in_place; assumption.
Qed.

Lemma todos_slots_never_shared_witness :
  separate (alloc (alloc_all example_items) (new_item (lit "Pay rent")))
  /\ deref (in_place (alloc_all example_items) 0 (todo_item (lit "Buy milk") false))
     = [todo_item (lit "Buy milk") false; todo_item (lit "Call Bob") false].
Proof.
  pose proof (todos_slots_never_shared (H := example_host false))
    as (Hload & Happend & _ & Hchange).
  split.
  - apply Happend. apply Hload.
  - apply (Hchange (alloc_all example_items) 0 0%nat
             (todo_item (lit "Buy milk") true) (fun o => Ok o)
             (proj1 (Hload example_items)) eq_refl eq_refl).
Defined.
